(** * FocusOS calendar planner: scheduling core

    A shallow embedding of the calendar part of [src/components/Planner.tsx]
    (component [CalendarPlan]) and of the task-tree store helpers of the
    application root ([recursiveUpdate], [findTaskById], [handleScheduleTask],
    [handleUpdateTask]), followed by the properties of the auto-scheduler,
    the drag-and-drop handlers and the resize logic.

    Modelling conventions.
    - JavaScript numbers that hold minutes and epoch milliseconds are
      integers ([Z]); pixel coordinates and heights are exact rationals ([Q]).
    - [Date] is modelled for a local time zone with a constant offset
      [tz] (milliseconds east of UTC, no daylight-saving transitions): the
      calendar day of an instant is its local day number, which is what
      [toDateString] identifies.
    - An optional field [f?: T] is an [option T]; the optional array
      [subtasks?: SubTask[]] is a list, [undefined] and the empty array being
      treated alike by every function embedded here.
    - A [boolean[]] is a [list bool]; reading past the end yields [undefined],
      which is falsy, and writing past the end extends the array. *)

From Stdlib Require Import ZArith QArith Qround Qminmax Lia Lqa.
From stdpp Require Import gmap strings list.

Local Open Scope Z_scope.

(** ** Data model ([src/types.ts]) *)

Inductive TaskStatus := TODO | IN_PROGRESS | COMPLETED.

Inductive Priority := P1 | P2 | P3 | P4.

Inductive Quadrant := Q1 | Q2 | Q3 | Q4.

(** [PriorityQuadrant] is ['Q1' | 'Q2' | 'Q3' | 'Q4' | null]. *)
Definition PriorityQuadrant := option Quadrant.

#[local] Unset Elimination Schemes.

Inductive SubTask := mkSubTask {
  task_id : string;
  title : string;
  status : TaskStatus;
  estimatedMinutes : Z;
  priority : option Priority;
  tags : option (list string);
  actualMinutes : option Z;
  scheduledDate : option Z;
  deadline : option Z;
  priorityQuadrant : option PriorityQuadrant;
  subtasks : list SubTask
}.

#[local] Set Elimination Schemes.

Inductive Role := RoleUser | RoleModel.

Record ChatMessage := mkChatMessage {
  msg_id : string;
  msg_role : Role;
  msg_text : string;
  msg_timestamp : Z;
  msg_attachments : option (list (string * string))
}.

Record Project := mkProject {
  proj_id : string;
  proj_title : string;
  proj_description : string;
  proj_subtasks : list SubTask;
  proj_createdAt : Z;
  proj_status : TaskStatus;
  proj_suggestedResources : option (list string);
  proj_chatHistory : list ChatMessage;
  proj_totalEstimatedMinutes : option Z
}.

(** [Partial<SubTask>]: every key may be present or not. *)
Record PartialSubTask := mkPartial {
  u_id : option string;
  u_title : option string;
  u_status : option TaskStatus;
  u_estimatedMinutes : option Z;
  u_priority : option (option Priority);
  u_tags : option (option (list string));
  u_actualMinutes : option (option Z);
  u_scheduledDate : option (option Z);
  u_deadline : option (option Z);
  u_priorityQuadrant : option (option PriorityQuadrant);
  u_subtasks : option (list SubTask)
}.

(** The object spread [{ ...t, ...updates }]. *)
Definition spread (t : SubTask) (updates : PartialSubTask) : SubTask :=
  {| task_id := default (task_id t) (u_id updates);
     title := default (title t) (u_title updates);
     status := default (status t) (u_status updates);
     estimatedMinutes := default (estimatedMinutes t) (u_estimatedMinutes updates);
     priority := default (priority t) (u_priority updates);
     tags := default (tags t) (u_tags updates);
     actualMinutes := default (actualMinutes t) (u_actualMinutes updates);
     scheduledDate := default (scheduledDate t) (u_scheduledDate updates);
     deadline := default (deadline t) (u_deadline updates);
     priorityQuadrant := default (priorityQuadrant t) (u_priorityQuadrant updates);
     subtasks := default (subtasks t) (u_subtasks updates) |}.

(** [{ ...t, subtasks: s }] and [{ ...p, subtasks: s }]. *)
Definition withSubtasks (t : SubTask) (s : list SubTask) : SubTask :=
  {| task_id := task_id t; title := title t; status := status t;
     estimatedMinutes := estimatedMinutes t; priority := priority t;
     tags := tags t; actualMinutes := actualMinutes t;
     scheduledDate := scheduledDate t; deadline := deadline t;
     priorityQuadrant := priorityQuadrant t; subtasks := s |}.

Definition withProjSubtasks (p : Project) (s : list SubTask) : Project :=
  {| proj_id := proj_id p; proj_title := proj_title p;
     proj_description := proj_description p; proj_subtasks := s;
     proj_createdAt := proj_createdAt p; proj_status := proj_status p;
     proj_suggestedResources := proj_suggestedResources p;
     proj_chatHistory := proj_chatHistory p;
     proj_totalEstimatedMinutes := proj_totalEstimatedMinutes p |}.

(** [{ ...t, scheduledDate: date }]. *)
Definition withScheduledDate (t : SubTask) (d : option Z) : SubTask :=
  {| task_id := task_id t; title := title t; status := status t;
     estimatedMinutes := estimatedMinutes t; priority := priority t;
     tags := tags t; actualMinutes := actualMinutes t;
     scheduledDate := d; deadline := deadline t;
     priorityQuadrant := priorityQuadrant t; subtasks := subtasks t |}.

Definition withEstimatedMinutes (t : SubTask) (m : Z) : SubTask :=
  {| task_id := task_id t; title := title t; status := status t;
     estimatedMinutes := m; priority := priority t;
     tags := tags t; actualMinutes := actualMinutes t;
     scheduledDate := scheduledDate t; deadline := deadline t;
     priorityQuadrant := priorityQuadrant t; subtasks := subtasks t |}.

(** The fields of a task other than its children. *)
Definition ownFields (t : SubTask) : SubTask := withSubtasks t [].

#[global] Instance TaskStatus_eq_dec : EqDecision TaskStatus.
Proof. solve_decision. Defined.

(** ** Task-tree store *)

(** [recursiveUpdate] (application root): [tasks.map(t => ...)]. *)
Fixpoint recursiveUpdateNode (targetId : string) (updater : SubTask → SubTask)
    (t : SubTask) : SubTask :=
  if String.eqb (task_id t) targetId then updater t
  else withSubtasks t (map (recursiveUpdateNode targetId updater) (subtasks t)).

Definition recursiveUpdate (tasks : list SubTask) (targetId : string)
    (updater : SubTask → SubTask) : list SubTask :=
  map (recursiveUpdateNode targetId updater) tasks.

(** [findTaskById] (application root): first match in pre-order. *)
Fixpoint findTaskNode (target : string) (t : SubTask) : option SubTask :=
  if String.eqb (task_id t) target then Some t
  else (fix go (l : list SubTask) : option SubTask :=
          match l with
          | [] => None
          | c :: r => match findTaskNode target c with
                      | Some found => Some found
                      | None => go r
                      end
          end) (subtasks t).

Fixpoint findTaskById (tasks : list SubTask) (target : string) : option SubTask :=
  match tasks with
  | [] => None
  | t :: r => match findTaskNode target t with
              | Some found => Some found
              | None => findTaskById r target
              end
  end.

(** [bulkUpdateTaskInTree] (Planner.tsx). *)
Fixpoint bulkUpdateNode (taskId : string) (updates : PartialSubTask)
    (t : SubTask) : SubTask :=
  if String.eqb (task_id t) taskId then spread t updates
  else withSubtasks t (map (bulkUpdateNode taskId updates) (subtasks t)).

Definition bulkUpdateTaskInTree (tasks : list SubTask) (taskId : string)
    (updates : PartialSubTask) : list SubTask :=
  map (bulkUpdateNode taskId updates) tasks.

(** [flattenTasks] (Planner.tsx): [result.push(task)], then
    [result = result.concat(flattenTasks(task.subtasks))]. [flattenBelow t]
    is [flattenTasks(t.subtasks)]. *)
Fixpoint flattenBelow (t : SubTask) : list SubTask :=
  fold_left (fun result c => (result ++ [c]) ++ flattenBelow c) (subtasks t) [].

Definition flattenTasks (tasks : list SubTask) : list SubTask :=
  fold_left (fun result t => (result ++ [t]) ++ flattenBelow t) tasks [].

(** [handleScheduleTask] and [handleUpdateTask] (application root), as the
    functions passed to [setProjects]. *)
Definition handleScheduleTask (prev : list Project) (projectId taskId : string)
    (date : Z) : list Project :=
  map (fun p =>
         if negb (String.eqb (proj_id p) projectId) then p
         else withProjSubtasks p
                (recursiveUpdate (proj_subtasks p) taskId
                   (fun t => withScheduledDate t (Some date))))
      prev.

Definition handleUpdateTask (prev : list Project) (projectId taskId : string)
    (updates : PartialSubTask) : list Project :=
  map (fun p =>
         if negb (String.eqb (proj_id p) projectId) then p
         else withProjSubtasks p
                (recursiveUpdate (proj_subtasks p) taskId
                   (fun t => spread t updates)))
      prev.

(** The task a payload [(projectId, taskId)] refers to: the project is found
    with [projects.find(p => p.id === projectId)], the task with
    [findTaskById]. *)
Definition lookupTask (projects : list Project) (projectId taskId : string)
    : option SubTask :=
  match List.find (fun p => String.eqb (proj_id p) projectId) projects with
  | Some p => findTaskById (proj_subtasks p) taskId
  | None => None
  end.

(** ** JavaScript values used by the planner *)

(** [Math.round]: nearest integer, halves rounded up. *)
Definition Math_round (x : Q) : Z := Qfloor (x + (1 # 2))%Q.

(** *** Arithmetic of the Number type

    A Number is a binary64 value: the result of [-] and [+] is the exact
    result rounded to the nearest value with 53 significant bits, ties going
    to the even one. *)

(** [a / b] rounded to the nearest integer, ties to even, for [0 ≤ a] and
    [0 < b]. *)
Definition roundDivEven (a b : Z) : Z :=
  let q := a / b in
  let r := a mod b in
  if 2 * r <? b then q
  else if b <? 2 * r then q + 1
  else if Z.even q then q else q + 1.

(** The integer part of the binary logarithm of [n / d], for [0 < n] and
    [0 < d]. *)
Definition floorLog2 (n d : Z) : Z :=
  let k := Z.log2 n - Z.log2 d in
  if 0 <=? k
  then (if d * 2 ^ k <=? n then k else k - 1)
  else (if d <=? n * 2 ^ (- k) then k else k - 1).

(** The Number nearest to [x]. The unit of the last place is [2 ^ e], with
    [e] at least -1074 as for the subnormal numbers; magnitudes from
    [2 ^ 1024] on, which round to an infinity, are not represented. *)
Definition round64 (x : Q) : Q :=
  let n := Z.abs (Qnum (Qred x)) in
  let d := Zpos (Qden (Qred x)) in
  let s := Z.sgn (Qnum (Qred x)) in
  if n =? 0 then 0%Q
  else
    let e := Z.max (floorLog2 n d - 52) (-1074) in
    if 0 <=? e
    then inject_Z (s * (roundDivEven n (d * 2 ^ e) * 2 ^ e))
    else Qmake (s * roundDivEven (n * 2 ^ (- e)) d) (Z.to_pos (2 ^ (- e))).

(** [x - y] and [x + y]; a sum with 0 is the other operand. *)
Definition jsSub (x y : Q) : Q := round64 (x - y).

Definition jsAdd (x y : Q) : Q :=
  if Qeq_bool y 0 then x
  else if Qeq_bool x 0 then y
  else round64 (x + y).

(** Truthiness of an optional number ([undefined] and [0] are falsy). *)
Definition truthyZ (v : option Z) : bool :=
  match v with
  | Some n => negb (n =? 0)
  | None => false
  end.

Definition truthyQ (v : option Q) : bool :=
  match v with
  | Some x => negb (Qeq_bool x 0)
  | None => false
  end.

(** A [boolean[]]. *)
Abbreviation Grid := (list bool).

(** [slots[i]] read for its truthiness. *)
Definition jsGet (slots : Grid) (i : Z) : bool :=
  if i <? 0 then false else default false (slots !! Z.to_nat i).

(** [slots[i] = v]; an index at or past the length extends the array, the
    holes reading as falsy. A negative index is not an array index and
    leaves the cells alone. *)
Definition jsSet (slots : Grid) (i : Z) (v : bool) : Grid :=
  if i <? 0 then slots
  else if (Z.to_nat i <? length slots)%nat then <[Z.to_nat i := v]> slots
  else slots ++ replicate (Z.to_nat i - length slots)%nat false ++ [v].

(** ** Data preparation ([useMemo] of [CalendarPlan]) *)

Record QueueEntry := mkEntry { project : Project; task : SubTask }.

Definition classify (p : Project)
    (acc : list QueueEntry * list QueueEntry) (t : SubTask)
    : list QueueEntry * list QueueEntry :=
  if bool_decide (status t = COMPLETED) then acc
  else if truthyZ (scheduledDate t)
       then (acc.1, acc.2 ++ [mkEntry p t])
       else (acc.1 ++ [mkEntry p t], acc.2).

(** The pair [(unscheduled, scheduled)]. *)
Definition dataPreparation (projects : list Project)
    : list QueueEntry * list QueueEntry :=
  fold_left
    (fun acc p => fold_left (classify p) (flattenTasks (proj_subtasks p)) acc)
    projects ([], []).

Definition unscheduledTasks (projects : list Project) : list QueueEntry :=
  (dataPreparation projects).1.

Definition scheduledTasks (projects : list Project) : list QueueEntry :=
  (dataPreparation projects).2.

Inductive CalendarViewMode := DAY | WEEK | MONTH.

Record Update := mkUpdate { projectId : string; taskId : string; date : Z }.

(** Outcome of a computation that may throw a [TypeError]. *)
Inductive Outcome (A : Type) := Threw | Returned (a : A).
Arguments Threw {A}.
Arguments Returned {A} a.

Definition msPerMinute : Z := 60000.
Definition msPerHour : Z := 3600000.
Definition msPerDay : Z := 86400000.

(** ** Dates in the zone of the host *)

(** The time zone of the host, as the two operations of the language on
    time values: [LocalTime] turns an instant into the local time value,
    [UTC] turns a local time value into an instant. A local time value that
    a clock change skips or repeats is resolved by the zone. *)
Record Zone := mkZone { LocalTime : Z → Z; UTC : Z → Z }.

(** A zone without clock changes, at a constant offset from UTC; a number
    stands for the zone at that offset. *)
Definition fixedOffset (tz : Z) : Zone :=
  mkZone (fun t => t + tz) (fun t => t - tz).

Coercion fixedOffset : Z >-> Zone.

Section ZoneDates.

Variable zone : Zone.

(** The calendar day of an instant in the zone, as a number of days since
    the epoch. *)
Definition localDay (ts : Z) : Z := LocalTime zone ts / msPerDay.

(** [getDay()]: 0 is Sunday; day 0 of the epoch was a Thursday. *)
Definition weekDay (ts : Z) : Z := (localDay ts + 4) mod 7.

(** [d.setDate(d.getDate() + n)]: the local time value moves by [n] whole
    days, its time within the day being kept, and the zone resolves it. *)
Definition setDateBy (ts n : Z) : Z :=
  UTC zone (LocalTime zone ts + n * msPerDay).

(** [d.setHours(0, 0, 0, 0)]: the zone resolves the start of the local
    day. *)
Definition setMidnight (ts : Z) : Z := UTC zone (localDay ts * msPerDay).

Definition getStartOfWeek (date : Z) : Z :=
  let day := weekDay date in
  setMidnight (setDateBy date (- day)).

Definition addDays (date days : Z) : Z := setDateBy date days.

(** Step 1 of [handleAutoSchedule]: the days of the run. *)
Definition daysToSchedule (viewMode : CalendarViewMode) (currentDate : Z)
    : list Z :=
  match viewMode with
  | DAY => [currentDate]
  | _ => map (fun i => addDays (getStartOfWeek currentDate) i) (seqZ 0 7)
  end.

End ZoneDates.

Section LocalTime.

(** Offset of local time from UTC, in milliseconds: the steps of the run
    after the first read dates in a zone of constant offset. *)
Variable tz : Z.

(** The calendar day of an instant; stands for [toDateString()] and for
    the triple compared by [isSameDay]. *)
Definition dayKey (ts : Z) : Z := (ts + tz) / msPerDay.

Definition getHours (ts : Z) : Z := ((ts + tz) mod msPerDay) / msPerHour.

Definition getMinutes (ts : Z) : Z :=
  (((ts + tz) mod msPerDay) mod msPerHour) / msPerMinute.

(** [getDay()]: 0 is Sunday; day 0 of the epoch was a Thursday. *)
Definition getDay (ts : Z) : Z := (dayKey ts + 4) mod 7.

(** [d.setHours(h, m, s, ms); d.getTime()]. *)
Definition setHours (ts h m s ms : Z) : Z :=
  dayKey ts * msPerDay + h * msPerHour + m * msPerMinute + s * 1000 + ms - tz.

(** [new Date(year, month, day)] for the calendar day [d]: local midnight. *)
Definition dateOfDay (d : Z) : Z := d * msPerDay - tz.

(** *** Auto-scheduler ([handleAutoSchedule]) *)

Definition START_HOUR : Z := 9.
Definition END_HOUR : Z := 17.

(** [new Array(24 * 60).fill(false)]. *)
Definition emptyDay : Grid := replicate (Z.to_nat (24 * 60)) false.

(** Step 4: one fresh grid per distinct day of the horizon. *)
Definition initOccupied (days : list Z) : gmap Z Grid :=
  fold_left
    (fun occupied day =>
       match occupied !! dayKey day with
       | Some _ => occupied
       | None => <[dayKey day := emptyDay]> occupied
       end)
    days ∅.

(** [for (let i = startMin; i < endMin && i < 24*60; i++) slots[i] = true].
    [fuel] bounds the number of iterations. *)
Fixpoint fillLoop (fuel : nat) (i endMin : Z) (slots : Grid) : Grid :=
  match fuel with
  | O => slots
  | S fuel' =>
      if (i <? endMin) && (i <? 24 * 60)
      then fillLoop fuel' (i + 1) endMin (jsSet slots i true)
      else slots
  end.

(** A day has 1440 minutes: the fill loop runs at most that often. *)
Definition fillFuel : nat := Z.to_nat (24 * 60).

Definition startMinOf (d : Z) : Z := getHours d * 60 + getMinutes d.

(** The indices the fill loop writes, in order. *)
Fixpoint fillWrites (fuel : nat) (i endMin : Z) : list Z :=
  match fuel with
  | O => []
  | S fuel' =>
      if (i <? endMin) && (i <? 24 * 60)
      then i :: fillWrites fuel' (i + 1) endMin
      else []
  end.

Definition fillOne (occupied : gmap Z Grid) (e : QueueEntry) : gmap Z Grid :=
  if negb (truthyZ (scheduledDate (task e))) then occupied
  else
    let d := default 0 (scheduledDate (task e)) in
    match occupied !! dayKey d with
    | Some slots =>
        let startMin := startMinOf d in
        let endMin := startMin + estimatedMinutes (task e) in
        <[dayKey d := fillLoop fillFuel startMin endMin slots]> occupied
    | None => occupied
    end.

Definition fillOccupied (scheduled : list QueueEntry) (occupied : gmap Z Grid)
    : gmap Z Grid :=
  fold_left fillOne scheduled occupied.

(** [Math.max(15, task.estimatedMinutes)]. *)
Definition durationOf (t : SubTask) : Z := Z.max 15 (estimatedMinutes t).

(** [for (let k = 0; k < duration; k++) if (slots[min + k]) ...]. *)
Definition isFree (slots : Grid) (min duration : Z) : bool :=
  forallb (fun k => negb (jsGet slots (min + k))) (seqZ 0 duration).

(** [for (let k = 0; k < duration; k++) slots[min + k] = true]. *)
Definition markOccupied (slots : Grid) (min duration : Z) : Grid :=
  fold_left (fun s k => jsSet s (min + k) true) (seqZ 0 duration) slots.

(** The loop over candidate minutes of one day,
    [for (min = START_HOUR*60; min <= END_HOUR*60 - duration; min += 15)].
    [slots] is [occupied.get(dayStr)!]: indexing it when it is [undefined]
    throws. The result is the first free start minute, if any. *)
Fixpoint scanLoop (fuel : nat) (slots : option Grid) (duration min : Z)
    : Outcome (option Z) :=
  match fuel with
  | O => Returned None
  | S fuel' =>
      if min <=? END_HOUR * 60 - duration then
        match slots with
        | None => Threw
        | Some s =>
            if isFree s min duration then Returned (Some min)
            else scanLoop fuel' slots duration (min + 15)
        end
      else Returned None
  end.

(** Candidates run over 09:00 .. 17:00: at most 33 of them. *)
Definition scanFuel : nat := 33.

Definition scanDay (slots : option Grid) (duration : Z) : Outcome (option Z) :=
  scanLoop scanFuel slots duration (START_HOUR * 60).

(** [for (const day of daysToSchedule)] for one task: the day and start
    minute of the first free slot. *)
Fixpoint findSlot (occupied : gmap Z Grid) (days : list Z) (duration : Z)
    : Outcome (option (Z * Z)) :=
  match days with
  | [] => Returned None
  | day :: rest =>
      match scanDay (occupied !! dayKey day) duration with
      | Threw => Threw
      | Returned (Some min) => Returned (Some (day, min))
      | Returned None => findSlot occupied rest duration
      end
  end.

(** The body of [queue.forEach]: state is the grid map and the list of
    updates pushed so far. *)
Definition placeTask (days : list Z) (st : gmap Z Grid * list Update)
    (e : QueueEntry) : Outcome (gmap Z Grid * list Update) :=
  let duration := durationOf (task e) in
  match findSlot st.1 days duration with
  | Threw => Threw
  | Returned None => Returned st
  | Returned (Some (day, min)) =>
      let scheduledTime := setHours day 0 min 0 0 in
      let slots := default [] (st.1 !! dayKey day) in
      Returned
        (<[dayKey day := markOccupied slots min duration]> st.1,
         st.2 ++ [mkUpdate (proj_id (project e)) (task_id (task e)) scheduledTime])
  end.

Fixpoint placeQueue (days : list Z) (st : gmap Z Grid * list Update)
    (queue : list QueueEntry) : Outcome (gmap Z Grid * list Update) :=
  match queue with
  | [] => Returned st
  | e :: rest =>
      match placeTask days st e with
      | Threw => Threw
      | Returned st' => placeQueue days st' rest
      end
  end.

(** Steps 3 to 5 of [handleAutoSchedule] for the horizon [days]: the final
    grid and the updates. *)
Definition autoSchedule (projects : list Project) (days : list Z)
    : Outcome (gmap Z Grid * list Update) :=
  placeQueue days
    (fillOccupied (scheduledTasks projects) (initOccupied days), [])
    (unscheduledTasks projects).

(** Step 6, the function passed to [setProjects]. *)
Definition findIndex (projectId : string) (ps : list Project) : option nat :=
  (fix go (l : list Project) (i : nat) : option nat :=
     match l with
     | [] => None
     | p :: r => if String.eqb (proj_id p) projectId then Some i else go r (S i)
     end) ps 0%nat.

Definition applyUpdate (newProjects : list Project) (upd : Update)
    : list Project :=
  match findIndex (projectId upd) newProjects with
  | Some projIndex =>
      match newProjects !! projIndex with
      | Some p =>
          <[projIndex :=
              withProjSubtasks p
                (bulkUpdateTaskInTree (proj_subtasks p) (taskId upd)
                   {| u_id := None; u_title := None; u_status := None;
                      u_estimatedMinutes := None; u_priority := None;
                      u_tags := None; u_actualMinutes := None;
                      u_scheduledDate := Some (Some (date upd));
                      u_deadline := None; u_priorityQuadrant := None;
                      u_subtasks := None |})]> newProjects
      | None => newProjects
      end
  | None => newProjects
  end.

Definition bulkApply (prevProjects : list Project) (updates : list Update)
    : list Project :=
  if (0 <? length updates)%nat then fold_left applyUpdate updates prevProjects
  else prevProjects.

(** [handleAutoSchedule]: the projects after the run. *)
Definition handleAutoSchedule (viewMode : CalendarViewMode) (currentDate : Z)
    (projects : list Project) : Outcome (list Project) :=
  match autoSchedule projects (daysToSchedule tz viewMode currentDate) with
  | Threw => Threw
  | Returned (_, updates) => Returned (bulkApply projects updates)
  end.

End LocalTime.

(** ** Interactive placement *)

Section DragAndDrop.

Variable tz : Z.

(** The payload read from the drag event: [None] stands for missing data
    and for data that [JSON.parse] rejects. *)
Definition handleDrop (projects : list Project) (data : option (string * string))
    (date : Z) (hour : option Z) : list Project :=
  match data with
  | None => projects
  | Some (projectId, taskId) =>
      let scheduledTime :=
        match hour with
        | Some h => setHours tz date h 0 0 0
        | None => date
        end in
      handleScheduleTask projects projectId taskId scheduledTime
  end.

(** The drop handlers of the hour grid and of the month grid. *)
Definition dropOnHourCell (projects : list Project)
    (data : option (string * string)) (day hour : Z) : list Project :=
  handleDrop projects data day (Some hour).

Definition dropOnMonthCell (projects : list Project)
    (data : option (string * string)) (d : Z) : list Project :=
  handleDrop projects data (dateOfDay tz d) None.

End DragAndDrop.

(** [{ scheduledDate: undefined }] and [{ estimatedMinutes: m }]. *)
Definition clearSchedule : PartialSubTask :=
  {| u_id := None; u_title := None; u_status := None;
     u_estimatedMinutes := None; u_priority := None; u_tags := None;
     u_actualMinutes := None; u_scheduledDate := Some None;
     u_deadline := None; u_priorityQuadrant := None; u_subtasks := None |}.

Definition setEstimate (m : Z) : PartialSubTask :=
  {| u_id := None; u_title := None; u_status := None;
     u_estimatedMinutes := Some m; u_priority := None; u_tags := None;
     u_actualMinutes := None; u_scheduledDate := None;
     u_deadline := None; u_priorityQuadrant := None; u_subtasks := None |}.

Definition handleUnscheduleDrop (projects : list Project)
    (data : option (string * string)) : list Project :=
  match data with
  | None => projects
  | Some (projectId, taskId) => handleUpdateTask projects projectId taskId clearSchedule
  end.

(** *** Resizing *)

Record ResizingTask := mkResizing {
  r_projectId : string;
  r_taskId : string;
  startY : Q;
  startHeight : Q
}.

Record ResizeState := mkResizeState {
  resizingTask : option ResizingTask;
  currentResizeHeight : option Q
}.

Definition idle : ResizeState := mkResizeState None None.

Definition handleResizeStart (st : ResizeState) (clientY : Q)
    (projectId taskId : string) (height : Q) : ResizeState :=
  {| resizingTask := Some (mkResizing projectId taskId clientY height);
     currentResizeHeight := currentResizeHeight st |}.

Definition handleMouseMove (st : ResizeState) (clientY : Q) : ResizeState :=
  match resizingTask st with
  | None => st
  | Some rt =>
      let delta := jsSub clientY (startY rt) in
      {| resizingTask := resizingTask st;
         currentResizeHeight := Some (Qmax 15 (jsAdd (startHeight rt) delta)) |}
  end.

(** [Math.max(15, Math.round(newMinutes / 15) * 15)] with
    [newMinutes = Math.round(currentResizeHeight)]. *)
Definition snappedMinutes (currentResizeHeight : Q) : Z :=
  let newMinutes := Math_round currentResizeHeight in
  Z.max 15 (Math_round (inject_Z newMinutes / 15) * 15).

(** [handleMouseUp]: the new state and the call of [onUpdateTask], if any. *)
Definition handleMouseUp (st : ResizeState)
    : ResizeState * option (string * string * PartialSubTask) :=
  match resizingTask st with
  | None => (st, None)
  | Some rt =>
      (idle,
       if truthyQ (currentResizeHeight st)
       then Some (r_projectId rt, r_taskId rt,
                  setEstimate (snappedMinutes (default 0%Q (currentResizeHeight st))))
       else None)
  end.

(** Height of a task block in [renderIntradayView]. *)
Definition durationHeight (st : ResizeState) (t : SubTask) : Q :=
  let isBeingResized :=
    match resizingTask st with
    | Some rt => String.eqb (r_taskId rt) (task_id t)
    | None => false
    end in
  if isBeingResized && truthyQ (currentResizeHeight st)
  then default 0%Q (currentResizeHeight st)
  else inject_Z (Z.max (estimatedMinutes t) 30).

(** [onMouseDown] of the resize handle of the block of task [t] of [p]. *)
Definition resizeHandleMouseDown (st : ResizeState) (clientY : Q)
    (p : Project) (t : SubTask) : ResizeState :=
  handleResizeStart st clientY (proj_id p) (task_id t) (durationHeight st t).

(** The calendar with its task store: mouse events of a resize drag. *)
Inductive MouseEvent :=
| MouseDownOnHandle (clientY : Q) (p : Project) (t : SubTask)
| MouseMove (clientY : Q)
| MouseUp.

Definition onMouseEvent (s : list Project * ResizeState) (ev : MouseEvent)
    : list Project * ResizeState :=
  match ev with
  | MouseDownOnHandle y p t => (s.1, resizeHandleMouseDown s.2 y p t)
  | MouseMove y => (s.1, handleMouseMove s.2 y)
  | MouseUp =>
      match handleMouseUp s.2 with
      | (st', Some (projectId, taskId, updates)) =>
          (handleUpdateTask s.1 projectId taskId updates, st')
      | (st', None) => (s.1, st')
      end
  end.

(** ** Planner list view (component [Planner]) *)

(** [recursiveUpdate] of Planner.tsx: as the one of the application root,
    except that a task without children is returned as it is. *)
Fixpoint plannerUpdateNode (targetId : string) (updater : SubTask → SubTask)
    (t : SubTask) : SubTask :=
  if String.eqb (task_id t) targetId then updater t
  else if (0 <? length (subtasks t))%nat
       then withSubtasks t (map (plannerUpdateNode targetId updater) (subtasks t))
       else t.

Definition plannerRecursiveUpdate (tasks : list SubTask) (targetId : string)
    (updater : SubTask → SubTask) : list SubTask :=
  map (plannerUpdateNode targetId updater) tasks.

(** [updateTask], as the function passed to [setProjects]. *)
Definition updateTask (prev : list Project) (projectId taskId : string)
    (updates : PartialSubTask) : list Project :=
  map (fun p =>
         if negb (String.eqb (proj_id p) projectId) then p
         else withProjSubtasks p
                (plannerRecursiveUpdate (proj_subtasks p) taskId
                   (fun t => spread t updates)))
      prev.

(** [{ status: s }]. *)
Definition setStatus (s : TaskStatus) : PartialSubTask :=
  {| u_id := None; u_title := None; u_status := Some s;
     u_estimatedMinutes := None; u_priority := None; u_tags := None;
     u_actualMinutes := None; u_scheduledDate := None;
     u_deadline := None; u_priorityQuadrant := None; u_subtasks := None |}.

Definition toggleStatus (prev : list Project) (projectId taskId : string)
    (currentStatus : TaskStatus) : list Project :=
  let newStatus :=
    if bool_decide (currentStatus = COMPLETED) then TODO else COMPLETED in
  updateTask prev projectId taskId (setStatus newStatus).

(** [deleteRecursive] of [deleteTask]:
    [tasks.filter(t => t.id !== taskId).map(t => ({ ...t, subtasks: ... }))]. *)
Fixpoint deleteBelow (taskId : string) (t : SubTask) : SubTask :=
  withSubtasks t
    ((fix go (l : list SubTask) : list SubTask :=
        match l with
        | [] => []
        | c :: r =>
            if negb (String.eqb (task_id c) taskId)
            then deleteBelow taskId c :: go r
            else go r
        end) (subtasks t)).

Definition deleteRecursive (taskId : string) (tasks : list SubTask) : list SubTask :=
  map (deleteBelow taskId)
    (List.filter (fun t => negb (String.eqb (task_id t) taskId)) tasks).

Definition deleteTask (prev : list Project) (projectId taskId : string)
    : list Project :=
  map (fun p =>
         if negb (String.eqb (proj_id p) projectId) then p
         else withProjSubtasks p (deleteRecursive taskId (proj_subtasks p)))
      prev.

(** The accumulators of [calculateProjectStats]. The fields [percent],
    [totalHours] and [completedHours] of its result are floating-point
    roundings of these and are left out. *)
Record Tally := mkTally {
  tally_total : nat;
  tally_completed : nat;
  tally_totalMinutes : Z;
  tally_completedMinutes : Z
}.

(** [x || 0] for a number. *)
Definition orZero (x : Z) : Z := if x =? 0 then 0 else x.

(** The body of [tasks.forEach] in [traverse]. *)
Fixpoint traverseStats (acc : Tally) (t : SubTask) : Tally :=
  let acc1 :=
    if (length (subtasks t) =? 0)%nat then
      let counted :=
        {| tally_total := S (tally_total acc);
           tally_completed := tally_completed acc;
           tally_totalMinutes := tally_totalMinutes acc + orZero (estimatedMinutes t);
           tally_completedMinutes := tally_completedMinutes acc |} in
      if bool_decide (status t = COMPLETED) then
        {| tally_total := tally_total counted;
           tally_completed := S (tally_completed counted);
           tally_totalMinutes := tally_totalMinutes counted;
           tally_completedMinutes :=
             tally_completedMinutes counted + orZero (estimatedMinutes t) |}
      else counted
    else acc in
  if (0 <? length (subtasks t))%nat
  then fold_left traverseStats (subtasks t) acc1
  else acc1.

Definition calculateProjectStats (tasks : list SubTask) : Tally :=
  fold_left traverseStats tasks (mkTally 0 0 0 0).

(** The sidebar counters ([counts]). *)
Record Counts := mkCounts {
  count_inbox : nat;
  count_today : nat;
  count_upcoming : nat
}.

Fixpoint countNode (startToday endToday : Z) (acc : Counts) (t : SubTask)
    : Counts :=
  if bool_decide (status t = COMPLETED) then acc
  else
    let acc1 :=
      if negb (truthyZ (scheduledDate t)) then
        mkCounts (S (count_inbox acc)) (count_today acc) (count_upcoming acc)
      else
        let d := default 0 (scheduledDate t) in
        if (startToday <=? d) && (d <? endToday) then
          mkCounts (count_inbox acc) (S (count_today acc)) (count_upcoming acc)
        else if endToday <=? d then
          mkCounts (count_inbox acc) (count_today acc) (S (count_upcoming acc))
        else acc in
    fold_left (countNode startToday endToday) (subtasks t) acc1.

(** The flattening of [filteredData]:
    [items.flatMap(i => [i, ...flatten(i.subtasks)])]. *)
Fixpoint flattenItem (t : SubTask) : list SubTask :=
  t :: flat_map flattenItem (subtasks t).

Definition allTasks (projects : list Project) : list QueueEntry :=
  flat_map
    (fun p => map (fun t => mkEntry p t) (flat_map flattenItem (proj_subtasks p)))
    projects.

(** [pOrder[priority || 'P4']]. *)
Definition pOrder (p : option Priority) : Z :=
  match p with
  | Some P1 => 1
  | Some P2 => 2
  | Some P3 => 3
  | Some P4 => 4
  | None => 4
  end.

(** The comparator of [tasks.sort]. *)
Definition compareTasks (a b : QueueEntry) : Z :=
  let pA := pOrder (priority (task a)) in
  let pB := pOrder (priority (task b)) in
  if negb (pA =? pB) then pA - pB
  else orZero (default 0 (scheduledDate (task a)))
       - orZero (default 0 (scheduledDate (task b))).

(** [Array.prototype.sort] is a stable sort: an element goes in front of the
    first later element that the comparator does not put before it. *)
Fixpoint insertSorted {A : Type} (cmp : A → A → Z) (x : A) (l : list A) : list A :=
  match l with
  | [] => [x]
  | y :: r => if cmp x y <=? 0 then x :: y :: r else y :: insertSorted cmp x r
  end.

Definition jsSort {A : Type} (cmp : A → A → Z) (l : list A) : list A :=
  fold_right (insertSorted cmp) [] l.

Section PlannerClock.

(** Offset of local time from UTC and the value of [new Date()]. *)
Variable tz : Z.
Variable now : Z.

Definition counts (projects : list Project) : Counts :=
  let startToday := setHours tz now 0 0 0 0 in
  let endToday := startToday + 86400000 in
  fold_left
    (fun acc p => fold_left (countNode startToday endToday) (proj_subtasks p) acc)
    projects (mkCounts 0 0 0).

(** The tasks of [filteredData] before they are sorted. *)
Definition filterTasks (activeFilter : string) (projects : list Project)
    : list QueueEntry :=
  if String.eqb activeFilter "INBOX" then
    List.filter
      (fun item => negb (truthyZ (scheduledDate (task item)))
                   && negb (bool_decide (status (task item) = COMPLETED)))
      (allTasks projects)
  else if String.eqb activeFilter "TODAY" then
    let today := setHours tz now 0 0 0 0 in
    let tomorrow := today + 86400000 in
    List.filter
      (fun item =>
         if bool_decide (status (task item) = COMPLETED) then false
         else if negb (truthyZ (scheduledDate (task item))) then false
         else (today <=? default 0 (scheduledDate (task item)))
              && (default 0 (scheduledDate (task item)) <? tomorrow))
      (allTasks projects)
  else if String.eqb activeFilter "UPCOMING" then
    let tomorrow := setHours tz now 0 0 0 0 + 86400000 in
    List.filter
      (fun item =>
         if bool_decide (status (task item) = COMPLETED) then false
         else truthyZ (scheduledDate (task item))
              && (tomorrow <=? default 0 (scheduledDate (task item))))
      (allTasks projects)
  else
    match List.find (fun p => String.eqb (proj_id p) activeFilter) projects with
    | Some _ =>
        List.filter (fun item => String.eqb (proj_id (project item)) activeFilter)
          (allTasks projects)
    | None => []
    end.

(** The [tasks] of [filteredData]. *)
Definition filteredData (activeFilter : string) (projects : list Project)
    : list QueueEntry :=
  jsSort compareTasks (filterTasks activeFilter projects).

End PlannerClock.

(** ** Focus sessions (application root and [FocusTimer]) *)

Record FocusSession := mkSession {
  session_id : string;
  session_projectId : string;
  session_subtaskId : option string;
  session_startTime : Z;
  session_endTime : option Z;
  session_durationMinutes : Z;
  session_actualDurationMinutes : Z;
  session_interruptionReason : option string;
  session_completed : bool
}.

Record TimerState := mkTimer {
  timer_isActive : bool;
  timer_startTime : option Z;
  timer_endTime : option Z;
  timer_duration : Z;
  timer_projectId : string;
  timer_subtaskId : option string
}.

Inductive ViewMode := PLANNER | CALENDAR | FOCUS | DASHBOARD.

(** The state of [App] that [handleSessionComplete] writes; [isPlaying] is
    the field of the audio state it resets. *)
Record AppState := mkApp {
  app_view : ViewMode;
  app_projects : list Project;
  app_history : list FocusSession;
  app_timer : TimerState;
  app_isPlaying : bool
}.

(** Truthiness of a string and of an optional string. *)
Definition truthyString (s : string) : bool := negb (String.eqb s "").

Definition truthyOptString (s : option string) : bool :=
  match s with
  | Some x => truthyString x
  | None => false
  end.

(** The updater of [handleSessionComplete]. *)
Definition recordSession (session : FocusSession) (t : SubTask) : SubTask :=
  {| task_id := task_id t; title := title t;
     status := if session_completed session then COMPLETED else status t;
     estimatedMinutes := estimatedMinutes t; priority := priority t;
     tags := tags t;
     actualMinutes :=
       Some (orZero (default 0 (actualMinutes t))
             + session_actualDurationMinutes session);
     scheduledDate := scheduledDate t; deadline := deadline t;
     priorityQuadrant := priorityQuadrant t; subtasks := subtasks t |}.

Definition handleSessionComplete (st : AppState) (session : FocusSession)
    : AppState :=
  {| app_view := DASHBOARD;
     app_projects :=
       if truthyString (session_projectId session)
          && truthyOptString (session_subtaskId session)
       then
         map (fun p =>
                if negb (String.eqb (proj_id p) (session_projectId session)) then p
                else withProjSubtasks p
                       (recursiveUpdate (proj_subtasks p)
                          (default "" (session_subtaskId session))
                          (recordSession session)))
             (app_projects st)
       else app_projects st;
     app_history := session :: app_history st;
     app_timer := mkTimer false None None (25 * 60) "general" None;
     app_isPlaying := false |}.

(** [handleFinish] of [FocusTimer]: the session handed to
    [onSessionComplete]. [now1] and [now2] are the two readings of
    [Date.now()], [newId] the fresh identifier. *)
Definition handleFinish (timerState : TimerState)
    (activeContextSubtask : option SubTask) (now1 now2 : Z) (newId : string)
    (completed : bool) (reason : option string) : FocusSession :=
  let startTime :=
    if truthyZ (timer_startTime timerState)
    then default 0 (timer_startTime timerState) else now1 in
  let endTime := now2 in
  let estimateMins :=
    match activeContextSubtask with
    | Some t => if 0 <? estimatedMinutes t then estimatedMinutes t else 25
    | None => 25
    end in
  let elapsedSeconds :=
    if completed then estimateMins * 60 else (endTime - startTime) / 1000 in
  {| session_id := newId;
     session_projectId := timer_projectId timerState;
     session_subtaskId := timer_subtaskId timerState;
     session_startTime := startTime;
     session_endTime := Some endTime;
     session_durationMinutes := estimateMins;
     session_actualDurationMinutes := Z.max 1 (elapsedSeconds / 60);
     session_interruptionReason := reason;
     session_completed := completed |}.

(** [Math.ceil(x / 1000)] for a whole number [x]. *)
Definition ceilDiv1000 (x : Z) : Z := - ((- x) / 1000).

(** [calculateInitialTimeLeft] of [FocusTimer], in seconds; [now] is the
    reading of [Date.now()]. The tick of the timer computes the same
    remaining time. *)
Definition calculateInitialTimeLeft (timerState : TimerState) (now : Z) : Z :=
  if timer_isActive timerState && truthyZ (timer_endTime timerState)
  then Z.max 0 (ceilDiv1000 (default 0 (timer_endTime timerState) - now))
  else timer_duration timerState.

(** [toggleTimer]: the timer state after a press on start or pause, with
    the local [timeLeft] and the task the user looks at. *)
Definition toggleTimer (timerState : TimerState) (timeLeft now : Z)
    (activeContextProject : Project) (activeContextSubtask : option SubTask)
    : TimerState :=
  if negb (timer_isActive timerState) then
    {| timer_isActive := true;
       timer_startTime :=
         Some (if truthyZ (timer_startTime timerState)
               then default 0 (timer_startTime timerState) else now);
       timer_endTime := Some (now + timeLeft * 1000);
       timer_duration := timer_duration timerState;
       timer_projectId := proj_id activeContextProject;
       timer_subtaskId := task_id <$> activeContextSubtask |}
  else
    {| timer_isActive := false;
       timer_startTime := timer_startTime timerState;
       timer_endTime := None;
       timer_duration := timeLeft;
       timer_projectId := timer_projectId timerState;
       timer_subtaskId := timer_subtaskId timerState |}.

(** The timer state after [handleStartFocus] (application root) and after
    [switchContext] ([FocusTimer]). *)
Definition handleStartFocus (timerState : TimerState) (project : Project)
    (subtask : option SubTask) : TimerState :=
  if negb (timer_isActive timerState) then
    {| timer_isActive := timer_isActive timerState;
       timer_startTime := timer_startTime timerState;
       timer_endTime := timer_endTime timerState;
       timer_duration :=
         match subtask with
         | Some t => estimatedMinutes t * 60
         | None => 25 * 60
         end;
       timer_projectId := proj_id project;
       timer_subtaskId := task_id <$> subtask |}
  else timerState.

Definition switchContext (timerState : TimerState) (project : Project)
    (task : option SubTask) : TimerState :=
  if timer_isActive timerState then timerState
  else
    let newDuration :=
      match task with
      | Some t => if 0 <? estimatedMinutes t then estimatedMinutes t * 60 else 25 * 60
      | None => 25 * 60
      end in
    {| timer_isActive := timer_isActive timerState;
       timer_startTime := None;
       timer_endTime := None;
       timer_duration := newDuration;
       timer_projectId := proj_id project;
       timer_subtaskId := task_id <$> task |}.

(** [getAllSessionsFromProject] (application root): [traverse] pushes a task,
    then goes through its children. *)
Fixpoint pushTasks (tasks : list SubTask) (t : SubTask) : list SubTask :=
  fold_left pushTasks (subtasks t) (tasks ++ [t]).

Definition getAllSessionsFromProject (p : Project) : list SubTask :=
  fold_left pushTasks (proj_subtasks p) [].

(** ** Tree helpers of the project wizard ([ProjectWizard]) *)

(** [deleteTaskInTree]:
    [tasks.filter(t => t.id !== targetId).map(t => ({ ...t, subtasks: ... }))]. *)
Fixpoint deleteInNode (targetId : string) (t : SubTask) : SubTask :=
  withSubtasks t
    ((fix go (l : list SubTask) : list SubTask :=
        match l with
        | [] => []
        | c :: r =>
            if negb (String.eqb (task_id c) targetId)
            then deleteInNode targetId c :: go r
            else go r
        end) (subtasks t)).

Definition deleteTaskInTree (tasks : list SubTask) (targetId : string)
    : list SubTask :=
  map (deleteInNode targetId)
    (List.filter (fun t => negb (String.eqb (task_id t) targetId)) tasks).

(** [addTaskToTree]: the new task becomes the last child of the task with
    the id [parentId]. *)
Fixpoint addTaskNode (parentId : string) (newTask : SubTask) (t : SubTask)
    : SubTask :=
  if String.eqb (task_id t) parentId
  then withSubtasks t (subtasks t ++ [newTask])
  else withSubtasks t (map (addTaskNode parentId newTask) (subtasks t)).

Definition addTaskToTree (tasks : list SubTask) (parentId : string)
    (newTask : SubTask) : list SubTask :=
  map (addTaskNode parentId newTask) tasks.

(** ** Vocabulary of the statements *)

(** Candidate start minutes of a task of the given duration: 09:00, 09:15,
    ... up to 17:00 minus the duration. *)
Definition Candidate (duration m : Z) : Prop :=
  540 ≤ m ≤ 1020 - duration ∧ (15 | m - 540).

(** Every minute of [[m, m + duration)] is free in the grid. *)
Definition FreeAt (slots : Grid) (m duration : Z) : Prop :=
  ∀ x, m ≤ x < m + duration → jsGet slots x = false.

Definition NoFitOn (slots : Grid) (duration : Z) : Prop :=
  ∀ m, Candidate duration m → ¬ FreeAt slots m duration.

Definition FirstFitOn (slots : Grid) (duration m : Z) : Prop :=
  Candidate duration m ∧ FreeAt slots m duration ∧
  ∀ m', Candidate duration m' → m' < m → ¬ FreeAt slots m' duration.

(** [[s1, s1 + l1)] and [[s2, s2 + l2)] share a minute. *)
Definition Intersects (s1 l1 s2 l2 : Z) : Prop :=
  ∃ x, s1 ≤ x < s1 + l1 ∧ s2 ≤ x < s2 + l2.

(** Tree pre-order. *)
Fixpoint preorderNode (t : SubTask) : list SubTask :=
  t :: flat_map preorderNode (subtasks t).

Definition preorder (tasks : list SubTask) : list SubTask :=
  flat_map preorderNode tasks.

Definition isUnscheduled (t : SubTask) : bool :=
  negb (bool_decide (status t = COMPLETED)) && negb (truthyZ (scheduledDate t)).

Definition isScheduled (t : SubTask) : bool :=
  negb (bool_decide (status t = COMPLETED)) && truthyZ (scheduledDate t).

Definition entryKey (e : QueueEntry) : string * string :=
  (proj_id (project e), task_id (task e)).

Definition updateKey (u : Update) : string * string := (projectId u, taskId u).

(** Framing of a batch of updates: identities stay, and a task whose key is
    not among [keys] keeps all of its own fields. *)
Definition NodeFrame (keys : list (string * string)) (pid : string)
    (t t' : SubTask) : Prop :=
  task_id t' = task_id t ∧ ((pid, task_id t) ∉ keys → ownFields t' = ownFields t).

Definition ProjFrame (keys : list (string * string)) (p p' : Project) : Prop :=
  proj_id p' = proj_id p ∧
  Forall2 (NodeFrame keys (proj_id p))
    (preorder (proj_subtasks p)) (preorder (proj_subtasks p')).

Definition Frame (keys : list (string * string)) (ps ps' : list Project) : Prop :=
  Forall2 (ProjFrame keys) ps ps'.

Section ScheduleVocabulary.

Variable tz : Z.

(** Day [j] of the horizon is the first with a fitting candidate, and [m]
    is the first fitting candidate of that day. *)
Definition FirstFit (occupied : gmap Z Grid) (days : list Z) (duration : Z)
    (j : nat) (m : Z) : Prop :=
  ∃ day slots,
    days !! j = Some day ∧ occupied !! dayKey tz day = Some slots ∧
    FirstFitOn slots duration m ∧
    ∀ j' day' slots',
      (j' < j)%nat → days !! j' = Some day' →
      occupied !! dayKey tz day' = Some slots' → NoFitOn slots' duration.

Definition NoFit (occupied : gmap Z Grid) (days : list Z) (duration : Z)
    : Prop :=
  ∀ day slots,
    day ∈ days → occupied !! dayKey tz day = Some slots →
    NoFitOn slots duration.

(** Every day of the horizon has a grid, and every grid has 1440 cells. *)
Definition Covers (occupied : gmap Z Grid) (days : list Z) : Prop :=
  ∀ day, day ∈ days → is_Some (occupied !! dayKey tz day).

Definition FullDays (occupied : gmap Z Grid) : Prop :=
  ∀ k slots, occupied !! k = Some slots → length slots = 1440%nat.

(** Task [t] is scheduled on day [k] and its interval, cut at midnight,
    contains minute [j]. *)
Definition Marks (t : SubTask) (k j : Z) : Prop :=
  ∃ d, scheduledDate t = Some d ∧ d ≠ 0 ∧ dayKey tz d = k ∧
       startMinOf tz d ≤ j < startMinOf tz d + estimatedMinutes t ∧ j < 1440.

(** A grid map only gains busy cells. *)
Definition Grows (occupied occupied' : gmap Z Grid) : Prop :=
  ∀ k slots, occupied !! k = Some slots →
    ∃ slots', occupied' !! k = Some slots' ∧
              ∀ j, jsGet slots j = true → jsGet slots' j = true.

(** The state of the placement loop when the task at position [i] of the
    queue is tried. *)
Definition stateBefore (projects : list Project) (days : list Z) (i : nat)
    : Outcome (gmap Z Grid * list Update) :=
  placeQueue tz days
    (fillOccupied tz (scheduledTasks projects) (initOccupied tz days), [])
    (take i (unscheduledTasks projects)).

(** The run places the task at position [i] of the queue, [e], and
    records the update [u] for it. *)
Definition PlacedAt (projects : list Project) (days : list Z) (i : nat)
    (e : QueueEntry) (u : Update) : Prop :=
  unscheduledTasks projects !! i = Some e ∧
  ∃ occupied updates occupied',
    stateBefore projects days i = Returned (occupied, updates) ∧
    stateBefore projects days (S i) = Returned (occupied', updates ++ [u]).

End ScheduleVocabulary.

(** The two readings of "no overlap" for one run. Among the tasks the run
    places, intervals last the effective duration of the placement; for the
    tasks scheduled beforehand the duration is given by [dur]. *)
Section OverlapVocabulary.

Variable tz : Z.

Definition NoOverlapAmongPlaced (projects : list Project) (days : list Z)
    : Prop :=
  ∀ i1 i2 e1 e2 u1 u2,
    i1 ≠ i2 →
    PlacedAt tz projects days i1 e1 u1 → PlacedAt tz projects days i2 e2 u2 →
    dayKey tz (date u1) = dayKey tz (date u2) →
    ¬ Intersects (startMinOf tz (date u1)) (durationOf (task e1))
                 (startMinOf tz (date u2)) (durationOf (task e2)).

Definition NoOverlapWithExisting (dur : SubTask → Z)
    (projects : list Project) (days : list Z) : Prop :=
  ∀ i e u e' d,
    PlacedAt tz projects days i e u →
    e' ∈ scheduledTasks projects → scheduledDate (task e') = Some d →
    dayKey tz d = dayKey tz (date u) →
    ¬ Intersects (startMinOf tz (date u)) (durationOf (task e))
                 (startMinOf tz d) (dur (task e')).

End OverlapVocabulary.

(** ** Sample data *)

Definition sampleTask (i : string) (st : TaskStatus) (est : Z) (sd : option Z)
    (subs : list SubTask) : SubTask :=
  mkSubTask i i st est None None None sd None None subs.

Definition sampleProject (i : string) (subs : list SubTask) : Project :=
  mkProject i i "" subs 0 IN_PROGRESS None [] None.

(** Minute [m] of day [d], in UTC. *)
Definition minuteAt (d m : Z) : Z := d * msPerDay + m * msPerMinute.

(** One task of 30 minutes at 09:00 of day 10 and a backlog task of 20. *)
Definition busyMorning : list Project :=
  [sampleProject "p"
     [sampleTask "E" TODO 30 (Some (minuteAt 10 540)) [];
      sampleTask "A" TODO 20 None []]].

(** A stage of duration 0 scheduled at 09:00 of day 10, and a backlog task
    of 15 minutes. *)
Definition stageAtNine : list Project :=
  [sampleProject "p"
     [sampleTask "D" TODO 0 (Some (minuteAt 10 540)) [];
      sampleTask "X" TODO 15 None []]].

Definition noonOfDay10 : Z := minuteAt 10 720.

(** A completed task of 30 minutes at 09:00 of day 10 and a backlog task of
    30 minutes. *)
Definition completedAtNine : list Project :=
  [sampleProject "p"
     [sampleTask "C" COMPLETED 30 (Some (minuteAt 10 540)) [];
      sampleTask "N" TODO 30 None []]].

(** Day 10 booked from 09:00 to 17:00, and a backlog task of 30 minutes. *)
Definition fullyBooked : list Project :=
  [sampleProject "p"
     [sampleTask "E" TODO 480 (Some (minuteAt 10 540)) [];
      sampleTask "B" TODO 30 None []]].

Definition entryB : QueueEntry :=
  mkEntry (sampleProject "p"
             [sampleTask "E" TODO 480 (Some (minuteAt 10 540)) [];
              sampleTask "B" TODO 30 None []])
          (sampleTask "B" TODO 30 None []).

Definition bookedGrid : gmap Z Grid :=
  fillOccupied 0 (scheduledTasks fullyBooked) (initOccupied 0 [noonOfDay10]).

(** A backlog stage of duration 0 followed by a backlog task of 15. *)
Definition stageInBacklog : list Project :=
  [sampleProject "p"
     [sampleTask "S" TODO 0 None [sampleTask "T" TODO 15 None []]]].

(** A task of two hours at 23:00 of day 10. *)
Definition lateEvening : list Project :=
  [sampleProject "p" [sampleTask "L" TODO 120 (Some (minuteAt 10 1380)) []]].

Definition entryA : QueueEntry :=
  mkEntry (sampleProject "p"
             [sampleTask "E" TODO 30 (Some (minuteAt 10 540)) [];
              sampleTask "A" TODO 20 None []])
          (sampleTask "A" TODO 20 None []).

(** The shape common to [handleScheduleTask] and [handleUpdateTask]: the
    updater is applied in every project that carries the id. *)
Definition updateIn (ps : list Project) (projectId taskId : string)
    (f : SubTask → SubTask) : list Project :=
  map (fun p =>
         if negb (String.eqb (proj_id p) projectId) then p
         else withProjSubtasks p (recursiveUpdate (proj_subtasks p) taskId f))
      ps.

(** No task of a project with id [projectId] has the id [taskId]. *)
Definition Absent (ps : list Project) (projectId taskId : string) : Prop :=
  ∀ p t, p ∈ ps → proj_id p = projectId →
         t ∈ preorder (proj_subtasks p) → task_id t ≠ taskId.

(** Every task that a payload [(projectId, taskId)] can refer to is in the
    backlog. *)
Definition TargetUnscheduled (ps : list Project) (projectId taskId : string) : Prop :=
  ∀ p t, p ∈ ps → proj_id p = projectId →
         t ∈ preorder (proj_subtasks p) → task_id t = taskId →
         scheduledDate t = None.

(** Every task that a payload [(projectId, taskId)] can refer to has the
    status [s]. *)
Definition TargetStatus (ps : list Project) (projectId taskId : string)
    (s : TaskStatus) : Prop :=
  ∀ p t, p ∈ ps → proj_id p = projectId →
         t ∈ preorder (proj_subtasks p) → task_id t = taskId → status t = s.

(** A store of one project with a finished and an open task. *)
Definition twoStatuses : list Project :=
  [sampleProject "p"
     [sampleTask "D" COMPLETED 30 None []; sampleTask "O" IN_PROGRESS 20 None []]].

(** The tasks of a tree that have no task with the id [taskId] at or above
    them, in pre-order. *)
Fixpoint keepNode (taskId : string) (t : SubTask) : list SubTask :=
  if String.eqb (task_id t) taskId then []
  else t :: flat_map (keepNode taskId) (subtasks t).

(** A stage with two children, one of which has a child of its own. *)
Definition nestedStage : list Project :=
  [sampleProject "p"
     [sampleTask "S" TODO 0 None
        [sampleTask "X" TODO 30 None [sampleTask "Y" TODO 10 None []];
         sampleTask "K" TODO 20 None []]]].

(** Leaves, finished tasks, and the sum of the estimates of a list. *)
Definition isLeaf (t : SubTask) : bool := (length (subtasks t) =? 0)%nat.

Definition isCompleted (t : SubTask) : bool := bool_decide (status t = COMPLETED).

Definition sumEstimates (l : list SubTask) : Z :=
  foldr Z.add 0 (estimatedMinutes <$> l).

Definition leaves (tasks : list SubTask) : list SubTask :=
  List.filter isLeaf (preorder tasks).

(** The tally of the leaves of a plain list of tasks, added to [acc]. *)
Definition addTally (acc : Tally) (l : list SubTask) : Tally :=
  let lv := List.filter isLeaf l in
  {| tally_total := tally_total acc + length lv;
     tally_completed := tally_completed acc + length (List.filter isCompleted lv);
     tally_totalMinutes := tally_totalMinutes acc + sumEstimates lv;
     tally_completedMinutes :=
       tally_completedMinutes acc + sumEstimates (List.filter isCompleted lv) |}.

(** The tasks of a tree that are reached without passing through a finished
    task, in pre-order (a finished task is not reached either). *)
Fixpoint activeNode (t : SubTask) : list SubTask :=
  if bool_decide (status t = COMPLETED) then []
  else t :: flat_map activeNode (subtasks t).

Definition activeTasks (projects : list Project) : list SubTask :=
  flat_map (fun p => flat_map activeNode (proj_subtasks p)) projects.

(** The three smart lists, as conditions on a task that is not finished;
    [today] is the local midnight that starts the current day. *)
Definition inInbox (t : SubTask) : bool := negb (truthyZ (scheduledDate t)).

Definition inToday (today : Z) (t : SubTask) : bool :=
  truthyZ (scheduledDate t)
  && ((today <=? default 0 (scheduledDate t))
      && (default 0 (scheduledDate t) <? today + 86400000)).

Definition inUpcoming (today : Z) (t : SubTask) : bool :=
  truthyZ (scheduledDate t) && (today + 86400000 <=? default 0 (scheduledDate t)).

Definition addCounts (today : Z) (acc : Counts) (l : list SubTask) : Counts :=
  {| count_inbox := count_inbox acc + length (List.filter inInbox l);
     count_today := count_today acc + length (List.filter (inToday today) l);
     count_upcoming := count_upcoming acc + length (List.filter (inUpcoming today) l) |}.

(** No finished task has children. *)
Definition FinishedAreLeaves (projects : list Project) : Prop :=
  ∀ p t, p ∈ projects → t ∈ preorder (proj_subtasks p) →
         status t = COMPLETED → subtasks t = [].

(** A finished stage with an open child in the backlog. *)
Definition finishedStage : list Project :=
  [sampleProject "p"
     [sampleTask "S" COMPLETED 0 None [sampleTask "T" TODO 15 None []]]].

(** The rank the list view sorts by: the order of the priority, then the
    scheduled instant, with 0 for a task that has none. *)
Definition rankOf (e : QueueEntry) : Z * Z :=
  (pOrder (priority (task e)), default 0 (scheduledDate (task e))).

Definition rankBefore (a b : QueueEntry) : Prop :=
  (rankOf a).1 < (rankOf b).1 ∨
  ((rankOf a).1 = (rankOf b).1 ∧ (rankOf a).2 ≤ (rankOf b).2).

Definition sameRank (a b : QueueEntry) : bool :=
  ((rankOf a).1 =? (rankOf b).1) && ((rankOf a).2 =? (rankOf b).2).

(** Every element is related to every element after it. *)
Fixpoint sortedBy {A : Type} (R : A → A → Prop) (l : list A) : Prop :=
  match l with
  | [] => True
  | x :: r => Forall (R x) r ∧ sortedBy R r
  end.

(** A timer that has never run, and a session of 12 minutes on task "A" of
    project "p" that was given up. *)
Definition freshTimer : TimerState := mkTimer false None None (25 * 60) "general" None.

Definition givenUp : FocusSession :=
  mkSession "s1" "p" (Some "A") 1000 (Some 721000) 20 12 (Some "break") false.

Definition appAt (projects : list Project) : AppState :=
  mkApp FOCUS projects [] freshTimer true.

(** The busy minutes of a grid between 09:00 and 17:00. *)
Definition busyMinutes (slots : Grid) : Z :=
  Z.of_nat (length (List.filter (jsGet slots) (seqZ 540 480))).

(** The effective duration of the task at position [i] of the queue. *)
Definition queueDuration (projects : list Project) (i : nat) : Z :=
  from_option (fun e => durationOf (task e)) 0 (unscheduledTasks projects !! i).

(** The run places the task at position [i] of the queue on the day with
    the key [k]. *)
Definition PlacedOn (tz : Z) (projects : list Project) (days : list Z)
    (k : Z) (i : nat) : Prop :=
  ∃ e u, PlacedAt tz projects days i e u ∧ dayKey tz (date u) = k.

Definition sumZ (l : list Z) : Z := foldr Z.add 0 l.

(** Project ids are pairwise distinct, and so are the task ids within each
    project. *)
Definition UniqueIds (projects : list Project) : Prop :=
  NoDup (proj_id <$> projects) ∧
  ∀ p, p ∈ projects → NoDup (task_id <$> preorder (proj_subtasks p)).

(** Resolving a local time value never changes its calendar day: true of
    a zone of constant offset and of a zone whose clock changes skip or
    repeat part of a day. *)
Definition KeepsDay (zone : Zone) : Prop :=
  ∀ x, LocalTime zone (UTC zone x) / msPerDay = x / msPerDay.

(** A zone two hours ahead of UTC that moves to three hours ahead at local
    midnight of day 19839 (Friday 26 April 2024): the local times from 00:00
    to 01:00 of that day are skipped and resolved with the offset of
    before. *)
Definition springForward : Zone :=
  mkZone (fun t => if t <? 1714082400000 then t + 7200000 else t + 10800000)
         (fun x => if x <? 1714093200000 then x - 7200000 else x - 10800000).

(** Wednesday 24 April 2024, 12:00 UTC. *)
Definition wednesdayNoon : Z := 1713960000000.

(** * Properties *)

(** ** Local time *)

Section LocalTimeFacts.

Variable tz : Z.

Lemma startMinOf_eq (d : Z) :
  startMinOf tz d = ((d + tz) mod msPerDay) / msPerMinute.
Proof.
  unfold startMinOf, getHours, getMinutes, msPerDay, msPerHour, msPerMinute.
  set (r := (d + tz) mod 86400000).
  pose proof (Z.div_mod r 3600000 ltac:(lia)) as Hr.
  pose proof (Z.mod_pos_bound r 3600000 ltac:(lia)) as Hb.
  set (q := r / 3600000) in *. set (x := r mod 3600000) in *.
  replace r with (x + q * 60 * 60000) by lia.
  rewrite Z.div_add by lia. lia.
Qed.

Lemma startMinOf_range (d : Z) : 0 ≤ startMinOf tz d < 1440.
Proof.
  rewrite startMinOf_eq. unfold msPerDay, msPerMinute.
  pose proof (Z.mod_pos_bound (d + tz) 86400000 ltac:(lia)) as Hb.
  split.
  - apply Z.div_pos; lia.
  - apply Z.div_lt_upper_bound; lia.
Qed.

(** Setting a time of day that stays within the day keeps the calendar
    day and yields that minute of the day. *)
Lemma dayKey_setHours (ts h m s ms : Z) :
  0 ≤ h * msPerHour + m * msPerMinute + s * 1000 + ms < msPerDay →
  dayKey tz (setHours tz ts h m s ms) = dayKey tz ts.
Proof.
  intros Hr. unfold setHours. generalize (dayKey tz ts). intros k.
  unfold dayKey.
  replace (k * msPerDay + h * msPerHour + m * msPerMinute + s * 1000 + ms - tz + tz)
    with ((h * msPerHour + m * msPerMinute + s * 1000 + ms) + k * msPerDay) by lia.
  rewrite Z.div_add by (unfold msPerDay; lia).
  rewrite Z.div_small by lia. lia.
Qed.

Lemma startMinOf_setHours (ts m : Z) :
  0 ≤ m < 1440 → startMinOf tz (setHours tz ts 0 m 0 0) = m.
Proof.
  intros Hm. rewrite startMinOf_eq. unfold setHours.
  generalize (dayKey tz ts). intros k.
  replace (k * msPerDay + 0 * msPerHour + m * msPerMinute + 0 * 1000 + 0 - tz + tz)
    with (m * msPerMinute + k * msPerDay) by lia.
  rewrite Z_mod_plus_full. unfold msPerDay, msPerMinute.
  rewrite Z.mod_small by lia. apply Z.div_mul. lia.
Qed.

Lemma startMinOf_hour (ts h : Z) :
  0 ≤ h < 24 → startMinOf tz (setHours tz ts h 0 0 0) = h * 60.
Proof.
  intros Hh. rewrite startMinOf_eq. unfold setHours.
  generalize (dayKey tz ts). intros k.
  replace (k * msPerDay + h * msPerHour + 0 * msPerMinute + 0 * 1000 + 0 - tz + tz)
    with (h * msPerHour + k * msPerDay) by lia.
  rewrite Z_mod_plus_full. unfold msPerDay, msPerHour, msPerMinute.
  rewrite Z.mod_small by lia.
  replace (h * 3600000) with (h * 60 * 60000) by lia. apply Z.div_mul. lia.
Qed.

Lemma dayKey_dateOfDay (d : Z) : dayKey tz (dateOfDay tz d) = d.
Proof.
  unfold dayKey, dateOfDay. replace (d * msPerDay - tz + tz) with (d * msPerDay) by lia.
  apply Z.div_mul. unfold msPerDay. lia.
Qed.

Lemma startMinOf_dateOfDay (d : Z) : startMinOf tz (dateOfDay tz d) = 0.
Proof.
  rewrite startMinOf_eq. unfold dateOfDay.
  replace (d * msPerDay - tz + tz) with (d * msPerDay) by lia.
  rewrite Z_mod_mult. reflexivity.
Qed.

(** The local wall-clock reading of [dateOfDay] is midnight sharp. *)
Lemma dateOfDay_midnight (d : Z) : (dateOfDay tz d + tz) mod msPerDay = 0.
Proof.
  unfold dateOfDay. replace (d * msPerDay - tz + tz) with (d * msPerDay) by lia.
  apply Z_mod_mult.
Qed.

End LocalTimeFacts.

(** ** Arrays of cells *)

Lemma jsGet_lookup (s : Grid) (i : Z) :
  0 ≤ i → jsGet s i = default false (s !! Z.to_nat i).
Proof. intros Hi. unfold jsGet. destruct (Z.ltb_spec i 0); [lia | done]. Qed.

Lemma jsGet_negative (s : Grid) (i : Z) : i < 0 → jsGet s i = false.
Proof. intros Hi. unfold jsGet. destruct (Z.ltb_spec i 0); [done | lia]. Qed.

Lemma jsGet_past_end (s : Grid) (i : Z) :
  Z.of_nat (length s) ≤ i → jsGet s i = false.
Proof.
  intros Hi. rewrite jsGet_lookup by lia.
  rewrite lookup_ge_None_2; [done | lia].
Qed.

Lemma jsSet_in_range (s : Grid) (i : Z) (v : bool) :
  0 ≤ i < Z.of_nat (length s) → jsSet s i v = <[Z.to_nat i := v]> s.
Proof.
  intros Hi. unfold jsSet. destruct (Z.ltb_spec i 0); [lia |].
  destruct (Nat.ltb_spec (Z.to_nat i) (length s)); [done | lia].
Qed.

Lemma jsSet_length (s : Grid) (i : Z) (v : bool) :
  0 ≤ i < Z.of_nat (length s) → length (jsSet s i v) = length s.
Proof. intros Hi. rewrite jsSet_in_range by done. apply length_insert. Qed.

(** A write past the end does extend the array. *)
Lemma jsSet_extends (s : Grid) (i : Z) (v : bool) :
  Z.of_nat (length s) ≤ i → length (jsSet s i v) = S (Z.to_nat i).
Proof.
  intros Hi. unfold jsSet. destruct (Z.ltb_spec i 0); [lia |].
  destruct (Nat.ltb_spec (Z.to_nat i) (length s)); [lia |].
  rewrite !length_app, length_replicate. simpl. lia.
Qed.

Lemma jsGet_jsSet (s : Grid) (i j : Z) (v : bool) :
  0 ≤ i < Z.of_nat (length s) →
  jsGet (jsSet s i v) j = if decide (j = i) then v else jsGet s j.
Proof.
  intros Hi. rewrite jsSet_in_range by done.
  destruct (decide (j = i)) as [->|Hne].
  - rewrite jsGet_lookup by lia.
    rewrite list_lookup_insert_eq by lia. done.
  - destruct (Z.ltb_spec j 0) as [Hj|Hj].
    + by rewrite !jsGet_negative.
    + rewrite !jsGet_lookup by done.
      rewrite list_lookup_insert_ne by lia. done.
Qed.

Lemma length_emptyDay : length emptyDay = 1440%nat.
Proof. unfold emptyDay. rewrite length_replicate. reflexivity. Qed.

Lemma jsGet_emptyDay (j : Z) : jsGet emptyDay j = false.
Proof.
  destruct (Z.ltb_spec j 0) as [Hj|Hj]; [by apply jsGet_negative |].
  rewrite jsGet_lookup by done. unfold emptyDay.
  destruct (replicate (Z.to_nat (24 * 60)) false !! Z.to_nat j) as [b|] eqn:Hb; [|done].
  apply lookup_replicate in Hb as [-> _]. done.
Qed.

(** The cells a consecutive run of writes sets. *)
Lemma markOccupied_spec (s : Grid) (min duration : Z) :
  0 ≤ min → min + duration ≤ Z.of_nat (length s) →
  length (markOccupied s min duration) = length s ∧
  ∀ j, jsGet (markOccupied s min duration) j
       = jsGet s j || bool_decide (min ≤ j < min + duration).
Proof.
  intros Hmin Hlen. unfold markOccupied.
  destruct (Z.le_gt_cases duration 0) as [Hd|Hd].
  { rewrite seqZ_nil by lia. simpl. split; [done|]. intros j.
    rewrite bool_decide_eq_false_2 by lia. by rewrite orb_false_r. }
  assert (Hn : duration = Z.of_nat (Z.to_nat duration)) by lia.
  revert Hn Hlen. generalize (Z.to_nat duration). intros n ->. clear Hd.
  unfold seqZ. rewrite Nat2Z.id.
  induction n as [|n IH]; intros Hlen.
  - simpl. split; [done|]. intros j.
    rewrite bool_decide_eq_false_2 by lia. by rewrite orb_false_r.
  - rewrite seq_S, fmap_app, fold_left_app. simpl.
    destruct IH as [IHl IHg]; [lia|].
    split.
    + rewrite jsSet_length; [done | lia].
    + intros j. rewrite jsGet_jsSet by lia. rewrite IHg.
      destruct (decide (j = min + (Z.of_nat n + 0))) as [->|Hne].
      * rewrite (bool_decide_eq_true_2 (_ ≤ _ < min + Z.of_nat (S n))) by lia.
        by rewrite orb_true_r.
      * f_equal. apply bool_decide_ext. lia.
Qed.

Lemma isFree_spec (s : Grid) (min duration : Z) :
  isFree s min duration = true ↔
  ∀ x, min ≤ x < min + duration → jsGet s x = false.
Proof.
  unfold isFree. rewrite forallb_forall. split.
  - intros H x Hx. specialize (H (x - min)).
    replace (min + (x - min)) with x in H by lia.
    apply negb_true_iff, H. apply list_elem_of_In, elem_of_seqZ. lia.
  - intros H k Hk. apply list_elem_of_In, elem_of_seqZ in Hk.
    apply negb_true_iff, H. lia.
Qed.

(** The fill loop with enough fuel: the cells [i .. min(endMin, 1440) - 1]
    are set and nothing else; the array keeps its 1440 cells. *)
Lemma fillLoop_spec (fuel : nat) (i endMin : Z) (s : Grid) :
  0 ≤ i → length s = 1440%nat → (1440 - i ≤ Z.of_nat fuel) →
  length (fillLoop fuel i endMin s) = 1440%nat ∧
  ∀ j, jsGet (fillLoop fuel i endMin s) j
       = jsGet s j || bool_decide (i ≤ j < endMin ∧ j < 1440).
Proof.
  revert i s. induction fuel as [|fuel IH]; intros i s Hi Hlen Hfuel.
  - simpl. split; [assumption|]. intros j.
    rewrite bool_decide_eq_false_2 by lia. rewrite orb_false_r; reflexivity.
  - cbn [fillLoop]. destruct (Z.ltb_spec i endMin) as [H1|H1]; cbn [andb].
    2:{ split; [assumption|]. intros j.
        rewrite bool_decide_eq_false_2 by lia. rewrite orb_false_r; reflexivity. }
    change (24 * 60) with 1440. destruct (Z.ltb_spec i 1440) as [H2|H2].
    2:{ split; [assumption|]. intros j.
        rewrite bool_decide_eq_false_2 by lia. rewrite orb_false_r; reflexivity. }
    destruct (IH (i + 1) (jsSet s i true)) as [IHl IHg]; [lia | | lia |].
    { rewrite jsSet_length; [done | lia]. }
    split; [assumption|]. intros j. rewrite IHg, jsGet_jsSet by lia.
    destruct (decide (j = i)) as [->|Hne].
    + rewrite (bool_decide_eq_true_2 (i ≤ i < endMin ∧ i < 1440)) by lia.
      by rewrite orb_true_r.
    + f_equal. apply bool_decide_ext. lia.
Qed.

(** More fuel than the 1440 iterations a day allows changes nothing. *)
Lemma fillLoop_fuel (fuel : nat) (i endMin : Z) (s : Grid) :
  0 ≤ i → (1440 - i ≤ Z.of_nat fuel) →
  fillLoop (S fuel) i endMin s = fillLoop fuel i endMin s.
Proof.
  revert i s. induction fuel as [|fuel IH]; intros i s Hi Hfuel.
  - simpl. destruct (Z.ltb_spec i endMin); simpl; [|done].
    change (24 * 60) with 1440. destruct (Z.ltb_spec i 1440); [lia | done].
  - change (fillLoop (S (S fuel)) i endMin s) with
      (if (i <? endMin) && (i <? 24 * 60)
       then fillLoop (S fuel) (i + 1) endMin (jsSet s i true) else s).
    change (fillLoop (S fuel) i endMin s) with
      (if (i <? endMin) && (i <? 24 * 60)
       then fillLoop fuel (i + 1) endMin (jsSet s i true) else s).
    destruct ((i <? endMin) && (i <? 24 * 60)); [|done].
    apply IH; lia.
Qed.

Lemma fillLoop_fuel_enough (k : nat) (i endMin : Z) (s : Grid) :
  0 ≤ i →
  fillLoop (k + fillFuel) i endMin s = fillLoop fillFuel i endMin s.
Proof.
  intros Hi. induction k as [|k IH]; [done|].
  cbn [Nat.add]. rewrite fillLoop_fuel; [exact IH | done |].
  assert (Z.of_nat fillFuel = 1440) by reflexivity. lia.
Qed.

Lemma fillLoop_writes (fuel : nat) (i endMin : Z) (s : Grid) :
  fillLoop fuel i endMin s
  = fold_left (fun g x => jsSet g x true) (fillWrites fuel i endMin) s.
Proof.
  revert i s. induction fuel as [|fuel IH]; intros i s; [done|].
  cbn [fillLoop fillWrites].
  destruct ((i <? endMin) && (i <? 24 * 60)); [|done].
  cbn [fold_left]. apply IH.
Qed.

(** ** Scanning one day *)

Lemma scanLoop_spec (fuel : nat) (s : Grid) (duration min : Z) :
  1020 - duration - min < 15 * Z.of_nat fuel →
  match scanLoop fuel (Some s) duration min with
  | Threw => False
  | Returned (Some m) =>
      min ≤ m ≤ 1020 - duration ∧ (15 | m - min) ∧ FreeAt s m duration ∧
      ∀ m', min ≤ m' < m → (15 | m' - min) → ¬ FreeAt s m' duration
  | Returned None =>
      ∀ m', min ≤ m' ≤ 1020 - duration → (15 | m' - min) →
            ¬ FreeAt s m' duration
  end.
Proof.
  revert min. induction fuel as [|fuel IH]; intros min Hfuel.
  - simpl. intros m' Hm' _. lia.
  - cbn [scanLoop]. change (END_HOUR * 60) with 1020.
    destruct (Z.leb_spec min (1020 - duration)) as [Hg|Hg].
    2:{ intros m' Hm' _. lia. }
    destruct (isFree s min duration) eqn:Hfree.
    + pose proof (proj1 (isFree_spec s min duration) Hfree) as Hfree'.
      clear Hfree. rename Hfree' into Hfree.
      split; [lia|]. split; [exists 0; lia|]. split; [exact Hfree|].
      intros m' Hm' _. lia.
    + assert (Hnf : ¬ FreeAt s min duration).
      { intros Hf. pose proof (proj2 (isFree_spec s min duration) Hf). congruence. }
      specialize (IH (min + 15) ltac:(lia)).
      destruct (scanLoop fuel (Some s) duration (min + 15)) as [|[m|]]; [done | |].
      * destruct IH as (Hr & [z Hz] & Hf & Hleast).
        split; [lia|]. split; [exists (z + 1); lia|]. split; [exact Hf|].
        intros m' Hm' [z' Hz'].
        destruct (decide (m' = min)) as [->|Hne]; [done|].
        apply Hleast; [lia|]. exists (z' - 1). lia.
      * intros m' Hm' [z' Hz'].
        destruct (decide (m' = min)) as [->|Hne]; [done|].
        apply IH; [lia|]. exists (z' - 1). lia.
Qed.

(** The 33 iterations allowed to [scanLoop] are never exhausted: the loop
    guard fails first, whatever the grid. *)
Lemma scanLoop_fuel (fuel : nat) (slots : option Grid) (duration min : Z) :
  1020 - duration - min < 15 * Z.of_nat fuel →
  scanLoop (S fuel) slots duration min = scanLoop fuel slots duration min.
Proof.
  revert min. induction fuel as [|fuel IH]; intros min Hfuel.
  - cbn [scanLoop]. change (END_HOUR * 60) with 1020.
    destruct (Z.leb_spec min (1020 - duration)); [lia | done].
  - change (scanLoop (S (S fuel)) slots duration min) with
      (if min <=? END_HOUR * 60 - duration then
         match slots with
         | None => Threw
         | Some s => if isFree s min duration then Returned (Some min)
                     else scanLoop (S fuel) slots duration (min + 15)
         end
       else Returned None).
    change (scanLoop (S fuel) slots duration min) with
      (if min <=? END_HOUR * 60 - duration then
         match slots with
         | None => Threw
         | Some s => if isFree s min duration then Returned (Some min)
                     else scanLoop fuel slots duration (min + 15)
         end
       else Returned None).
    destruct (min <=? END_HOUR * 60 - duration); [|done].
    destruct slots as [s|]; [|done].
    destruct (isFree s min duration); [done|].
    apply IH. lia.
Qed.

Lemma scanDay_fuel_enough (k : nat) (slots : option Grid) (duration : Z) :
  -15 < duration →
  scanLoop (k + scanFuel) slots duration (START_HOUR * 60) = scanDay slots duration.
Proof.
  intros Hd. unfold scanDay. induction k as [|k IH]; [done|].
  cbn [Nat.add]. rewrite scanLoop_fuel; [exact IH|].
  change (START_HOUR * 60) with 540. unfold scanFuel. lia.
Qed.

Lemma scanDay_spec (s : Grid) (duration : Z) :
  -15 < duration →
  match scanDay (Some s) duration with
  | Threw => False
  | Returned (Some m) => FirstFitOn s duration m
  | Returned None => NoFitOn s duration
  end.
Proof.
  intros Hd. unfold scanDay, scanFuel. change (START_HOUR * 60) with 540.
  pose proof (scanLoop_spec 33 s duration 540 ltac:(lia)) as H.
  destruct (scanLoop 33 (Some s) duration 540) as [|[m|]]; [done | |].
  - destruct H as (Hr & Hdiv & Hf & Hleast).
    split; [|split]; [by split | done |].
    intros m' [Hr' Hdiv'] Hlt. apply Hleast; [lia | done].
  - intros m' [Hr' Hdiv']. by apply H.
Qed.

Section PlacementFacts.

Variable tz : Z.

Lemma findSlot_spec (occupied : gmap Z Grid) (days : list Z) (duration : Z) :
  -15 < duration → Covers tz occupied days →
  match findSlot tz occupied days duration with
  | Threw => False
  | Returned (Some (day, m)) =>
      ∃ j, days !! j = Some day ∧ FirstFit tz occupied days duration j m
  | Returned None => NoFit tz occupied days duration
  end.
Proof.
  intros Hd. induction days as [|day rest IH]; intros Hcov.
  - simpl. intros day slots Hin. by apply elem_of_nil in Hin.
  - cbn [findSlot].
    destruct (Hcov day) as [s Hs]; [by left|]. rewrite Hs.
    pose proof (scanDay_spec s duration Hd) as Hscan.
    destruct (scanDay (Some s) duration) as [|[m|]]; [done | |].
    + exists 0%nat. split; [done|]. exists day, s.
      split; [done|]. split; [done|]. split; [done|].
      intros j' day' slots' Hj'. lia.
    + assert (Hcov' : Covers tz occupied rest).
      { intros d Hin. apply Hcov. by right. }
      specialize (IH Hcov').
      destruct (findSlot tz occupied rest duration) as [|[[day' m]|]]; [done | |].
      * destruct IH as (j & Hj & day'' & s' & Hj' & Hs' & Hff & Hprev).
        exists (S j). split; [done|]. exists day'', s'.
        split; [done|]. split; [done|]. split; [done|].
        intros [|j'] d' sl' Hlt Hl Ho.
        -- simpl in Hl. injection Hl as <-. rewrite Hs in Ho. by injection Ho as <-.
        -- simpl in Hl. apply (Hprev j' d' sl'); [lia | done | done].
      * intros d sl Hin Ho. apply elem_of_cons in Hin as [->|Hin].
        -- rewrite Hs in Ho. by injection Ho as <-.
        -- by apply (IH d sl).
Qed.

End PlacementFacts.

(** ** The occupancy grid *)

#[local] Arguments fillLoop : simpl never.
#[local] Arguments scanLoop : simpl never.
#[local] Arguments emptyDay : simpl never.
#[local] Arguments fillFuel : simpl never.
#[local] Arguments markOccupied : simpl never.

Section OccupancyFacts.

Variable tz : Z.

Lemma initOccupied_from (days : list Z) (acc : gmap Z Grid) (k : Z) :
  fold_left
    (fun occupied day =>
       match occupied !! dayKey tz day with
       | Some _ => occupied
       | None => <[dayKey tz day := emptyDay]> occupied
       end) days acc !! k
  = match acc !! k with
    | Some s => Some s
    | None => if decide (k ∈ dayKey tz <$> days) then Some emptyDay else None
    end.
Proof.
  revert acc. induction days as [|day rest IH]; intros acc.
  - cbn [fold_left]. destruct (acc !! k); [done|].
    destruct (decide _) as [Hin|]; [|done].
    rewrite fmap_nil in Hin. by apply elem_of_nil in Hin.
  - cbn [fold_left]. rewrite IH. clear IH.
    destruct (acc !! dayKey tz day) as [s0|] eqn:Hday.
    + destruct (acc !! k) as [s|] eqn:Hk; [done|].
      destruct (decide (k ∈ dayKey tz <$> rest)) as [Hin|Hnin].
      * rewrite decide_True; [done | rewrite fmap_cons; by right].
      * rewrite decide_False; [done|]. rewrite fmap_cons.
        intros [->|?]%elem_of_cons; [congruence | done].
    + destruct (decide (k = dayKey tz day)) as [->|Hne].
      * rewrite lookup_insert_eq, Hday.
        rewrite decide_True; [done | rewrite fmap_cons; by left].
      * rewrite lookup_insert_ne by done.
        destruct (acc !! k) as [s|] eqn:Hk; [done|].
        destruct (decide (k ∈ dayKey tz <$> rest)) as [Hin|Hnin].
        -- rewrite decide_True; [done | rewrite fmap_cons; by right].
        -- rewrite decide_False; [done|]. rewrite fmap_cons.
           intros [->|?]%elem_of_cons; done.
Qed.

Lemma initOccupied_lookup (days : list Z) (k : Z) :
  initOccupied tz days !! k
  = if decide (k ∈ dayKey tz <$> days) then Some emptyDay else None.
Proof. unfold initOccupied. rewrite initOccupied_from. by rewrite lookup_empty. Qed.

Lemma initOccupied_covers (days : list Z) : Covers tz (initOccupied tz days) days.
Proof.
  intros day Hin. rewrite initOccupied_lookup.
  rewrite decide_True; [by eexists|]. by apply list_elem_of_fmap_2.
Qed.

Lemma initOccupied_full (days : list Z) : FullDays (initOccupied tz days).
Proof.
  intros k s. rewrite initOccupied_lookup.
  destruct (decide _); [|done]. intros [= <-]. apply length_emptyDay.
Qed.

(** One scheduled task: only the grid of its own day changes, and there
    exactly the cells of its interval below 1440 become busy. *)
Lemma fillOne_spec (occupied : gmap Z Grid) (e : QueueEntry) :
  FullDays occupied →
  FullDays (fillOne tz occupied e) ∧
  ∀ k, match occupied !! k with
       | None => fillOne tz occupied e !! k = None
       | Some s =>
           ∃ s', fillOne tz occupied e !! k = Some s' ∧
                 ∀ j, jsGet s' j = true ↔ jsGet s j = true ∨ Marks tz (task e) k j
       end.
Proof.
  intros Hfull. unfold fillOne.
  destruct (scheduledDate (task e)) as [d|] eqn:Hsd; simpl.
  2:{ split; [done|]. intros k. destruct (occupied !! k) as [s|] eqn:Hk; [|done].
      exists s. split; [done|]. intros j. split; [by left|].
      intros [?|(d & Hd & _)]; [done | congruence]. }
  destruct (Z.eqb_spec d 0) as [->|Hnz]; simpl.
  { split; [done|]. intros k. destruct (occupied !! k) as [s|] eqn:Hk; [|done].
    exists s. split; [done|]. intros j. split; [by left|].
    intros [?|(d & Hd & Hd0 & _)]; [done | congruence]. }
  destruct (occupied !! dayKey tz d) as [s0|] eqn:Hday.
  2:{ split; [done|]. intros k. destruct (occupied !! k) as [s|] eqn:Hk; [|done].
      exists s. split; [done|]. intros j. split; [by left|].
      intros [?|(d' & Hd & _ & Hk' & _)]; [done | congruence]. }
  pose proof (startMinOf_range tz d) as Hrange.
  assert (Hfuel : Z.of_nat fillFuel = 1440) by reflexivity.
  destruct (fillLoop_spec fillFuel (startMinOf tz d)
              (startMinOf tz d + estimatedMinutes (task e)) s0)
    as [Hlen Hcells]; [lia | by eapply Hfull | lia |].
  split.
  - intros k s. destruct (decide (k = dayKey tz d)) as [->|Hne].
    + rewrite lookup_insert_eq. by intros [= <-].
    + rewrite lookup_insert_ne by done. apply Hfull.
  - intros k. destruct (decide (k = dayKey tz d)) as [->|Hne].
    + rewrite Hday, lookup_insert_eq. eexists. split; [done|].
      intros j. rewrite Hcells, orb_true_iff, bool_decide_eq_true.
      split.
      * intros [?|Hj]; [by left|]. right. exists d. repeat split; try done; lia.
      * intros [?|(d' & Hd & _ & _ & Hj)]; [by left|]. right.
        assert (d' = d) as -> by congruence. lia.
    + rewrite lookup_insert_ne by done.
      destruct (occupied !! k) as [s|] eqn:Hk; [|done].
      exists s. split; [done|]. intros j. split; [by left|].
      intros [?|(d' & Hd & _ & Hk' & _)]; [done|]. congruence.
Qed.

(** The grid map after step 4: the horizon days and no others have a grid
    of 1440 cells, whose busy cells are those of the intervals of the
    scheduled tasks of that day, cut at midnight. *)
Lemma fillOccupied_spec (scheduled : list QueueEntry) (occupied : gmap Z Grid) :
  FullDays occupied →
  FullDays (fillOccupied tz scheduled occupied) ∧
  ∀ k, match occupied !! k with
       | None => fillOccupied tz scheduled occupied !! k = None
       | Some s =>
           ∃ s', fillOccupied tz scheduled occupied !! k = Some s' ∧
                 ∀ j, jsGet s' j = true ↔
                      jsGet s j = true ∨ ∃ e, e ∈ scheduled ∧ Marks tz (task e) k j
       end.
Proof.
  unfold fillOccupied. revert occupied.
  induction scheduled as [|e rest IH]; intros occupied Hfull.
  - simpl. split; [done|]. intros k. destruct (occupied !! k) as [s|]; [|done].
    exists s. split; [done|]. intros j. split; [by left|].
    intros [?|(e & Hin & _)]; [done|]. by apply elem_of_nil in Hin.
  - cbn [fold_left]. destruct (fillOne_spec occupied e Hfull) as [Hfull1 Hone].
    destruct (IH _ Hfull1) as [Hfull2 Hrest]. split; [done|].
    intros k. specialize (Hone k). specialize (Hrest k).
    destruct (occupied !! k) as [s|] eqn:Hk.
    + destruct Hone as (s1 & Hs1 & Hc1). rewrite Hs1 in Hrest.
      destruct Hrest as (s2 & Hs2 & Hc2). exists s2. split; [done|].
      intros j. rewrite Hc2, Hc1. split.
      * intros [[?|Hm]|(e' & Hin & Hm)]; [by left | right | right].
        -- exists e. split; [by left | done].
        -- exists e'. split; [by right | done].
      * intros [?|(e' & Hin & Hm)]; [by left; left|].
        apply elem_of_cons in Hin as [->|Hin]; [by left; right|].
        right. by exists e'.
    + by rewrite Hone in Hrest.
Qed.

End OccupancyFacts.

(** ** The placement loop *)

Section RunFacts.

Variable tz : Z.

Lemma durationOf_min (t : SubTask) : 15 ≤ durationOf t.
Proof. unfold durationOf. lia. Qed.

Lemma Grows_refl (occupied : gmap Z Grid) : Grows occupied occupied.
Proof. intros k s Hk. by exists s. Qed.

Lemma Grows_trans (o1 o2 o3 : gmap Z Grid) :
  Grows o1 o2 → Grows o2 o3 → Grows o1 o3.
Proof.
  intros H12 H23 k s Hk. destruct (H12 k s Hk) as (s2 & Hk2 & Hc2).
  destruct (H23 k s2 Hk2) as (s3 & Hk3 & Hc3). exists s3. split; [done|].
  intros j Hj. by apply Hc3, Hc2.
Qed.

(** Claiming a fitting slot keeps the grid map well formed, only adds busy
    cells, and makes the whole interval busy. *)
Lemma claim_spec (occupied : gmap Z Grid) (days : list Z) (k : Z) (s : Grid)
    (duration m : Z) :
  Covers tz occupied days → FullDays occupied →
  occupied !! k = Some s → Candidate duration m → 0 ≤ duration →
  let occupied' := <[k := markOccupied s m duration]> occupied in
  Covers tz occupied' days ∧ FullDays occupied' ∧ Grows occupied occupied' ∧
  ∀ x, m ≤ x < m + duration → jsGet (markOccupied s m duration) x = true.
Proof.
  intros Hcov Hfull Hk [Hr _] Hd occupied'.
  pose proof (Hfull k s Hk) as Hlen.
  destruct (markOccupied_spec s m duration) as [Hl Hc]; [lia | lia |].
  split; [|split; [|split]].
  - intros day Hin. unfold occupied'.
    destruct (decide (dayKey tz day = k)) as [->|Hne].
    + rewrite lookup_insert_eq. by eexists.
    + rewrite lookup_insert_ne by done. by apply Hcov.
  - intros k' s'. unfold occupied'.
    destruct (decide (k' = k)) as [->|Hne].
    + rewrite lookup_insert_eq. intros [= <-]. congruence.
    + rewrite lookup_insert_ne by done. apply Hfull.
  - intros k' s' Hk'. unfold occupied'.
    destruct (decide (k' = k)) as [->|Hne].
    + rewrite lookup_insert_eq. eexists. split; [done|].
      intros j Hj. rewrite Hc. assert (s' = s) as -> by congruence.
      by rewrite Hj.
    + rewrite lookup_insert_ne by done. by exists s'.
  - intros x Hx. rewrite Hc, (bool_decide_eq_true_2 (m ≤ x < m + duration)) by done.
    apply orb_true_r.
Qed.

(** The body of the loop over the queue never throws; it either finds no
    fitting slot and changes nothing, or claims the first fit. *)
Lemma placeTask_spec (days : list Z) (occupied : gmap Z Grid)
    (updates : list Update) (e : QueueEntry) :
  Covers tz occupied days → FullDays occupied →
  (NoFit tz occupied days (durationOf (task e)) ∧
   placeTask tz days (occupied, updates) e = Returned (occupied, updates))
  ∨
  (∃ j day s m,
      days !! j = Some day ∧ occupied !! dayKey tz day = Some s ∧
      FirstFit tz occupied days (durationOf (task e)) j m ∧
      placeTask tz days (occupied, updates) e
      = Returned
          (<[dayKey tz day := markOccupied s m (durationOf (task e))]> occupied,
           updates ++ [mkUpdate (proj_id (project e)) (task_id (task e))
                         (setHours tz day 0 m 0 0)])).
Proof.
  intros Hcov Hfull. pose proof (durationOf_min (task e)) as Hd.
  pose proof (findSlot_spec tz occupied days (durationOf (task e)) ltac:(lia) Hcov)
    as Hfind.
  unfold placeTask. cbn [fst snd].
  destruct (findSlot tz occupied days (durationOf (task e))) as [|[[day m]|]];
    [done | | by left].
  right. destruct Hfind as (j & Hj & Hff).
  pose proof Hff as (day' & s & Hj' & Hs & _).
  assert (day' = day) as -> by congruence.
  exists j, day, s, m. rewrite Hs. cbn [from_option id]. done.
Qed.

Lemma placeQueue_app (days : list Z) (st : gmap Z Grid * list Update)
    (q1 q2 : list QueueEntry) :
  placeQueue tz days st (q1 ++ q2)
  = match placeQueue tz days st q1 with
    | Threw => Threw
    | Returned st' => placeQueue tz days st' q2
    end.
Proof.
  revert st. induction q1 as [|e q1 IH]; intros st; [done|].
  cbn [app placeQueue]. destruct (placeTask tz days st e); [done|]. apply IH.
Qed.

Variable projects : list Project.
Variable days : list Z.

Lemma stateBefore_O :
  stateBefore tz projects days 0
  = Returned (fillOccupied tz (scheduledTasks projects) (initOccupied tz days), []).
Proof. unfold stateBefore. by rewrite take_0. Qed.

Lemma stateBefore_S (i : nat) (e : QueueEntry) :
  unscheduledTasks projects !! i = Some e →
  stateBefore tz projects days (S i)
  = match stateBefore tz projects days i with
    | Threw => Threw
    | Returned st => placeTask tz days st e
    end.
Proof.
  intros Hi. unfold stateBefore. rewrite (take_S_r _ _ _ Hi), placeQueue_app.
  destruct (placeQueue _ _ _ (take i _)) as [|st]; [done|].
  cbn [placeQueue]. by destruct (placeTask tz days st e).
Qed.

Lemma stateBefore_end (i : nat) :
  (length (unscheduledTasks projects) ≤ i)%nat →
  stateBefore tz projects days i = autoSchedule tz projects days.
Proof. intros Hi. unfold stateBefore, autoSchedule. by rewrite take_ge. Qed.

Lemma start_ok :
  Covers tz (fillOccupied tz (scheduledTasks projects) (initOccupied tz days)) days ∧
  FullDays (fillOccupied tz (scheduledTasks projects) (initOccupied tz days)).
Proof.
  destruct (fillOccupied_spec tz (scheduledTasks projects) (initOccupied tz days)
              (initOccupied_full tz days)) as [Hfull Hcells].
  split; [|done]. intros day Hin.
  destruct (initOccupied_covers tz days day Hin) as [s Hs].
  specialize (Hcells (dayKey tz day)). rewrite Hs in Hcells.
  destruct Hcells as (s' & Hs' & _). by exists s'.
Qed.

(** Every prefix of the queue is processed without an exception and
    leaves a well-formed grid map. *)
Lemma stateBefore_ok (i : nat) :
  ∃ occupied updates,
    stateBefore tz projects days i = Returned (occupied, updates) ∧
    Covers tz occupied days ∧ FullDays occupied.
Proof.
  induction i as [|i IH].
  - rewrite stateBefore_O. destruct start_ok. by eexists _, _.
  - destruct IH as (occ & upd & Hst & Hcov & Hfull).
    destruct (unscheduledTasks projects !! i) as [e|] eqn:Hi.
    + rewrite (stateBefore_S i e Hi), Hst.
      destruct (placeTask_spec days occ upd e Hcov Hfull)
        as [[_ ->]|(j & day & s & m & Hj & Hs & Hff & ->)].
      * by exists occ, upd.
      * destruct Hff as (day' & s' & Hj' & Hs' & (Hcand & _) & _).
        assert (day' = day) as -> by congruence.
        assert (s' = s) as -> by congruence.
        pose proof (durationOf_min (task e)).
        destruct (claim_spec occ days (dayKey tz day) s (durationOf (task e)) m)
          as (? & ? & _); try done; [lia|].
        by eexists _, _.
    + apply lookup_ge_None in Hi.
      rewrite stateBefore_end by lia. rewrite stateBefore_end in Hst by lia.
      by exists occ, upd.
Qed.

(** What happens to the task at position [i]: the content of the loop
    body, read at the state the loop is in when the task is tried. *)
Lemma step_cases (i : nat) (e : QueueEntry) :
  unscheduledTasks projects !! i = Some e →
  ∃ occupied updates,
    stateBefore tz projects days i = Returned (occupied, updates) ∧
    Covers tz occupied days ∧ FullDays occupied ∧
    ((NoFit tz occupied days (durationOf (task e)) ∧
      stateBefore tz projects days (S i) = Returned (occupied, updates))
     ∨
     (∃ j day s m,
         days !! j = Some day ∧ occupied !! dayKey tz day = Some s ∧
         FirstFit tz occupied days (durationOf (task e)) j m ∧
         stateBefore tz projects days (S i)
         = Returned
             (<[dayKey tz day := markOccupied s m (durationOf (task e))]> occupied,
              updates ++ [mkUpdate (proj_id (project e)) (task_id (task e))
                            (setHours tz day 0 m 0 0)]))).
Proof.
  intros Hi. destruct (stateBefore_ok i) as (occ & upd & Hst & Hcov & Hfull).
  exists occ, upd. split; [done|]. split; [done|]. split; [done|].
  rewrite (stateBefore_S i e Hi), Hst.
  apply placeTask_spec; done.
Qed.

End RunFacts.

Section TraceFacts.

Variable tz : Z.
Variable projects : list Project.
Variable days : list Z.

Lemma stateBefore_step (i : nat) (occ occ' : gmap Z Grid) (upd upd' : list Update) :
  stateBefore tz projects days i = Returned (occ, upd) →
  stateBefore tz projects days (S i) = Returned (occ', upd') →
  Grows occ occ' ∧ ∃ more, upd' = upd ++ more.
Proof.
  intros Hst Hst'.
  destruct (unscheduledTasks projects !! i) as [e|] eqn:Hi.
  - destruct (step_cases tz projects days i e Hi)
      as (o & u & Ho & Hcov & Hfull & Hcase).
    rewrite Hst in Ho. injection Ho as <- <-.
    destruct Hcase as [[_ Hs]|(j & day & s & m & Hj & Hs & Hff & Hnext)].
    + rewrite Hst' in Hs. injection Hs as -> ->.
      split; [apply Grows_refl|]. exists []. by rewrite app_nil_r.
    + rewrite Hst' in Hnext. injection Hnext as -> ->.
      destruct Hff as (day' & s' & Hj' & Hs' & (Hcand & _) & _).
      assert (day' = day) as -> by congruence.
      assert (s' = s) as -> by congruence.
      pose proof (durationOf_min (task e)).
      destruct (claim_spec tz occ days (dayKey tz day) s (durationOf (task e)) m)
        as (_ & _ & Hg & _); try done; [lia|].
      split; [done|]. by eexists.
  - apply lookup_ge_None in Hi.
    rewrite stateBefore_end in Hst by lia. rewrite stateBefore_end in Hst' by lia.
    rewrite Hst in Hst'. injection Hst' as <- <-.
    split; [apply Grows_refl|]. exists []. by rewrite app_nil_r.
Qed.

Lemma stateBefore_grows (i i' : nat) (occ occ' : gmap Z Grid)
    (upd upd' : list Update) :
  (i ≤ i')%nat →
  stateBefore tz projects days i = Returned (occ, upd) →
  stateBefore tz projects days i' = Returned (occ', upd') →
  Grows occ occ' ∧ ∃ more, upd' = upd ++ more.
Proof.
  intros Hle Hst. revert occ' upd'. induction Hle as [|i' Hle IH]; intros occ' upd' Hst'.
  - rewrite Hst in Hst'. injection Hst' as <- <-.
    split; [apply Grows_refl|]. exists []. by rewrite app_nil_r.
  - destruct (stateBefore_ok tz projects days i') as (o & u & Ho & _).
    destruct (IH o u Ho) as [Hg [more ->]].
    destruct (stateBefore_step i' o occ' (upd ++ more) upd' Ho Hst') as [Hg' [more' ->]].
    split; [by eapply Grows_trans|]. exists (more ++ more'). by rewrite app_assoc.
Qed.

(** A placement, unfolded: the state when the task was tried, the day and
    the start minute of its first fit, and the update recorded. *)
Lemma placed_facts (i : nat) (e : QueueEntry) (u : Update) :
  PlacedAt tz projects days i e u →
  ∃ occ upd j day s m,
    stateBefore tz projects days i = Returned (occ, upd) ∧
    Covers tz occ days ∧ FullDays occ ∧
    days !! j = Some day ∧ occ !! dayKey tz day = Some s ∧
    FirstFit tz occ days (durationOf (task e)) j m ∧
    u = mkUpdate (proj_id (project e)) (task_id (task e)) (setHours tz day 0 m 0 0) ∧
    stateBefore tz projects days (S i)
    = Returned (<[dayKey tz day := markOccupied s m (durationOf (task e))]> occ,
                upd ++ [u]).
Proof.
  intros (Hi & occ & upd & occ' & Hst & Hst').
  destruct (step_cases tz projects days i e Hi)
    as (o & u0 & Ho & Hcov & Hfull & Hcase).
  rewrite Hst in Ho. injection Ho as <- <-.
  destruct Hcase as [[_ Hs]|(j & day & s & m & Hj & Hs & Hff & Hnext)].
  - rewrite Hst' in Hs. injection Hs as _ Hs.
    apply (f_equal length) in Hs. rewrite length_app in Hs. simpl in Hs. lia.
  - rewrite Hst' in Hnext. injection Hnext as -> Hu.
    apply app_inv_head in Hu. injection Hu as ->.
    exists occ, upd, j, day, s, m. rewrite Hst'. done.
Qed.

(** The date of a recorded update names the day and the minute claimed. *)
Lemma placed_date (day m duration : Z) :
  Candidate duration m → 0 ≤ duration →
  dayKey tz (setHours tz day 0 m 0 0) = dayKey tz day ∧
  startMinOf tz (setHours tz day 0 m 0 0) = m.
Proof.
  intros [Hr _] Hd. split.
  - apply dayKey_setHours. unfold msPerHour, msPerMinute, msPerDay. lia.
  - apply startMinOf_setHours. lia.
Qed.

(** The updates recorded so far are those of the tasks placed so far. *)
Lemma updates_placed (i : nat) (occ : gmap Z Grid) (upd : list Update) :
  stateBefore tz projects days i = Returned (occ, upd) →
  ∀ u, u ∈ upd ↔ ∃ i' e, (i' < i)%nat ∧ PlacedAt tz projects days i' e u.
Proof.
  revert occ upd. induction i as [|i IH]; intros occ upd Hst u.
  - rewrite stateBefore_O in Hst. injection Hst as _ <-. split.
    + intros Hin. by apply elem_of_nil in Hin.
    + intros (i' & _ & Hlt & _). lia.
  - destruct (stateBefore_ok tz projects days i) as (o & u0 & Ho & _).
    specialize (IH o u0 Ho).
    destruct (unscheduledTasks projects !! i) as [e|] eqn:Hi.
    + destruct (step_cases tz projects days i e Hi)
        as (o' & u0' & Ho' & _ & _ & Hcase).
      rewrite Ho in Ho'. injection Ho' as <- <-.
      destruct Hcase as [[_ Hs]|(j & day & s & m & Hj & Hs & Hff & Hnext)].
      * rewrite Hst in Hs. injection Hs as -> ->. rewrite IH. split.
        -- intros (i' & e' & Hlt & Hp). exists i', e'. split; [lia | done].
        -- intros (i' & e' & Hlt & Hp).
           destruct (decide (i' = i)) as [->|Hne].
           ++ destruct Hp as (_ & o1 & u1 & o2 & H1 & H2).
              rewrite Ho in H1. injection H1 as <- <-.
              rewrite Hst in H2. injection H2 as _ H2.
              apply (f_equal length) in H2. rewrite length_app in H2.
              simpl in H2. lia.
           ++ exists i', e'. split; [lia | done].
      * rewrite Hst in Hnext. injection Hnext as -> ->.
        rewrite elem_of_app, IH, list_elem_of_singleton. split.
        -- intros [(i' & e' & Hlt & Hp)| ->].
           ++ exists i', e'. split; [lia | done].
           ++ exists i, e. split; [lia|]. split; [done|].
              eexists _, _, _. split; [exact Ho | exact Hst].
        -- intros (i' & e' & Hlt & Hp).
           destruct (decide (i' = i)) as [->|Hne].
           ++ right. destruct Hp as (_ & o1 & u1 & o2 & H1 & H2).
              rewrite Ho in H1. injection H1 as <- <-.
              rewrite Hst in H2. injection H2 as _ H2.
              apply app_inv_head in H2. by injection H2.
           ++ left. exists i', e'. split; [lia | done].
    + apply lookup_ge_None in Hi.
      rewrite stateBefore_end in Ho by lia. rewrite stateBefore_end in Hst by lia.
      rewrite Ho in Hst. injection Hst as <- <-. rewrite IH. split.
      * intros (i' & e' & Hlt & Hp). exists i', e'. split; [lia | done].
      * intros (i' & e' & Hlt & Hp). pose proof Hp as (Hi' & _).
        apply lookup_lt_Some in Hi'. exists i', e'. split; [lia | done].
Qed.

End TraceFacts.

(** ** Task trees *)

(** Induction on a task with the hypothesis for all of its children. *)
Lemma SubTask_nested_ind (P : SubTask → Prop) :
  (∀ t, Forall P (subtasks t) → P t) → ∀ t, P t.
Proof.
  intros H.
  exact (fix go (t : SubTask) : P t :=
           H t ((fix all (l : list SubTask) : Forall P l :=
                   match l with
                   | [] => List.Forall_nil P
                   | c :: r => List.Forall_cons P c r (go c) (all r)
                   end) (subtasks t))).
Qed.

Lemma withSubtasks_same (t : SubTask) : withSubtasks t (subtasks t) = t.
Proof. by destruct t. Qed.

Lemma flattenBelow_eq (t : SubTask) :
  flattenBelow t
  = fold_left (fun result c => (result ++ [c]) ++ flattenBelow c) (subtasks t) [].
Proof. by destruct t. Qed.

Lemma preorderNode_eq (t : SubTask) :
  preorderNode t = t :: flat_map preorderNode (subtasks t).
Proof. by destruct t. Qed.

Lemma fold_push_concat (f : SubTask → list SubTask) (l acc : list SubTask) :
  fold_left (fun result c => (result ++ [c]) ++ f c) l acc
  = acc ++ flat_map (fun c => c :: f c) l.
Proof.
  revert acc. induction l as [|c l IH]; intros acc.
  - simpl. by rewrite app_nil_r.
  - cbn [fold_left flat_map]. rewrite IH.
    rewrite <- !app_assoc. done.
Qed.

Lemma flattenBelow_preorder (t : SubTask) :
  flattenBelow t = flat_map preorderNode (subtasks t).
Proof.
  induction t as [t IH] using SubTask_nested_ind.
  rewrite flattenBelow_eq, fold_push_concat. cbn [app].
  induction IH as [|c r Hc _ IHr]; [done|].
  cbn [flat_map]. rewrite IHr, Hc, <- preorderNode_eq. done.
Qed.

(** [flattenTasks] lists a forest in pre-order. *)
Lemma flattenTasks_preorder (tasks : list SubTask) :
  flattenTasks tasks = preorder tasks.
Proof.
  unfold flattenTasks, preorder. rewrite fold_push_concat. cbn [app].
  induction tasks as [|c r IH]; [done|].
  cbn [flat_map]. rewrite IH, flattenBelow_preorder, <- preorderNode_eq. done.
Qed.

Lemma classify_fold (p : Project) (ts : list SubTask)
    (acc : list QueueEntry * list QueueEntry) :
  fold_left (classify p) ts acc
  = (acc.1 ++ (mkEntry p <$> List.filter isUnscheduled ts),
     acc.2 ++ (mkEntry p <$> List.filter isScheduled ts)).
Proof.
  revert acc. induction ts as [|t ts IH]; intros [a b].
  - simpl. by rewrite !app_nil_r.
  - cbn [fold_left]. rewrite IH. unfold classify, isUnscheduled, isScheduled.
    cbn [List.filter fst snd].
    destruct (bool_decide (status t = COMPLETED)); cbn [negb andb]; [done|].
    destruct (truthyZ (scheduledDate t)); cbn [negb fst snd fmap list_fmap];
      by rewrite <- ?app_assoc.
Qed.

(** The two lists of the data preparation: projects in order, each project's
    tasks in pre-order, completed tasks left out, split on whether the
    scheduled instant is truthy. *)
Lemma dataPreparation_eq (projects : list Project) :
  dataPreparation projects
  = (flat_map (fun p => mkEntry p <$> List.filter isUnscheduled (preorder (proj_subtasks p)))
       projects,
     flat_map (fun p => mkEntry p <$> List.filter isScheduled (preorder (proj_subtasks p)))
       projects).
Proof.
  unfold dataPreparation.
  assert (H : ∀ acc,
    fold_left
      (fun acc p => fold_left (classify p) (flattenTasks (proj_subtasks p)) acc)
      projects acc
    = (acc.1 ++ flat_map (fun p => mkEntry p <$> List.filter isUnscheduled (preorder (proj_subtasks p))) projects,
       acc.2 ++ flat_map (fun p => mkEntry p <$> List.filter isScheduled (preorder (proj_subtasks p))) projects)).
  { induction projects as [|p ps IH]; intros [a b].
    - simpl. by rewrite !app_nil_r.
    - cbn [fold_left]. rewrite IH, classify_fold, flattenTasks_preorder.
      cbn [fst snd flat_map]. by rewrite <- !app_assoc. }
  by rewrite H.
Qed.

Lemma unscheduledTasks_eq (projects : list Project) :
  unscheduledTasks projects
  = flat_map (fun p => mkEntry p <$> List.filter isUnscheduled (preorder (proj_subtasks p)))
      projects.
Proof. unfold unscheduledTasks. by rewrite dataPreparation_eq. Qed.

Lemma scheduledTasks_eq (projects : list Project) :
  scheduledTasks projects
  = flat_map (fun p => mkEntry p <$> List.filter isScheduled (preorder (proj_subtasks p)))
      projects.
Proof. unfold scheduledTasks. by rewrite dataPreparation_eq. Qed.

Lemma elem_of_scheduledTasks (projects : list Project) (e : QueueEntry) :
  e ∈ scheduledTasks projects ↔
  project e ∈ projects ∧ task e ∈ preorder (proj_subtasks (project e)) ∧
  isScheduled (task e) = true.
Proof.
  rewrite scheduledTasks_eq, list_elem_of_In, in_flat_map. split.
  - intros (p & Hp & He). apply list_elem_of_In, list_elem_of_fmap in He as (t & -> & Ht).
    apply list_elem_of_In, filter_In in Ht as [Ht Hs]. cbn [project task].
    rewrite !list_elem_of_In. done.
  - intros (Hp & Ht & Hs). exists (project e). split; [by apply list_elem_of_In|].
    apply list_elem_of_In, list_elem_of_fmap. exists (task e). split; [by destruct e|].
    apply list_elem_of_In, filter_In. split; [by apply list_elem_of_In | done].
Qed.

Lemma elem_of_unscheduledTasks (projects : list Project) (e : QueueEntry) :
  e ∈ unscheduledTasks projects ↔
  project e ∈ projects ∧ task e ∈ preorder (proj_subtasks (project e)) ∧
  isUnscheduled (task e) = true.
Proof.
  rewrite unscheduledTasks_eq, list_elem_of_In, in_flat_map. split.
  - intros (p & Hp & He). apply list_elem_of_In, list_elem_of_fmap in He as (t & -> & Ht).
    apply list_elem_of_In, filter_In in Ht as [Ht Hs]. cbn [project task].
    rewrite !list_elem_of_In. done.
  - intros (Hp & Ht & Hs). exists (project e). split; [by apply list_elem_of_In|].
    apply list_elem_of_In, list_elem_of_fmap. exists (task e). split; [by destruct e|].
    apply list_elem_of_In, filter_In. split; [by apply list_elem_of_In | done].
Qed.

(** *** Looking a task up after an update *)

Lemma recursiveUpdateNode_eq (tid : string) (f : SubTask → SubTask) (t : SubTask) :
  recursiveUpdateNode tid f t
  = if String.eqb (task_id t) tid then f t
    else withSubtasks t (map (recursiveUpdateNode tid f) (subtasks t)).
Proof. by destruct t. Qed.

Lemma bulkUpdateNode_eq (tid : string) (u : PartialSubTask) (t : SubTask) :
  bulkUpdateNode tid u t
  = if String.eqb (task_id t) tid then spread t u
    else withSubtasks t (map (bulkUpdateNode tid u) (subtasks t)).
Proof. by destruct t. Qed.

Lemma findTaskNode_eq (tid : string) (t : SubTask) :
  findTaskNode tid t
  = if String.eqb (task_id t) tid then Some t else findTaskById (subtasks t) tid.
Proof.
  destruct t as [i ? ? ? ? ? ? ? ? ? subs]. cbn [findTaskNode task_id subtasks].
  destruct (String.eqb i tid); [done|].
  induction subs as [|c r IH]; [done|].
  cbn [findTaskById]. destruct (findTaskNode tid c); [done | exact IH].
Qed.

(** [findTaskById] after [recursiveUpdate]: the task found is the updated
    one, whenever the updater keeps the identity of the target. *)
Lemma findTaskById_recursiveUpdate (tid : string) (f : SubTask → SubTask)
    (tasks : list SubTask) :
  (∀ t, task_id t = tid → task_id (f t) = tid) →
  findTaskById (recursiveUpdate tasks tid f) tid = f <$> findTaskById tasks tid.
Proof.
  intros Hid.
  assert (Hnode : ∀ t,
    findTaskNode tid (recursiveUpdateNode tid f t) = f <$> findTaskNode tid t).
  { induction t as [t IH] using SubTask_nested_ind.
    rewrite recursiveUpdateNode_eq, (findTaskNode_eq tid t).
    destruct (String.eqb_spec (task_id t) tid) as [Heq|Hne].
    - rewrite findTaskNode_eq. rewrite (Hid t Heq), String.eqb_refl. done.
    - rewrite findTaskNode_eq. cbn [withSubtasks task_id subtasks].
      destruct (String.eqb_spec (task_id t) tid) as [?|_]; [done|].
      induction IH as [|c r Hc _ IHr]; [done|].
      cbn [map findTaskById]. rewrite Hc.
      destruct (findTaskNode tid c); [done | exact IHr]. }
  unfold recursiveUpdate. induction tasks as [|c r IH]; [done|].
  cbn [map findTaskById]. rewrite Hnode.
  destruct (findTaskNode tid c); [done | exact IH].
Qed.

Lemma spread_keeps_id (t : SubTask) (u : PartialSubTask) :
  u_id u = None → task_id (spread t u) = task_id t.
Proof. intros H. unfold spread. cbn [task_id]. by rewrite H. Qed.

(** The task a payload refers to, after [handleUpdateTask] and after
    [handleScheduleTask] with that payload. *)
Lemma lookupTask_handleUpdateTask (projects : list Project)
    (pid tid : string) (u : PartialSubTask) :
  u_id u = None →
  lookupTask (handleUpdateTask projects pid tid u) pid tid
  = (fun t => spread t u) <$> lookupTask projects pid tid.
Proof.
  intros Hu. unfold lookupTask, handleUpdateTask.
  induction projects as [|p ps IH]; [done|].
  cbn [map List.find].
  destruct (String.eqb_spec (proj_id p) pid) as [Heq|Hne]; cbn [negb].
  - cbn [withProjSubtasks proj_id proj_subtasks].
    destruct (String.eqb_spec (proj_id p) pid) as [_|?]; [|done].
    apply findTaskById_recursiveUpdate. intros t Ht.
    by rewrite spread_keeps_id.
  - destruct (String.eqb_spec (proj_id p) pid) as [?|_]; [done|]. exact IH.
Qed.

Lemma lookupTask_handleScheduleTask (projects : list Project)
    (pid tid : string) (date : Z) :
  lookupTask (handleScheduleTask projects pid tid date) pid tid
  = (fun t => withScheduledDate t (Some date)) <$> lookupTask projects pid tid.
Proof.
  unfold lookupTask, handleScheduleTask.
  induction projects as [|p ps IH]; [done|].
  cbn [map List.find].
  destruct (String.eqb_spec (proj_id p) pid) as [Heq|Hne]; cbn [negb].
  - cbn [withProjSubtasks proj_id proj_subtasks].
    destruct (String.eqb_spec (proj_id p) pid) as [_|?]; [|done].
    apply findTaskById_recursiveUpdate. intros t Ht. done.
  - destruct (String.eqb_spec (proj_id p) pid) as [?|_]; [done|]. exact IH.
Qed.

(** *** Updates that change nothing *)

Lemma recursiveUpdate_id (tid : string) (f : SubTask → SubTask)
    (tasks : list SubTask) :
  (∀ t, t ∈ preorder tasks → task_id t = tid → f t = t) →
  recursiveUpdate tasks tid f = tasks.
Proof.
  assert (Hnode : ∀ t,
    (∀ x, x ∈ preorderNode t → task_id x = tid → f x = x) →
    recursiveUpdateNode tid f t = t).
  { induction t as [t IH] using SubTask_nested_ind. intros Hf.
    rewrite recursiveUpdateNode_eq.
    destruct (String.eqb_spec (task_id t) tid) as [Heq|Hne].
    - apply Hf; [|done]. rewrite preorderNode_eq. by left.
    - transitivity (withSubtasks t (subtasks t)); [|apply withSubtasks_same].
      f_equal. rewrite preorderNode_eq in Hf.
      assert (Hsub : ∀ x, x ∈ flat_map preorderNode (subtasks t) → task_id x = tid → f x = x).
      { intros x Hx. apply Hf. by right. }
      clear Hf. induction IH as [|c r Hc _ IHr]; [done|].
      cbn [map]. f_equal.
      + apply Hc. intros x Hx. apply Hsub. cbn [flat_map].
        apply elem_of_app. by left.
      + apply IHr. intros x Hx. apply Hsub. cbn [flat_map].
        apply elem_of_app. by right. }
  intros Hf. unfold recursiveUpdate. induction tasks as [|c r IH]; [done|].
  cbn [map]. f_equal.
  - apply Hnode. intros x Hx. apply Hf. unfold preorder. cbn [flat_map].
    apply elem_of_app. by left.
  - apply IH. intros x Hx. apply Hf. unfold preorder. cbn [flat_map].
    apply elem_of_app. by right.
Qed.

(** *** Framing of the bulk update *)

Lemma NodeFrame_refl (keys : list (string * string)) (pid : string) (l : list SubTask) :
  Forall2 (NodeFrame keys pid) l l.
Proof. apply Forall_Forall2_diag, Forall_forall. intros t _. by split. Qed.

Lemma Frame_refl (keys : list (string * string)) (ps : list Project) :
  Frame keys ps ps.
Proof.
  apply Forall_Forall2_diag, Forall_forall. intros p _.
  split; [done | apply NodeFrame_refl].
Qed.

Lemma Frame_mono (keys keys' : list (string * string)) (ps ps' : list Project) :
  (∀ k, k ∈ keys → k ∈ keys') → Frame keys ps ps' → Frame keys' ps ps'.
Proof.
  intros Hsub H. eapply Forall2_impl; [exact H|].
  intros p p' [Hid Hn]. split; [done|].
  eapply Forall2_impl; [exact Hn|].
  intros t t' [Ht Hk]. split; [done|]. intros Hnin. apply Hk. intros Hin.
  by apply Hnin, Hsub.
Qed.

Lemma Frame_trans (keys : list (string * string)) (a b c : list Project) :
  Frame keys a b → Frame keys b c → Frame keys a c.
Proof.
  apply Forall2_trans. intros p q r [Hpq Hn] [Hqr Hn']. split; [congruence|].
  rewrite Hpq in Hn'. eapply Forall2_trans; [|exact Hn|exact Hn'].
  intros t t' t'' [H1 K1] [H2 K2]. split; [congruence|].
  intros Hnin. rewrite K2, K1; [done | done |]. by rewrite H1.
Qed.

Lemma bulkUpdateNode_frame (pid tid : string) (u : PartialSubTask) (t : SubTask) :
  u_id u = None → u_subtasks u = None →
  Forall2 (NodeFrame [(pid, tid)] pid)
    (preorderNode t) (preorderNode (bulkUpdateNode tid u t)).
Proof.
  intros Hid Hsub. induction t as [t IH] using SubTask_nested_ind.
  rewrite bulkUpdateNode_eq.
  destruct (String.eqb_spec (task_id t) tid) as [Heq|Hne].
  - rewrite (preorderNode_eq t), (preorderNode_eq (spread t u)).
    replace (subtasks (spread t u)) with (subtasks t)
      by (unfold spread; cbn [subtasks]; by rewrite Hsub).
    constructor; [|apply NodeFrame_refl].
    split; [by apply spread_keeps_id|]. intros Hnin. exfalso. apply Hnin.
    rewrite Heq. by apply list_elem_of_singleton.
  - rewrite (preorderNode_eq t), (preorderNode_eq (withSubtasks t _)).
    cbn [withSubtasks subtasks]. constructor; [by split|].
    induction IH as [|c r Hc _ IHr]; [constructor|].
    cbn [map flat_map]. by apply Forall2_app.
Qed.

Lemma bulkUpdateTaskInTree_frame (pid tid : string) (u : PartialSubTask)
    (tasks : list SubTask) :
  u_id u = None → u_subtasks u = None →
  Forall2 (NodeFrame [(pid, tid)] pid)
    (preorder tasks) (preorder (bulkUpdateTaskInTree tasks tid u)).
Proof.
  intros Hid Hsub. unfold preorder, bulkUpdateTaskInTree.
  induction tasks as [|c r IH]; [constructor|].
  cbn [map flat_map]. apply Forall2_app; [|exact IH].
  by apply bulkUpdateNode_frame.
Qed.

Lemma findIndex_spec (pid : string) (ps : list Project) (i : nat) :
  findIndex pid ps = Some i → ∃ p, ps !! i = Some p ∧ proj_id p = pid.
Proof.
  unfold findIndex.
  assert (H : ∀ l n,
    (fix go (l : list Project) (i : nat) : option nat :=
       match l with
       | [] => None
       | p :: r => if String.eqb (proj_id p) pid then Some i else go r (S i)
       end) l n = Some i →
    (n ≤ i)%nat ∧ ∃ p, l !! (i - n)%nat = Some p ∧ proj_id p = pid).
  { induction l as [|p r IH]; intros n; [done|].
    destruct (String.eqb_spec (proj_id p) pid) as [Heq|Hne].
    - intros [= <-]. split; [lia|]. exists p. by rewrite Nat.sub_diag.
    - intros Hgo. destruct (IH _ Hgo) as [Hle (q & Hq & Hid)].
      split; [lia|]. exists q. split; [|done].
      replace (i - n)%nat with (S (i - S n)) by lia. done. }
  intros Hf. destruct (H ps 0%nat Hf) as [_ (p & Hp & Hid)].
  exists p. by rewrite Nat.sub_0_r in Hp.
Qed.

Lemma applyUpdate_frame (ps : list Project) (upd : Update) :
  Frame [updateKey upd] ps (applyUpdate ps upd).
Proof.
  unfold applyUpdate.
  destruct (findIndex (projectId upd) ps) as [i|] eqn:Hi; [|apply Frame_refl].
  destruct (findIndex_spec _ _ _ Hi) as (p & Hp & Hid). rewrite Hp.
  set (p' := withProjSubtasks p _).
  assert (Hpp : ProjFrame [updateKey upd] p p').
  { split; [done|]. unfold p', updateKey. cbn [withProjSubtasks proj_subtasks].
    rewrite Hid. by apply bulkUpdateTaskInTree_frame. }
  pose proof (Forall2_insert _ ps ps p p' i (Frame_refl [updateKey upd] ps) Hpp) as H.
  by rewrite (list_insert_id ps i p Hp) in H.
Qed.

Lemma bulkApply_frame (ps : list Project) (updates : list Update) :
  Frame (updateKey <$> updates) ps (bulkApply ps updates).
Proof.
  unfold bulkApply. destruct (0 <? length updates)%nat; [|apply Frame_refl].
  revert ps. induction updates as [|u rest IH]; intros ps; [apply Frame_refl|].
  cbn [fold_left]. rewrite fmap_cons.
  eapply Frame_trans.
  - eapply Frame_mono; [|apply applyUpdate_frame].
    intros k Hk. apply list_elem_of_singleton in Hk as ->. by left.
  - eapply Frame_mono; [|apply IH]. intros k Hk. by right.
Qed.

Lemma isUnscheduled_ownFields (t t' : SubTask) :
  ownFields t' = ownFields t → isUnscheduled t' = isUnscheduled t.
Proof.
  intros H. unfold isUnscheduled.
  change (status t') with (status (ownFields t')).
  change (scheduledDate t') with (scheduledDate (ownFields t')).
  by rewrite H.
Qed.

(** A task of the backlog that a batch leaves alone is still in the backlog
    afterwards, with the same fields of its own. *)
Lemma frame_keeps_unscheduled (keys : list (string * string))
    (ps ps' : list Project) (e : QueueEntry) :
  Frame keys ps ps' → e ∈ unscheduledTasks ps → entryKey e ∉ keys →
  ∃ e', e' ∈ unscheduledTasks ps' ∧ entryKey e' = entryKey e ∧
        ownFields (task e') = ownFields (task e).
Proof.
  intros Hframe He Hkey.
  apply elem_of_unscheduledTasks in He as (Hp & Ht & Hu).
  apply list_elem_of_lookup in Hp as [a Ha].
  destruct (Forall2_lookup_l _ _ _ _ _ Hframe Ha) as (p' & Ha' & Hid & Hnodes).
  apply list_elem_of_lookup in Ht as [b Hb].
  destruct (Forall2_lookup_l _ _ _ _ _ Hnodes Hb) as (t' & Hb' & Htid & Hown).
  specialize (Hown Hkey).
  exists (mkEntry p' t'). split; [|split].
  - apply elem_of_unscheduledTasks. cbn [project task]. split; [|split].
    + by eapply list_elem_of_lookup_2.
    + by eapply list_elem_of_lookup_2.
    + by rewrite (isUnscheduled_ownFields _ _ Hown).
  - unfold entryKey. cbn [project task]. by rewrite Hid, Htid.
  - done.
Qed.

(** * The auto-scheduler *)

(** C2. Greedy first-fit placement order. The queue lists the projects in
    order and each project's tasks in pre-order, keeping the tasks that are
    neither completed nor scheduled. For the task at any position of the
    queue, with the grid as the earlier tasks left it: either no day of the
    horizon has a free candidate start (09:00 to 17:00 minus the duration,
    every 15 minutes) and nothing changes, or the task goes to the first
    free candidate [m] of the first day that has one, the update records
    that day at that minute, and in the state handed to the next task that
    day has a new grid, of 1440 cells again, in which a minute is busy
    exactly when it was busy before or lies in [[m, m + duration)]; the
    grids of the other days are the same. The duration is
    [max(15, estimatedMinutes)]. The whole run is the state reached after
    the last position. *)
Theorem greedy_first_fit_order (tz : Z) (projects : list Project) (days : list Z)
    (i : nat) (e : QueueEntry) :
  unscheduledTasks projects !! i = Some e →
  unscheduledTasks projects
  = flat_map (fun p => mkEntry p <$> List.filter isUnscheduled (preorder (proj_subtasks p)))
      projects ∧
  autoSchedule tz projects days
  = stateBefore tz projects days (length (unscheduledTasks projects)) ∧
  ∃ occupied updates,
    let duration := Z.max 15 (estimatedMinutes (task e)) in
    stateBefore tz projects days i = Returned (occupied, updates) ∧
    Covers tz occupied days ∧ FullDays occupied ∧
    ((NoFit tz occupied days duration ∧
      stateBefore tz projects days (S i) = Returned (occupied, updates))
     ∨
     (∃ j day slots m slots',
         days !! j = Some day ∧ occupied !! dayKey tz day = Some slots ∧
         FirstFit tz occupied days duration j m ∧
         stateBefore tz projects days (S i)
         = Returned
             (<[dayKey tz day := slots']> occupied,
              updates ++ [mkUpdate (proj_id (project e)) (task_id (task e))
                            (setHours tz day 0 m 0 0)]) ∧
         length slots' = 1440%nat ∧
         ∀ x, jsGet slots' x
              = jsGet slots x || bool_decide (m ≤ x < m + duration))).
Proof.
  intros Hi. split; [apply unscheduledTasks_eq|].
  split; [by rewrite stateBefore_end|].
  destruct (step_cases tz projects days i e Hi)
    as (occ & upd & Hst & Hcov & Hfull & Hcase).
  exists occ, upd. cbv zeta. split; [done|]. split; [done|]. split; [done|].
  destruct Hcase as [Hno|(j & day & s & m & Hd & Ho & Hff & Hst')]; [by left|right].
  exists j, day, s, m, (markOccupied s m (durationOf (task e))).
  pose proof Hff as (day2 & s2 & _ & _ & ([Hrange _] & _) & _).
  pose proof (Hfull _ _ Ho) as Hlen.
  destruct (markOccupied_spec s m (durationOf (task e))) as [Hlen' Hget];
    [lia | rewrite Hlen; lia |].
  repeat split; try done. by rewrite Hlen'.
Qed.

(** Scenario of the specification: with 09:00-09:30 busy, the backlog task
    of 20 minutes is tried against the single day of the horizon. *)
Lemma greedy_first_fit_order_witness :
  unscheduledTasks busyMorning !! 0%nat = Some entryA ∧
  (unscheduledTasks busyMorning
   = flat_map (fun p => mkEntry p <$> List.filter isUnscheduled (preorder (proj_subtasks p)))
       busyMorning ∧
   autoSchedule 0 busyMorning [noonOfDay10]
   = stateBefore 0 busyMorning [noonOfDay10] (length (unscheduledTasks busyMorning)) ∧
   ∃ occupied updates,
     let duration := Z.max 15 (estimatedMinutes (task entryA)) in
     stateBefore 0 busyMorning [noonOfDay10] 0 = Returned (occupied, updates) ∧
     Covers 0 occupied [noonOfDay10] ∧ FullDays occupied ∧
     ((NoFit 0 occupied [noonOfDay10] duration ∧
       stateBefore 0 busyMorning [noonOfDay10] 1 = Returned (occupied, updates))
      ∨
      (∃ j day slots m slots',
          [noonOfDay10] !! j = Some day ∧ occupied !! dayKey 0 day = Some slots ∧
          FirstFit 0 occupied [noonOfDay10] duration j m ∧
          stateBefore 0 busyMorning [noonOfDay10] 1
          = Returned
              (<[dayKey 0 day := slots']> occupied,
               updates ++ [mkUpdate (proj_id (project entryA)) (task_id (task entryA))
                             (setHours 0 day 0 m 0 0)]) ∧
          length slots' = 1440%nat ∧
          ∀ x, jsGet slots' x
               = jsGet slots x || bool_decide (m ≤ x < m + duration)))).
Proof.
  split; [reflexivity|].
  apply (greedy_first_fit_order 0 busyMorning [noonOfDay10] 0 entryA).
  reflexivity.
Defined.

(** In that scenario the grid of day 10 has 09:00-09:30 busy when the task
    is tried, and 09:00-09:50 busy afterwards. *)
Example scenario_one_grids :
  stateBefore 0 busyMorning [noonOfDay10] 0
  = Returned
      ({[ 10 := replicate 540 false ++ replicate 30 true ++ replicate 870 false ]}, []) ∧
  stateBefore 0 busyMorning [noonOfDay10] 1
  = Returned
      ({[ 10 := replicate 540 false ++ replicate 50 true ++ replicate 850 false ]},
       [mkUpdate "p" "A" (minuteAt 10 570)]).
Proof. split; vm_compute; reflexivity. Qed.

(** A stage of duration 0 makes the quarter of an hour from 09:00 busy. *)
Example zero_estimate_claims_a_quarter :
  stateBefore 0 stageInBacklog [noonOfDay10] 1
  = Returned
      ({[ 10 := replicate 540 false ++ replicate 15 true ++ replicate 885 false ]},
       [mkUpdate "p" "S" (minuteAt 10 540)]).
Proof. vm_compute. reflexivity. Qed.

(** The run of that scenario records 09:30 for the task. *)
Example scenario_one_places_at_0930 :
  ∃ occupied,
    autoSchedule 0 busyMorning [noonOfDay10]
    = Returned (occupied, [mkUpdate "p" "A" (minuteAt 10 570)]).
Proof. eexists. vm_compute. reflexivity. Qed.

(** A stage of duration 0 takes the quarter of an hour at 09:00, and its
    child, next in pre-order, the following one. *)
Example zero_estimate_takes_a_quarter :
  ∃ occupied,
    autoSchedule 0 stageInBacklog [noonOfDay10]
    = Returned (occupied, [mkUpdate "p" "S" (minuteAt 10 540);
                           mkUpdate "p" "T" (minuteAt 10 555)]).
Proof. eexists. vm_compute. reflexivity. Qed.

(** The run as a whole: it returns, and its updates are those of the tasks
    it placed. *)
Lemma autoSchedule_returns (tz : Z) (projects : list Project) (days : list Z) :
  ∃ occupied updates,
    autoSchedule tz projects days = Returned (occupied, updates) ∧
    ∀ u, u ∈ updates ↔ ∃ i e, PlacedAt tz projects days i e u.
Proof.
  destruct (stateBefore_ok tz projects days (length (unscheduledTasks projects)))
    as (occ & upd & Hst & _).
  exists occ, upd. split.
  { by rewrite <- (stateBefore_end tz projects days
                     (length (unscheduledTasks projects))) by lia. }
  intros u. rewrite (updates_placed tz projects days _ occ upd Hst). split.
  - intros (i & e & _ & Hp). by exists i, e.
  - intros (i & e & Hp). exists i, e. split; [|done].
    destruct Hp as [Hi _]. by apply lookup_lt_Some in Hi.
Qed.

Lemma placed_key (tz : Z) (projects : list Project) (days : list Z)
    (i : nat) (e : QueueEntry) (u : Update) :
  PlacedAt tz projects days i e u → updateKey u = entryKey e.
Proof.
  intros Hp.
  destruct (placed_facts tz projects days i e u Hp)
    as (o & up & j & day & s & m & _ & _ & _ & _ & _ & _ & -> & _).
  done.
Qed.

Section NoOverlap.

Variable tz : Z.
Variable projects : list Project.
Variable days : list Z.

(** Once a task is placed, its minutes stay busy for the rest of the run. *)
Lemma placed_marked (i i' : nat) (e : QueueEntry) (u : Update)
    (occ' : gmap Z Grid) (upd' : list Update) :
  PlacedAt tz projects days i e u → (i < i')%nat →
  stateBefore tz projects days i' = Returned (occ', upd') →
  ∃ s', occ' !! dayKey tz (date u) = Some s' ∧
        ∀ x, startMinOf tz (date u) ≤ x
               < startMinOf tz (date u) + durationOf (task e) →
             jsGet s' x = true.
Proof.
  intros Hp Hlt Hst'.
  destruct (placed_facts tz projects days i e u Hp)
    as (o & up & j & day & s & m & Hst & Hcov & Hfull & Hj & Hs & Hff & -> & Hnext).
  destruct Hff as (day' & s0 & Hj' & Hs0 & (Hcand & _) & _).
  assert (day' = day) as -> by congruence.
  assert (s0 = s) as -> by congruence.
  pose proof (durationOf_min (task e)) as Hd.
  destruct (placed_date tz day m _ Hcand ltac:(lia)) as [Hday Hmin].
  cbn [date]. rewrite Hday, Hmin.
  destruct (claim_spec tz o days (dayKey tz day) s (durationOf (task e)) m)
    as (_ & _ & _ & Hmarked); try done; [lia|].
  destruct (stateBefore_grows tz projects days (S i) i' _ occ' _ upd'
              ltac:(lia) Hnext Hst') as [Hg _].
  destruct (Hg (dayKey tz day) (markOccupied s m (durationOf (task e))))
    as (s' & Hs' & Hc); [apply lookup_insert_eq|].
  exists s'. split; [done|]. intros x Hx. by apply Hc, Hmarked.
Qed.

(** A task is placed on minutes that are free when it is tried. *)
Lemma placed_free (i : nat) (e : QueueEntry) (u : Update) :
  PlacedAt tz projects days i e u →
  ∃ occ upd s day,
    stateBefore tz projects days i = Returned (occ, upd) ∧
    day ∈ days ∧ dayKey tz (date u) = dayKey tz day ∧
    occ !! dayKey tz (date u) = Some s ∧
    540 ≤ startMinOf tz (date u) ∧
    startMinOf tz (date u) + durationOf (task e) ≤ 1020 ∧
    FreeAt s (startMinOf tz (date u)) (durationOf (task e)).
Proof.
  intros Hp.
  destruct (placed_facts tz projects days i e u Hp)
    as (o & up & j & day & s & m & Hst & Hcov & Hfull & Hj & Hs & Hff & -> & Hnext).
  destruct Hff as (day' & s0 & Hj' & Hs0 & (Hcand & Hfree & _) & _).
  assert (day' = day) as -> by congruence.
  assert (s0 = s) as -> by congruence.
  pose proof (durationOf_min (task e)) as Hd.
  destruct (placed_date tz day m _ Hcand ltac:(lia)) as [Hday Hmin].
  cbn [date]. rewrite Hday, Hmin. destruct Hcand as [Hr _].
  exists o, up, s, day. split; [done|].
  split; [by eapply list_elem_of_lookup_2|].
  split; [done|]. split; [done|]. split; [lia|]. split; [lia | done].
Qed.

Lemma placed_in_order (i1 i2 : nat) (e1 e2 : QueueEntry) (u1 u2 : Update) :
  (i1 < i2)%nat →
  PlacedAt tz projects days i1 e1 u1 → PlacedAt tz projects days i2 e2 u2 →
  dayKey tz (date u1) = dayKey tz (date u2) →
  ¬ Intersects (startMinOf tz (date u1)) (durationOf (task e1))
               (startMinOf tz (date u2)) (durationOf (task e2)).
Proof.
  intros Hlt Hp1 Hp2 Hday (x & Hx1 & Hx2).
  destruct (placed_free i2 e2 u2 Hp2)
    as (occ & upd & s & day & Hst & _ & _ & Hs & _ & _ & Hfree).
  destruct (placed_marked i1 i2 e1 u1 occ upd Hp1 Hlt Hst) as (s' & Hs' & Hm).
  rewrite Hday, Hs in Hs'. injection Hs' as <-.
  specialize (Hm x Hx1). specialize (Hfree x Hx2). congruence.
Qed.

(** The cells of a task scheduled beforehand on a horizon day are busy
    throughout the run, up to midnight. *)
Lemma existing_marked (e' : QueueEntry) (d day : Z) (i : nat)
    (occ : gmap Z Grid) (upd : list Update) :
  e' ∈ scheduledTasks projects → scheduledDate (task e') = Some d →
  day ∈ days → dayKey tz d = dayKey tz day →
  stateBefore tz projects days i = Returned (occ, upd) →
  ∃ s, occ !! dayKey tz d = Some s ∧
       ∀ x, startMinOf tz d ≤ x < startMinOf tz d + estimatedMinutes (task e') →
            x < 1440 → jsGet s x = true.
Proof.
  intros He' Hd Hday Hk Hst.
  destruct (fillOccupied_spec tz (scheduledTasks projects) (initOccupied tz days)
              (initOccupied_full tz days)) as [_ Hcells].
  specialize (Hcells (dayKey tz d)). rewrite initOccupied_lookup in Hcells.
  rewrite decide_True in Hcells by (rewrite Hk; by apply list_elem_of_fmap_2).
  destruct Hcells as (s0 & Hs0 & Hc0).
  destruct (stateBefore_grows tz projects days 0 i _ occ _ upd
              ltac:(lia) (stateBefore_O tz projects days) Hst) as [Hg _].
  destruct (Hg _ _ Hs0) as (s & Hs & Hc).
  exists s. split; [done|]. intros x Hx H1440. apply Hc, Hc0. right.
  exists e'. split; [done|]. exists d. split; [done|].
  split; [|split; [done | lia]].
  apply elem_of_scheduledTasks in He' as (_ & _ & Hsch).
  unfold isScheduled in Hsch. rewrite Hd in Hsch.
  apply andb_true_iff in Hsch as [_ Hsch]. cbn [truthyZ] in Hsch.
  intros ->. done.
Qed.

End NoOverlap.

(** C3. Working-hours containment. The run returns, every update it records
    belongs to a task it placed, and for every task placed the recorded
    instant has a minute of the day of at least 540 and, with the effective
    duration added, of at most 1020. *)
Theorem working_hours_containment (tz : Z) (projects : list Project) (days : list Z) :
  ∃ occupied updates,
    autoSchedule tz projects days = Returned (occupied, updates) ∧
    (∀ u, u ∈ updates ↔ ∃ i e, PlacedAt tz projects days i e u) ∧
    ∀ i e u,
      PlacedAt tz projects days i e u →
      updateKey u = entryKey e ∧
      (∃ day, day ∈ days ∧ dayKey tz (date u) = dayKey tz day) ∧
      540 ≤ startMinOf tz (date u) ∧
      startMinOf tz (date u) + Z.max 15 (estimatedMinutes (task e)) ≤ 1020.
Proof.
  destruct (autoSchedule_returns tz projects days) as (occ & upd & Hrun & Hupd).
  exists occ, upd. split; [exact Hrun|]. split; [exact Hupd|].
  intros i e u Hp. split; [by eapply placed_key|].
  destruct (placed_free tz projects days i e u Hp)
    as (_ & _ & _ & day & _ & Hin & Hday & _ & Hlo & Hhi & _).
  split; [by exists day|]. split; [exact Hlo|]. exact Hhi.
Qed.

(** C1, as the code has it. Within one run, the intervals of two tasks the
    run places on the same day do not intersect, and the interval of a task
    it places intersects the interval of no task that was scheduled
    beforehand on that day and is not completed; the tasks placed last for
    their effective duration [max(15, estimatedMinutes)], the tasks scheduled
    beforehand for their stored [estimatedMinutes]. *)
Theorem no_overlap_within_run (tz : Z) (projects : list Project) (days : list Z) :
  NoOverlapAmongPlaced tz projects days ∧
  NoOverlapWithExisting tz estimatedMinutes projects days.
Proof.
  split.
  - intros i1 i2 e1 e2 u1 u2 Hne Hp1 Hp2 Hday.
    destruct (Nat.lt_total i1 i2) as [Hlt|[->|Hgt]]; [|done|].
    + by eapply placed_in_order.
    + intros (x & Hx1 & Hx2).
      eapply (placed_in_order tz projects days i2 i1); eauto.
      by exists x.
  - intros i e u e' d Hp He' Hd Hday (x & Hx & Hx').
    destruct (placed_free tz projects days i e u Hp)
      as (occ & upd & s & day & Hst & Hin & Hk & Hs & _ & Hend & Hfree).
    destruct (existing_marked tz projects days e' d day i occ upd He' Hd Hin
                ltac:(congruence) Hst) as (s' & Hs' & Hm).
    rewrite Hday, Hs in Hs'. injection Hs' as <-.
    specialize (Hm x Hx' ltac:(lia)). specialize (Hfree x Hx). congruence.
Qed.

(** C1 as stated fails when the tasks scheduled beforehand are also taken
    with the effective duration: a stage of duration 0 scheduled at 09:00
    leaves its cells free, and the 15-minute task of the backlog is placed
    at 09:00 as well. *)
Lemma no_overlap_effective_duration_fails :
  ¬ (NoOverlapAmongPlaced 0 stageAtNine [noonOfDay10] ∧
     NoOverlapWithExisting 0 durationOf stageAtNine [noonOfDay10]).
Proof.
  intros [_ H].
  apply (H 0%nat
           (mkEntry (sampleProject "p"
                       [sampleTask "D" TODO 0 (Some (minuteAt 10 540)) [];
                        sampleTask "X" TODO 15 None []])
                    (sampleTask "X" TODO 15 None []))
           (mkUpdate "p" "X" (minuteAt 10 540))
           (mkEntry (sampleProject "p"
                       [sampleTask "D" TODO 0 (Some (minuteAt 10 540)) [];
                        sampleTask "X" TODO 15 None []])
                    (sampleTask "D" TODO 0 (Some (minuteAt 10 540)) []))
           (minuteAt 10 540)).
  - split; [reflexivity|]. eexists _, _, _. split; vm_compute; reflexivity.
  - apply list_elem_of_In. vm_compute. by left.
  - reflexivity.
  - reflexivity.
  - exists 540. vm_compute. repeat split; discriminate.
Qed.

(** * The occupancy grid of a run *)

Lemma fillWrites_range (fuel : nat) (i endMin x : Z) :
  x ∈ fillWrites fuel i endMin → i ≤ x < endMin ∧ x ≤ 1439.
Proof.
  revert i. induction fuel as [|fuel IH]; intros i.
  - cbn [fillWrites]. intros H. by apply elem_of_nil in H.
  - cbn [fillWrites]. change (24 * 60) with 1440.
    destruct (Z.ltb_spec i endMin); cbn [andb];
      [|intros Hx; by apply elem_of_nil in Hx].
    destruct (Z.ltb_spec i 1440); [|intros Hx; by apply elem_of_nil in Hx].
    intros [->|Hin]%elem_of_cons; [lia|].
    specialize (IH _ Hin). lia.
Qed.

(** C5. Occupancy marking is clamped at the day boundary. A grid exists
    exactly for the days of the horizon and keeps its 1440 cells; a cell of
    day [k] is busy exactly when a scheduled, non-completed task of that
    same day has it in [[start, start + duration)] below 1440, so a task that
    runs past midnight marks nothing on the next day; and every index the
    fill loop writes lies between the start minute of the task, which is
    not negative, and 1439. *)
Theorem occupancy_clamped_at_day_end (tz : Z) (projects : list Project)
    (days : list Z) (k : Z) (slots : Grid) :
  fillOccupied tz (scheduledTasks projects) (initOccupied tz days) !! k = Some slots →
  k ∈ dayKey tz <$> days ∧
  length slots = 1440%nat ∧
  (∀ j, jsGet slots j = true ↔
        ∃ e d, e ∈ scheduledTasks projects ∧ status (task e) ≠ COMPLETED ∧
               scheduledDate (task e) = Some d ∧ dayKey tz d = k ∧
               startMinOf tz d ≤ j < startMinOf tz d + estimatedMinutes (task e) ∧
               j ≤ 1439) ∧
  (∀ e d g,
      scheduledDate (task e) = Some d →
      let startMin := startMinOf tz d in
      let endMin := startMin + estimatedMinutes (task e) in
      fillLoop fillFuel startMin endMin g
      = fold_left (fun g x => jsSet g x true) (fillWrites fillFuel startMin endMin) g ∧
      fillLoop (S fillFuel) startMin endMin g = fillLoop fillFuel startMin endMin g ∧
      ∀ x, x ∈ fillWrites fillFuel startMin endMin →
           0 ≤ startMin ≤ x ∧ x < endMin ∧ x ≤ 1439).
Proof.
  intros Hk.
  destruct (fillOccupied_spec tz (scheduledTasks projects) (initOccupied tz days)
              (initOccupied_full tz days)) as [Hfull Hcells].
  specialize (Hcells k). rewrite initOccupied_lookup in Hcells.
  destruct (decide (k ∈ dayKey tz <$> days)) as [Hin|Hnin]; [|congruence].
  destruct Hcells as (s' & Hs' & Hc). rewrite Hk in Hs'. injection Hs' as <-.
  split; [done|]. split; [by eapply Hfull|]. split.
  - intros j. rewrite Hc, jsGet_emptyDay. split.
    + intros [?|(e & He & d & Hd & Hnz & Hday & Hj & H1440)]; [done|].
      exists e, d. split; [done|]. split; [|repeat split; try done; lia].
      apply elem_of_scheduledTasks in He as (_ & _ & Hs).
      unfold isScheduled in Hs. apply andb_true_iff in Hs as [Hs _].
      apply negb_true_iff, bool_decide_eq_false in Hs. done.
    + intros (e & d & He & _ & Hd & Hday & Hj & H1439). right.
      exists e. split; [done|]. exists d. split; [done|].
      split; [|repeat split; try done; lia].
      apply elem_of_scheduledTasks in He as (_ & _ & Hs).
      unfold isScheduled in Hs. rewrite Hd in Hs.
      apply andb_true_iff in Hs as [_ Hs]. cbn [truthyZ] in Hs. intros ->. done.
  - intros e d g Hd startMin endMin.
    pose proof (startMinOf_range tz d) as Hr.
    split; [apply fillLoop_writes|]. split.
    + apply fillLoop_fuel; [unfold startMin; lia|].
      change (Z.of_nat fillFuel) with 1440. unfold startMin. lia.
    + intros x Hx. apply fillWrites_range in Hx. unfold startMin in *. lia.
Qed.

(** A task of two hours at 23:00: within the week around it, the last cell
    of its day is busy and the first cell of the next day is free. *)
Lemma occupancy_clamped_at_day_end_witness :
  ∃ slots,
    fillOccupied 0 (scheduledTasks lateEvening)
      (initOccupied 0 (daysToSchedule 0 WEEK noonOfDay10)) !! 11 = Some slots ∧
    length slots = 1440%nat ∧ jsGet slots 0 = false.
Proof.
  eexists. split; [vm_compute; reflexivity|].
  match goal with
  | |- length ?s = _ ∧ _ =>
      pose proof (occupancy_clamped_at_day_end 0 lateEvening
                    (daysToSchedule 0 WEEK noonOfDay10) 11 s eq_refl)
        as (_ & Hlen & Hcells & _)
  end.
  split; [exact Hlen|].
  destruct (jsGet _ 0) eqn:Hget; [|reflexivity].
  apply Hcells in Hget as (e & d & He & _ & Hd & Hday & Hj & _).
  apply list_elem_of_In in He. vm_compute in He.
  destruct He as [<-|[]]. vm_compute in Hd. injection Hd as <-.
  vm_compute in Hday. discriminate.
Defined.

(** C4. Completed-task exclusion. A completed task is not among the
    scheduled tasks the grid is built from; every busy cell of the grid of
    its day comes from a scheduled task that is not completed; so its former
    slot is free unless such a task covers part of it. And the scheduler does
    reuse such a slot: with a completed task at 09:00 for 30 minutes, the
    backlog task of 30 minutes is placed at that very instant. *)
Theorem completed_task_exclusion :
  (∀ (tz : Z) (projects : list Project) (days : list Z) (p : Project)
     (c : SubTask) (d : Z) (slots : Grid),
      p ∈ projects → c ∈ preorder (proj_subtasks p) →
      status c = COMPLETED → scheduledDate c = Some d →
      (fillOccupied tz (scheduledTasks projects) (initOccupied tz days) !! dayKey tz d
       = Some slots) →
      (mkEntry p c ∉ scheduledTasks projects) ∧
      (∀ j, jsGet slots j = true →
            ∃ e, e ∈ scheduledTasks projects ∧ status (task e) ≠ COMPLETED ∧
                 Marks tz (task e) (dayKey tz d) j) ∧
      ((∀ e j, e ∈ scheduledTasks projects → Marks tz (task e) (dayKey tz d) j →
               ¬ (startMinOf tz d ≤ j < startMinOf tz d + estimatedMinutes c)) →
       FreeAt slots (startMinOf tz d) (estimatedMinutes c))) ∧
  (∃ occupied,
      autoSchedule 0 completedAtNine [noonOfDay10]
      = Returned (occupied, [mkUpdate "p" "N" (minuteAt 10 540)])).
Proof.
  split; [|eexists; vm_compute; reflexivity].
  intros tz projects days p c d slots Hp Hc Hst Hd Hk.
  assert (Hnc : ∀ e, e ∈ scheduledTasks projects → status (task e) ≠ COMPLETED).
  { intros e He. apply elem_of_scheduledTasks in He as (_ & _ & Hs).
    unfold isScheduled in Hs. apply andb_true_iff in Hs as [Hs _].
    by apply negb_true_iff, bool_decide_eq_false in Hs. }
  assert (Hbusy : ∀ j, jsGet slots j = true →
            ∃ e, e ∈ scheduledTasks projects ∧ status (task e) ≠ COMPLETED ∧
                 Marks tz (task e) (dayKey tz d) j).
  { destruct (fillOccupied_spec tz (scheduledTasks projects) (initOccupied tz days)
                (initOccupied_full tz days)) as [_ Hcells].
    specialize (Hcells (dayKey tz d)). rewrite initOccupied_lookup in Hcells.
    destruct (decide _); [|congruence].
    destruct Hcells as (s' & Hs' & Hcell). rewrite Hk in Hs'. injection Hs' as <-.
    intros j Hj. apply Hcell in Hj as [Hj|(e0 & He0 & Hm)].
    - by rewrite jsGet_emptyDay in Hj.
    - exists e0. split; [done|]. split; [by apply Hnc | done]. }
  split; [|split; [exact Hbusy|]].
  - intros Hin. by apply Hnc in Hin.
  - intros Hnone x Hx. destruct (jsGet slots x) eqn:Hget; [|done].
    destruct (Hbusy x Hget) as (e & He & _ & Hm). by destruct (Hnone e x He Hm).
Qed.

(** The sample with the completed task at 09:00: its slot is free in the
    grid of its day. *)
Lemma completed_task_exclusion_witness :
  ∃ slots,
    fillOccupied 0 (scheduledTasks completedAtNine) (initOccupied 0 [noonOfDay10])
      !! dayKey 0 (minuteAt 10 540) = Some slots ∧
    FreeAt slots 540 30.
Proof.
  eexists. split; [vm_compute; reflexivity|].
  match goal with
  | |- FreeAt ?s _ _ =>
      pose proof (proj1 completed_task_exclusion 0 completedAtNine [noonOfDay10]
                    (sampleProject "p"
                       [sampleTask "C" COMPLETED 30 (Some (minuteAt 10 540)) [];
                        sampleTask "N" TODO 30 None []])
                    (sampleTask "C" COMPLETED 30 (Some (minuteAt 10 540)) [])
                    (minuteAt 10 540) s) as H
  end.
  destruct H as (_ & _ & Hfree).
  - by left.
  - by left.
  - reflexivity.
  - reflexivity.
  - reflexivity.
  - apply Hfree. intros e j He. apply list_elem_of_In in He. by vm_compute in He.
Defined.

(** * Tasks that fit nowhere *)

Lemma handleAutoSchedule_eq (tz : Z) (viewMode : CalendarViewMode)
    (currentDate : Z) (projects : list Project) :
  ∃ occupied updates,
    autoSchedule tz projects (daysToSchedule tz viewMode currentDate)
    = Returned (occupied, updates) ∧
    handleAutoSchedule tz viewMode currentDate projects
    = Returned (bulkApply projects updates).
Proof.
  destruct (autoSchedule_returns tz projects (daysToSchedule tz viewMode currentDate))
    as (occ & upd & Hrun & _).
  exists occ, upd. split; [done|]. unfold handleAutoSchedule. by rewrite Hrun.
Qed.

Lemma firstFit_not_noFit (tz : Z) (occupied : gmap Z Grid) (days : list Z)
    (duration : Z) (j : nat) (m : Z) :
  FirstFit tz occupied days duration j m → ¬ NoFit tz occupied days duration.
Proof.
  intros (day & slots & Hj & Hs & (Hcand & Hfree & _) & _) Hno.
  apply (Hno day slots (list_elem_of_lookup_2 _ _ _ Hj) Hs m Hcand Hfree).
Qed.

(** C6. Infeasible placement is silent. Let the identities (project,
    task) of the queue be pairwise distinct. If, when its turn comes, a task
    of the queue has no free candidate start on any day of the horizon, then
    the run still returns; it is not placed and none of the updates carries
    its identity; and after the updates are applied the task is in the
    backlog again, with all of its own fields, the scheduled instant among
    them, as before. *)
Theorem infeasible_placement_is_silent (tz : Z) (projects : list Project)
    (days : list Z) (i : nat) (e : QueueEntry)
    (occupied : gmap Z Grid) (updates : list Update) :
  NoDup (entryKey <$> unscheduledTasks projects) →
  unscheduledTasks projects !! i = Some e →
  stateBefore tz projects days i = Returned (occupied, updates) →
  NoFit tz occupied days (Z.max 15 (estimatedMinutes (task e))) →
  ∃ occupied' updates',
    autoSchedule tz projects days = Returned (occupied', updates') ∧
    stateBefore tz projects days (S i) = Returned (occupied, updates) ∧
    (∀ u, ¬ PlacedAt tz projects days i e u) ∧
    (∀ u, u ∈ updates' → updateKey u ≠ entryKey e) ∧
    ∃ e', e' ∈ unscheduledTasks (bulkApply projects updates') ∧
          entryKey e' = entryKey e ∧
          ownFields (task e') = ownFields (task e) ∧
          scheduledDate (task e') = scheduledDate (task e) ∧
          truthyZ (scheduledDate (task e')) = false.
Proof.
  intros Hnodup Hi Hst Hno.
  destruct (autoSchedule_returns tz projects days) as (occ' & upd' & Hrun & Hupd).
  exists occ', upd'. split; [done|].
  assert (Hnot : ∀ u, ¬ PlacedAt tz projects days i e u).
  { intros u Hp.
    destruct (placed_facts tz projects days i e u Hp)
      as (o & up & j & day & s & m & Hst' & _ & _ & _ & _ & Hff & _).
    rewrite Hst in Hst'. injection Hst' as <- <-.
    by eapply firstFit_not_noFit. }
  assert (Hkeys : ∀ u, u ∈ upd' → updateKey u ≠ entryKey e).
  { intros u Hu Hkey. apply Hupd in Hu as (i' & e' & Hp).
    pose proof (placed_key tz projects days i' e' u Hp) as Hk.
    pose proof Hp as (Hi' & _).
    assert (i' = i) as ->.
    { eapply NoDup_lookup; [exact Hnodup | |].
      - rewrite list_lookup_fmap, Hi'. cbn. by rewrite <- Hk, Hkey.
      - by rewrite list_lookup_fmap, Hi. }
    assert (e' = e) as -> by congruence. by eapply Hnot. }
  split.
  { destruct (step_cases tz projects days i e Hi)
      as (o & up & Ho & _ & _ & [[_ Hs]|(j & day & s & m & _ & _ & Hff & _)]).
    - rewrite Hst in Ho. by injection Ho as <- <-.
    - rewrite Hst in Ho. injection Ho as <- <-.
      by destruct (firstFit_not_noFit _ _ _ _ _ _ Hff). }
  split; [exact Hnot|]. split; [exact Hkeys|].
  destruct (frame_keeps_unscheduled (updateKey <$> upd') projects
              (bulkApply projects upd') e) as (e' & He' & Hk & Hown).
  - apply bulkApply_frame.
  - by eapply list_elem_of_lookup_2.
  - intros (u & Hku & Hu)%list_elem_of_fmap. by eapply Hkeys.
  - exists e'. split; [done|]. split; [done|]. split; [done|].
    assert (Hsd : scheduledDate (task e') = scheduledDate (task e)).
    { change (scheduledDate (ownFields (task e')) = scheduledDate (ownFields (task e))).
      by rewrite Hown. }
    split; [done|]. rewrite Hsd.
    apply list_elem_of_lookup_2, elem_of_unscheduledTasks in Hi as (_ & _ & Hu).
    unfold isUnscheduled in Hu. apply andb_true_iff in Hu as [_ Hu].
    by apply negb_true_iff in Hu.
Qed.

(** Scenario of the specification: the day is booked from 09:00 to 17:00 and
    the task of 30 minutes stays in the backlog. *)
Lemma infeasible_placement_is_silent_witness :
  NoDup (entryKey <$> unscheduledTasks fullyBooked) ∧
  unscheduledTasks fullyBooked !! 0%nat = Some entryB ∧
  stateBefore 0 fullyBooked [noonOfDay10] 0 = Returned (bookedGrid, []) ∧
  NoFit 0 bookedGrid [noonOfDay10] (Z.max 15 (estimatedMinutes (task entryB))) ∧
  ∃ occupied' updates',
    autoSchedule 0 fullyBooked [noonOfDay10] = Returned (occupied', updates') ∧
    stateBefore 0 fullyBooked [noonOfDay10] 1 = Returned (bookedGrid, []) ∧
    (∀ u, ¬ PlacedAt 0 fullyBooked [noonOfDay10] 0 entryB u) ∧
    (∀ u, u ∈ updates' → updateKey u ≠ entryKey entryB) ∧
    ∃ e', e' ∈ unscheduledTasks (bulkApply fullyBooked updates') ∧
          entryKey e' = entryKey entryB ∧
          ownFields (task e') = ownFields (task entryB) ∧
          scheduledDate (task e') = scheduledDate (task entryB) ∧
          truthyZ (scheduledDate (task e')) = false.
Proof.
  assert (Hnodup : NoDup (entryKey <$> unscheduledTasks fullyBooked)).
  { vm_compute. apply NoDup_singleton. }
  assert (Hno : NoFit 0 bookedGrid [noonOfDay10]
                  (Z.max 15 (estimatedMinutes (task entryB)))).
  { assert (Hcov : Covers 0 bookedGrid [noonOfDay10]).
    { intros day Hin. apply list_elem_of_singleton in Hin as ->.
      vm_compute. by eexists. }
    pose proof (findSlot_spec 0 bookedGrid [noonOfDay10] 30 ltac:(lia) Hcov) as H.
    assert (Hcomp : findSlot 0 bookedGrid [noonOfDay10] 30 = Returned None)
      by (vm_compute; reflexivity).
    rewrite Hcomp in H. exact H. }
  split; [exact Hnodup|]. split; [reflexivity|]. split; [reflexivity|].
  split; [exact Hno|].
  exact (infeasible_placement_is_silent 0 fullyBooked [noonOfDay10] 0 entryB
           bookedGrid [] Hnodup eq_refl eq_refl Hno).
Defined.

(** * Interactive placement *)

Lemma withProjSubtasks_same (p : Project) : withProjSubtasks p (proj_subtasks p) = p.
Proof. by destruct p. Qed.

Lemma spread_clearSchedule (t : SubTask) :
  scheduledDate t = None → spread t clearSchedule = t.
Proof. destruct t. cbn. by intros ->. Qed.

Lemma spread_setEstimate (t : SubTask) (m : Z) :
  spread t (setEstimate m) = withEstimatedMinutes t m.
Proof. by destruct t. Qed.

Lemma withScheduledDate_only (t : SubTask) (ts : option Z) :
  scheduledDate (withScheduledDate t ts) = ts ∧
  withScheduledDate (withScheduledDate t ts) (scheduledDate t) = t.
Proof. by destruct t. Qed.

Lemma withEstimatedMinutes_only (t : SubTask) (m : Z) :
  estimatedMinutes (withEstimatedMinutes t m) = m ∧
  scheduledDate (withEstimatedMinutes t m) = scheduledDate t ∧
  withEstimatedMinutes (withEstimatedMinutes t m) (estimatedMinutes t) = t.
Proof. by destruct t. Qed.

(** C7. Drag-to-schedule is an unconditional overwrite. Whatever the
    projects hold, a drop of the payload [(pid, tid)] on the cell of hour
    [hour] of a day makes the task the payload refers to the same task with
    its scheduled instant set to that day at [hour]:00:00.000, and a drop on
    the month cell of day [d] sets it to local midnight of [d]; restoring the
    former scheduled instant gives the former task back, so no other field
    changes. *)
Theorem drop_overwrites_schedule (tz : Z) (projects : list Project)
    (pid tid : string) (day hour d : Z) :
  0 ≤ hour < 24 →
  let atHour := setHours tz day hour 0 0 0 in
  lookupTask (dropOnHourCell tz projects (Some (pid, tid)) day hour) pid tid
  = (fun t => withScheduledDate t (Some atHour)) <$> lookupTask projects pid tid ∧
  dayKey tz atHour = dayKey tz day ∧
  (atHour + tz) mod msPerDay = hour * msPerHour ∧
  lookupTask (dropOnMonthCell tz projects (Some (pid, tid)) d) pid tid
  = (fun t => withScheduledDate t (Some (dateOfDay tz d))) <$> lookupTask projects pid tid ∧
  dayKey tz (dateOfDay tz d) = d ∧
  (dateOfDay tz d + tz) mod msPerDay = 0 ∧
  ∀ t ts, scheduledDate (withScheduledDate t ts) = ts ∧
          withScheduledDate (withScheduledDate t ts) (scheduledDate t) = t.
Proof.
  intros Hh atHour. split; [apply lookupTask_handleScheduleTask|].
  split.
  { apply dayKey_setHours. unfold msPerHour, msPerMinute, msPerDay. lia. }
  split.
  { unfold atHour, setHours. generalize (dayKey tz day). intros k.
    replace (k * msPerDay + hour * msPerHour + 0 * msPerMinute + 0 * 1000 + 0 - tz + tz)
      with (hour * msPerHour + k * msPerDay) by lia.
    rewrite Z_mod_plus_full. apply Z.mod_small. unfold msPerHour, msPerDay. lia. }
  split; [apply lookupTask_handleScheduleTask|].
  split; [apply dayKey_dateOfDay|].
  split; [apply dateOfDay_midnight|].
  apply withScheduledDate_only.
Qed.

(** Dropping the backlog task on the cell where the stage already sits:
    both then hold the same instant. *)
Lemma drop_overwrites_schedule_witness :
  0 ≤ 9 < 24 ∧
  lookupTask (dropOnHourCell 0 stageAtNine (Some ("p", "X")) noonOfDay10 9) "p" "X"
  = Some (sampleTask "X" TODO 15 (Some (minuteAt 10 540)) []) ∧
  lookupTask (dropOnHourCell 0 stageAtNine (Some ("p", "X")) noonOfDay10 9) "p" "D"
  = Some (sampleTask "D" TODO 0 (Some (minuteAt 10 540)) []).
Proof.
  split; [lia|]. split; [|reflexivity].
  destruct (drop_overwrites_schedule 0 stageAtNine "p" "X" noonOfDay10 9 10
              ltac:(lia)) as (Hdrop & _).
  rewrite Hdrop. reflexivity.
Defined.

(** C9. Idempotence of unschedule. If every task the payload can refer to
    (identity [tid] in a project of identity [pid]) has no scheduled instant,
    the drop on the backlog leaves the whole state as it is. *)
Theorem unschedule_is_idempotent (projects : list Project) (pid tid : string) :
  (∀ p t, p ∈ projects → proj_id p = pid →
          t ∈ flattenTasks (proj_subtasks p) → task_id t = tid →
          scheduledDate t = None) →
  handleUnscheduleDrop projects (Some (pid, tid)) = projects.
Proof.
  intros Hnone. unfold handleUnscheduleDrop, handleUpdateTask.
  induction projects as [|p ps IH]; [done|].
  cbn [map]. f_equal.
  - destruct (String.eqb_spec (proj_id p) pid) as [Heq|Hne]; cbn [negb]; [|done].
    transitivity (withProjSubtasks p (proj_subtasks p)); [|apply withProjSubtasks_same].
    f_equal. apply recursiveUpdate_id. intros t Ht Hid.
    apply spread_clearSchedule. apply (Hnone p t); [by left | done | | done].
    by rewrite flattenTasks_preorder.
  - apply IH. intros q t Hq. apply Hnone. by right.
Qed.

Lemma unschedule_is_idempotent_witness :
  handleUnscheduleDrop busyMorning (Some ("p", "A")) = busyMorning.
Proof.
  apply (unschedule_is_idempotent busyMorning "p" "A").
  intros p t Hp _ Ht Hid.
  apply list_elem_of_singleton in Hp as ->.
  apply list_elem_of_In in Ht. vm_compute in Ht.
  destruct Ht as [<-|[<-|[]]]; [discriminate | reflexivity].
Defined.

(** ** Rounding *)

(** *** Binary64 *)

Lemma round64_comp (x y : Q) : (x == y)%Q → round64 x = round64 y.
Proof. intros H. unfold round64. by rewrite (Qred_complete x y H). Qed.

Lemma jsSub_same (x y : Q) : (x == y)%Q → jsSub x y = 0%Q.
Proof.
  intros H. unfold jsSub. rewrite (round64_comp (x - y) 0); [reflexivity|].
  rewrite H. unfold Qeq. cbn. lia.
Qed.

Lemma jsAdd_zero (x : Q) : jsAdd x 0 = x.
Proof. reflexivity. Qed.

Lemma roundDivEven_one (a : Z) : roundDivEven a 1 = a.
Proof. unfold roundDivEven. by rewrite Z.div_1_r, Z.mod_1_r. Qed.

Lemma Qred_inject_Z (z : Z) : Qred (inject_Z z) = inject_Z z.
Proof.
  pose proof (Qred_correct (inject_Z z)) as Hc.
  pose proof (gcd_Qred (inject_Z z)) as Hg.
  destruct (Qred (inject_Z z)) as [n d]. unfold Qeq in Hc. cbn in Hc, Hg.
  assert (Hd : (Z.pos d | 1)).
  { rewrite <- Hg. apply Z.gcd_greatest; [|reflexivity]. exists z. lia. }
  apply Z.divide_1_r_nonneg in Hd; [|lia].
  unfold inject_Z. f_equal; lia.
Qed.

(** Whole numbers below [2 ^ 53] in magnitude are Numbers. *)
Lemma round64_int (z : Z) :
  Z.abs z < 2 ^ 53 → (round64 (inject_Z z) == inject_Z z)%Q.
Proof.
  intros Hz. unfold round64. rewrite Qred_inject_Z. cbn [inject_Z Qnum Qden].
  destruct (Z.eqb_spec (Z.abs z) 0) as [H0|H0].
  { assert (z = 0) as -> by lia. reflexivity. }
  assert (Hk : floorLog2 (Z.abs z) 1 ≤ 52).
  { unfold floorLog2. cbn [Z.log2]. rewrite Z.sub_0_r.
    assert (Hlog : Z.log2 (Z.abs z) < 53) by (apply Z.log2_lt_pow2; lia).
    pose proof (Z.log2_nonneg (Z.abs z)).
    destruct (Z.leb_spec 0 (Z.log2 (Z.abs z))); [|lia].
    destruct (_ <=? _); lia. }
  set (k := floorLog2 (Z.abs z) 1) in *.
  destruct (Z.leb_spec 0 (Z.max (k - 52) (-1074))) as [He|He].
  - assert (Z.max (k - 52) (-1074) = 0) as -> by lia.
    change (1 * 2 ^ 0) with 1. change (2 ^ 0) with 1.
    rewrite roundDivEven_one, Z.mul_1_r, Z.mul_comm, Z.abs_sgn. reflexivity.
  - rewrite roundDivEven_one. unfold Qeq. cbn [Qnum Qden inject_Z].
    assert (Hp : 0 < 2 ^ (- Z.max (k - 52) (-1074)))
      by (apply Z.pow_pos_nonneg; lia).
    rewrite Z2Pos.id by lia.
    pose proof (Z.abs_sgn z) as Hs. nia.
Qed.

(** *** [Math.round] *)

Lemma Qfloor_unique (x : Q) (q : Z) :
  (inject_Z q <= x)%Q → (x < inject_Z q + 1)%Q → Qfloor x = q.
Proof.
  intros Hle Hlt.
  pose proof (Qfloor_le x) as H1. pose proof (Qlt_floor x) as H2.
  rewrite inject_Z_plus in H2.
  assert (Ha : (inject_Z (Qfloor x) < inject_Z (q + 1))%Q).
  { rewrite inject_Z_plus. change (inject_Z 1) with 1%Q in *. lra. }
  assert (Hb : (inject_Z q < inject_Z (Qfloor x + 1))%Q).
  { rewrite inject_Z_plus. change (inject_Z 1) with 1%Q in *. lra. }
  rewrite <- Zlt_Qlt in Ha, Hb. lia.
Qed.

Lemma Math_round_bounds (x : Q) :
  (inject_Z (Math_round x) <= x + (1 # 2))%Q ∧
  (x + (1 # 2) < inject_Z (Math_round x) + 1)%Q.
Proof.
  unfold Math_round. split; [apply Qfloor_le|].
  pose proof (Qlt_floor (x + (1 # 2))) as H. rewrite inject_Z_plus in H.
  exact H.
Qed.

Lemma Math_round_comp (x y : Q) : (x == y)%Q → Math_round x = Math_round y.
Proof. intros H. unfold Math_round. apply Qfloor_comp. by rewrite H. Qed.

(** Rounding to a whole number of pixels first does not change the number
    of quarters of an hour. *)
Lemma round_then_snap (h : Q) :
  Math_round (inject_Z (Math_round h) / 15) = Math_round (h / 15).
Proof.
  destruct (Math_round_bounds h) as [H1 H2].
  destruct (Math_round_bounds (h / 15)) as [H3 H4].
  set (n := Math_round h) in *. set (q := Math_round (h / 15)) in *.
  change (h / 15)%Q with (h * (1 # 15))%Q in H3, H4.
  assert (Hlo : 15 * q ≤ n + 7).
  { assert (H : (inject_Z (15 * q) < inject_Z (n + 8))%Q).
    { rewrite inject_Z_plus, inject_Z_mult.
      change (inject_Z 15) with 15%Q. change (inject_Z 8) with 8%Q. lra. }
    rewrite <- Zlt_Qlt in H. lia. }
  assert (Hhi : n ≤ 15 * q + 7).
  { assert (H : (inject_Z n < inject_Z (15 * q + 8))%Q).
    { rewrite inject_Z_plus, inject_Z_mult.
      change (inject_Z 15) with 15%Q. change (inject_Z 8) with 8%Q. lra. }
    rewrite <- Zlt_Qlt in H. lia. }
  rewrite Zle_Qle in Hlo, Hhi.
  rewrite inject_Z_plus, inject_Z_mult in Hlo, Hhi.
  change (inject_Z 15) with 15%Q in *. change (inject_Z 7) with 7%Q in *.
  unfold Math_round at 1.
  change (inject_Z n / 15)%Q with (inject_Z n * (1 # 15))%Q.
  apply Qfloor_unique; lra.
Qed.

Lemma snappedMinutes_eq (h : Q) :
  snappedMinutes h = Z.max 15 (Math_round (h / 15) * 15).
Proof. unfold snappedMinutes. cbv zeta. by rewrite round_then_snap. Qed.

Lemma snappedMinutes_comp (x y : Q) :
  (x == y)%Q → snappedMinutes x = snappedMinutes y.
Proof.
  intros H. unfold snappedMinutes. cbv zeta.
  by rewrite (Math_round_comp x y H).
Qed.

Lemma truthyQ_nonzero (h : Q) : ¬ (h == 0)%Q → truthyQ (Some h) = true.
Proof.
  intros H. cbn [truthyQ]. destruct (Qeq_bool h 0) eqn:E; [|done].
  by apply Qeq_bool_iff in E.
Qed.

(** * Resizing *)

(** C8. Resize commit snapping. On release of a resize drag whose candidate
    height is [h] (any truthy height), [onUpdateTask] is called with the
    estimate [max(15, round(h / 15) * 15)] and nothing else; that number is
    at least 15 and a multiple of 15; the task the drag refers to becomes
    the same task with that estimate, its scheduled instant and every other
    field being as before. *)
Theorem resize_commit_snaps (projects : list Project) (st : ResizeState)
    (rt : ResizingTask) (h : Q) :
  resizingTask st = Some rt → currentResizeHeight st = Some h → ¬ (h == 0)%Q →
  let committed := Z.max 15 (Math_round (h / 15) * 15) in
  handleMouseUp st
  = (idle, Some (r_projectId rt, r_taskId rt, setEstimate committed)) ∧
  15 ≤ committed ∧ (15 | committed) ∧
  onMouseEvent (projects, st) MouseUp
  = (handleUpdateTask projects (r_projectId rt) (r_taskId rt) (setEstimate committed),
     idle) ∧
  lookupTask
    (handleUpdateTask projects (r_projectId rt) (r_taskId rt) (setEstimate committed))
    (r_projectId rt) (r_taskId rt)
  = (fun t => withEstimatedMinutes t committed)
      <$> lookupTask projects (r_projectId rt) (r_taskId rt) ∧
  ∀ t, estimatedMinutes (withEstimatedMinutes t committed) = committed ∧
       scheduledDate (withEstimatedMinutes t committed) = scheduledDate t ∧
       withEstimatedMinutes (withEstimatedMinutes t committed) (estimatedMinutes t) = t.
Proof.
  intros Hrt Hcur Hnz committed.
  assert (Hup : handleMouseUp st
                = (idle, Some (r_projectId rt, r_taskId rt, setEstimate committed))).
  { unfold handleMouseUp. rewrite Hrt, Hcur, (truthyQ_nonzero h Hnz).
    cbn [from_option id]. by rewrite snappedMinutes_eq. }
  split; [exact Hup|]. split; [unfold committed; lia|]. split.
  { unfold committed.
    destruct (Z.max_spec 15 (Math_round (h / 15) * 15)) as [[_ ->]|[_ ->]].
    - by exists (Math_round (h / 15)).
    - by exists 1. }
  split.
  { unfold onMouseEvent. cbn [fst snd]. by rewrite Hup. }
  split.
  { rewrite lookupTask_handleUpdateTask by done.
    destruct (lookupTask projects _ _) as [t|]; [|done].
    cbn. by rewrite spread_setEstimate. }
  intros t. apply withEstimatedMinutes_only.
Qed.

(** Scenario of the specification: a candidate height of 52 pixels commits
    45 minutes. *)
Lemma resize_commit_snaps_witness :
  handleMouseUp (mkResizeState (Some (mkResizing "p" "E" 100 30)) (Some 52%Q))
  = (idle, Some ("p", "E", setEstimate 45)).
Proof.
  apply (resize_commit_snaps busyMorning
           (mkResizeState (Some (mkResizing "p" "E" 100 30)) (Some 52%Q))
           (mkResizing "p" "E" 100 30) 52%Q eq_refl eq_refl).
  discriminate.
Defined.

Lemma mouseMoves_keep (ys : list Q) (projects : list Project) (st : ResizeState) :
  ∃ st', fold_left onMouseEvent (MouseMove <$> ys) (projects, st) = (projects, st') ∧
         resizingTask st' = resizingTask st.
Proof.
  revert st. induction ys as [|y ys IH]; intros st.
  - by exists st.
  - rewrite fmap_cons. cbn [fold_left].
    change (onMouseEvent (projects, st) (MouseMove y))
      with (projects, handleMouseMove st y).
    destruct (IH (handleMouseMove st y)) as (st' & Hfold & Hrt).
    exists st'. split; [exact Hfold|]. rewrite Hrt.
    unfold handleMouseMove. destruct (resizingTask st) eqn:E; [|done].
    cbn [resizingTask]. done.
Qed.

(** During a drag the candidate height is at least 15, hence truthy. *)
Lemma handleMouseMove_height (st : ResizeState) (rt : ResizingTask) (y : Q) :
  resizingTask st = Some rt →
  ∃ h, currentResizeHeight (handleMouseMove st y) = Some h ∧ (15 <= h)%Q.
Proof.
  intros Hrt. unfold handleMouseMove. rewrite Hrt. cbn [currentResizeHeight].
  eexists. split; [reflexivity|]. apply Q.le_max_l.
Qed.

(** A press and release without any move commits nothing. *)
Lemma click_commits_nothing (projects : list Project) (p : Project)
    (t : SubTask) (y : Q) :
  onMouseEvent (onMouseEvent (projects, idle) (MouseDownOnHandle y p t)) MouseUp
  = (projects, idle).
Proof. reflexivity. Qed.

(** C10. Resize baseline inflation. With no resize in progress, pressing the
    resize handle of a task whose estimate is between 1 and 29 hands the
    resize logic the height 30 of its block, not the estimate. If the
    pointer then moves, in any way, and the last move is back at the height
    of the press, releasing it calls [onUpdateTask] with an estimate of 30:
    the task the handle belongs to ends with 30 minutes. *)
Theorem resize_baseline_inflation (projects : list Project) (st : ResizeState)
    (p : Project) (t : SubTask) (y0 : Q) (ys : list Q) (yEnd : Q) :
  resizingTask st = None → 0 < estimatedMinutes t < 30 → (yEnd == y0)%Q →
  let pressed := onMouseEvent (projects, st) (MouseDownOnHandle y0 p t) in
  let moved := fold_left onMouseEvent (MouseMove <$> (ys ++ [yEnd])) pressed in
  (durationHeight st t == 30)%Q ∧
  ¬ (durationHeight st t == inject_Z (estimatedMinutes t))%Q ∧
  resizingTask pressed.2
  = Some (mkResizing (proj_id p) (task_id t) y0 (durationHeight st t)) ∧
  onMouseEvent moved MouseUp
  = (handleUpdateTask projects (proj_id p) (task_id t) (setEstimate 30), idle) ∧
  (lookupTask projects (proj_id p) (task_id t) = Some t →
   lookupTask (onMouseEvent moved MouseUp).1 (proj_id p) (task_id t)
   = Some (withEstimatedMinutes t 30)) ∧
  estimatedMinutes (withEstimatedMinutes t 30) ≠ estimatedMinutes t.
Proof.
  intros Hidle Hest Hy pressed moved.
  assert (Hheight : durationHeight st t = inject_Z 30).
  { unfold durationHeight. rewrite Hidle. cbn [andb]. f_equal. lia. }
  assert (Hup : onMouseEvent moved MouseUp
                = (handleUpdateTask projects (proj_id p) (task_id t) (setEstimate 30),
                   idle)).
  { unfold moved, pressed. rewrite fmap_app, fold_left_app.
    change (onMouseEvent (projects, st) (MouseDownOnHandle y0 p t))
      with (projects,
            handleResizeStart st y0 (proj_id p) (task_id t) (durationHeight st t)).
    destruct (mouseMoves_keep ys projects
                (handleResizeStart st y0 (proj_id p) (task_id t) (durationHeight st t)))
      as (st' & Hfold & Hrt).
    rewrite Hfold, fmap_cons, fmap_nil. cbn [fold_left].
    change (onMouseEvent (projects, st') (MouseMove yEnd))
      with (projects, handleMouseMove st' yEnd).
    unfold onMouseEvent. cbn [fst snd].
    unfold handleMouseMove, handleMouseUp. rewrite Hrt.
    cbn [handleResizeStart resizingTask currentResizeHeight startY startHeight
         r_projectId r_taskId from_option id].
    rewrite Hheight, (jsSub_same yEnd y0 Hy), jsAdd_zero.
    assert (Hh : (Qmax 15 (inject_Z 30) == 30)%Q).
    { change (inject_Z 30) with 30%Q. rewrite Q.max_r; lra. }
    rewrite truthyQ_nonzero by (rewrite Hh; discriminate).
    by rewrite (snappedMinutes_comp _ _ Hh). }
  split; [by rewrite Hheight|]. split.
  { rewrite Hheight. intros H. unfold Qeq in H. cbn in H. lia. }
  split; [done|]. split; [exact Hup|]. split.
  - intros Hfound. rewrite Hup. cbn [fst].
    rewrite lookupTask_handleUpdateTask by done. rewrite Hfound.
    cbn. by rewrite spread_setEstimate.
  - destruct (withEstimatedMinutes_only t 30) as [-> _]. lia.
Qed.

(** The task of 20 minutes of the sample, once it sits on the calendar:
    press at y = 100, wander, come back to 100, release. *)
Lemma resize_baseline_inflation_witness :
  onMouseEvent
    (fold_left onMouseEvent (MouseMove <$> ([103%Q; 96%Q] ++ [100%Q]))
       (onMouseEvent (busyMorning, idle)
          (MouseDownOnHandle 100 (project entryA) (task entryA))))
    MouseUp
  = (handleUpdateTask busyMorning "p" "A" (setEstimate 30), idle).
Proof.
  apply (resize_baseline_inflation busyMorning idle (project entryA) (task entryA)
           100 [103%Q; 96%Q] 100 eq_refl).
  - cbn. lia.
  - reflexivity.
Defined.

(** * Further properties of the calendar *)

(** ** The scheduling horizon *)

(** In a zone of constant offset the dates of the horizon are the dates of
    the scheduler. *)
Lemma fixedOffset_dates (tz ts n : Z) :
  localDay tz ts = dayKey tz ts ∧ weekDay tz ts = getDay tz ts ∧
  setMidnight tz ts = setHours tz ts 0 0 0 0 ∧
  addDays tz ts n = ts + n * msPerDay.
Proof.
  unfold localDay, weekDay, setMidnight, addDays, setDateBy, getDay, setHours,
    dayKey, localDay. cbn [fixedOffset LocalTime UTC].
  split; [done|]. split; [done|]. split; lia.
Qed.

Lemma fixedOffset_keepsDay (tz : Z) : KeepsDay tz.
Proof.
  intros x. cbn [fixedOffset LocalTime UTC]. f_equal. lia.
Qed.

Section HorizonFacts.

Variable zone : Zone.
Hypothesis keeps : KeepsDay zone.

Lemma weekDay_range (ts : Z) : 0 ≤ weekDay zone ts < 7.
Proof. unfold weekDay. apply Z.mod_pos_bound. lia. Qed.

Lemma localDay_setDateBy (ts n : Z) :
  localDay zone (setDateBy zone ts n) = localDay zone ts + n.
Proof.
  unfold localDay, setDateBy. rewrite keeps.
  apply Z.div_add. unfold msPerDay. lia.
Qed.

Lemma localDay_setMidnight (ts : Z) :
  localDay zone (setMidnight zone ts) = localDay zone ts.
Proof.
  unfold setMidnight. unfold localDay at 1. rewrite keeps.
  apply Z.div_mul. unfold msPerDay. lia.
Qed.

Lemma localDay_getStartOfWeek (date : Z) :
  localDay zone (getStartOfWeek zone date)
  = localDay zone date - weekDay zone date.
Proof.
  unfold getStartOfWeek. cbv zeta.
  rewrite localDay_setMidnight, localDay_setDateBy. lia.
Qed.

Lemma weekDay_getStartOfWeek (date : Z) :
  weekDay zone (getStartOfWeek zone date) = 0.
Proof.
  unfold weekDay at 1. rewrite localDay_getStartOfWeek. unfold weekDay.
  set (x := localDay zone date + 4).
  replace (localDay zone date - x mod 7 + 4) with (x - x mod 7) by (unfold x; lia).
  pose proof (Z.div_mod x 7 ltac:(lia)) as H.
  replace (x - x mod 7) with (x / 7 * 7) by lia. apply Z_mod_mult.
Qed.

Lemma week_day (date j : Z) :
  0 ≤ j < 7 →
  localDay zone (addDays zone (getStartOfWeek zone date) j)
  = localDay zone date - weekDay zone date + j ∧
  weekDay zone (addDays zone (getStartOfWeek zone date) j) = j.
Proof.
  intros Hj. unfold addDays.
  assert (Hk : localDay zone (setDateBy zone (getStartOfWeek zone date) j)
               = localDay zone date - weekDay zone date + j).
  { by rewrite localDay_setDateBy, localDay_getStartOfWeek. }
  split; [exact Hk|].
  unfold weekDay at 1. rewrite Hk.
  pose proof (weekDay_getStartOfWeek date) as H0. unfold weekDay at 1 in H0.
  rewrite localDay_getStartOfWeek in H0.
  replace (localDay zone date - weekDay zone date + j + 4)
    with (j + (localDay zone date - weekDay zone date + 4)) by lia.
  rewrite Z.add_mod, H0 by lia. rewrite Z.add_0_r, Z.mod_mod by lia.
  apply Z.mod_small. lia.
Qed.

(** When the local midnight that starts the week exists, every day of the
    week is the instant the zone gives for the start of its calendar day. *)
Lemma week_day_instant (date j : Z) :
  let sunday := localDay zone date - weekDay zone date in
  LocalTime zone (UTC zone (sunday * msPerDay)) = sunday * msPerDay →
  addDays zone (getStartOfWeek zone date) j = UTC zone ((sunday + j) * msPerDay).
Proof.
  intros sunday Hexact. unfold addDays, setDateBy. f_equal.
  unfold getStartOfWeek. cbv zeta. unfold setMidnight.
  rewrite localDay_setDateBy.
  replace (localDay zone date + - weekDay zone date) with sunday
    by (unfold sunday; lia).
  rewrite Hexact. lia.
Qed.

End HorizonFacts.

(** X1. The horizon of a run, in a zone where resolving a local time keeps
    its calendar day. In day view the horizon is the current date alone. In
    week and month view it is seven instants whose calendar days are the
    consecutive days from the Sunday on or before the current date; day [j]
    of the list is weekday [j] (0 for Sunday), and when the local midnight
    of that Sunday exists it is the instant the zone gives for local
    midnight of its day, which is a later local time on a day whose
    midnight a clock change skips. In every view the calendar days of the
    horizon are pairwise distinct and the day of the current date is one of
    them. *)
Theorem horizon_of_view (zone : Zone) (viewMode : CalendarViewMode)
    (currentDate : Z) :
  KeepsDay zone →
  let days := daysToSchedule zone viewMode currentDate in
  let sunday := localDay zone currentDate - weekDay zone currentDate in
  localDay zone currentDate ∈ localDay zone <$> days ∧
  NoDup (localDay zone <$> days) ∧
  match viewMode with
  | DAY => days = [currentDate]
  | _ =>
      localDay zone <$> days = seqZ sunday 7 ∧
      0 ≤ weekDay zone currentDate < 7 ∧
      ∀ j d, days !! j = Some d →
             weekDay zone d = Z.of_nat j ∧
             (LocalTime zone (UTC zone (sunday * msPerDay)) = sunday * msPerDay →
              d = UTC zone ((sunday + Z.of_nat j) * msPerDay))
  end.
Proof.
  intros Hkeep days sunday.
  assert (Hweek : viewMode ≠ DAY →
    localDay zone <$> days = seqZ sunday 7 ∧
    ∀ j d, days !! j = Some d →
           weekDay zone d = Z.of_nat j ∧
           (LocalTime zone (UTC zone (sunday * msPerDay)) = sunday * msPerDay →
            d = UTC zone ((sunday + Z.of_nat j) * msPerDay))).
  { intros Hv.
    assert (Hd : days
                 = (fun i => addDays zone (getStartOfWeek zone currentDate) i)
                     <$> [0; 1; 2; 3; 4; 5; 6]).
    { unfold days. by destruct viewMode. }
    rewrite Hd. split.
    - rewrite <- list_fmap_compose.
      change (seqZ sunday 7)
        with ((fun i => Z.of_nat i + sunday) <$> [0; 1; 2; 3; 4; 5; 6]%nat).
      cbn [fmap list_fmap compose].
      rewrite !(fun j H => proj1 (week_day zone Hkeep currentDate j H)) by lia.
      fold sunday.
      repeat (apply (f_equal2 cons); [lia|]). reflexivity.
    - intros j d Hj. apply list_lookup_fmap_Some in Hj as (i & -> & Hi).
      assert (i = Z.of_nat j ∧ 0 ≤ i < 7) as [-> Hr].
      { do 7 (destruct j as [|j]; [injection Hi as <-; lia|]). done. }
      split; [apply (week_day zone Hkeep currentDate (Z.of_nat j) Hr)|].
      apply (week_day_instant zone Hkeep currentDate (Z.of_nat j)). }
  pose proof (weekDay_range zone currentDate) as Hg.
  assert (Hother : viewMode ≠ DAY →
    localDay zone currentDate ∈ localDay zone <$> days ∧
    NoDup (localDay zone <$> days)).
  { intros Hne. destruct (Hweek Hne) as [Hkeys _]. rewrite Hkeys. split.
    - apply elem_of_seqZ. unfold sunday. lia.
    - apply NoDup_seqZ. }
  destruct viewMode.
  - split; [by left|]. split; [apply NoDup_singleton|done].
  - destruct (Hother ltac:(done)) as [? ?]. destruct (Hweek ltac:(done)) as [? ?].
    done.
  - destruct (Hother ltac:(done)) as [? ?]. destruct (Hweek ltac:(done)) as [? ?].
    done.
Qed.

Lemma springForward_keepsDay : KeepsDay springForward.
Proof.
  intros x. cbn [springForward LocalTime UTC]. unfold msPerDay.
  destruct (Z.ltb_spec x 1714093200000) as [Hx|Hx].
  - destruct (Z.ltb_spec (x - 7200000) 1714082400000) as [|Hlate];
      [f_equal; lia|].
    replace (x - 7200000 + 10800000) with (x + 3600000) by lia.
    rewrite <- (Z.div_unique_pos (x + 3600000) 86400000 19839
                  (x + 3600000 - 1714089600000)) by lia.
    rewrite <- (Z.div_unique_pos x 86400000 19839 (x - 1714089600000)) by lia.
    reflexivity.
  - destruct (Z.ltb_spec (x - 10800000) 1714082400000) as [|_]; [lia|].
    f_equal. lia.
Qed.

(** The week of the clock change, seen from its Wednesday: Sunday the 21st
    is day 19834, and the seven calendar days follow one another although
    Friday has 23 hours. *)
Lemma horizon_of_view_witness :
  KeepsDay springForward ∧
  localDay springForward <$> daysToSchedule springForward WEEK wednesdayNoon
  = seqZ 19834 7.
Proof.
  split; [exact springForward_keepsDay|].
  destruct (horizon_of_view springForward WEEK wednesdayNoon springForward_keepsDay)
    as (_ & _ & Hdays & _).
  exact Hdays.
Defined.

(** In that week the instant of Friday is 01:00 local time, the midnight
    being skipped, and Saturday is 23 hours later, at local midnight. *)
Example horizon_across_clock_change :
  daysToSchedule springForward WEEK wednesdayNoon
  = [1713650400000; 1713736800000; 1713823200000; 1713909600000;
     1713996000000; 1714082400000; 1714165200000] ∧
  LocalTime springForward 1714082400000 mod msPerDay = msPerHour ∧
  LocalTime springForward 1714165200000 mod msPerDay = 0.
Proof. repeat split. Qed.

(** ** What the bulk update does to the task store *)

Lemma spread_scheduledDate (t : SubTask) (d : Z) :
  spread t {| u_id := None; u_title := None; u_status := None;
              u_estimatedMinutes := None; u_priority := None;
              u_tags := None; u_actualMinutes := None;
              u_scheduledDate := Some (Some d);
              u_deadline := None; u_priorityQuadrant := None;
              u_subtasks := None |}
  = withScheduledDate t (Some d).
Proof. by destruct t. Qed.

(** The calendar's [bulkUpdateTaskInTree] is the store's [recursiveUpdate]
    with the spread as updater. *)
Lemma bulkUpdate_as_recursive (tasks : list SubTask) (tid : string)
    (u : PartialSubTask) :
  bulkUpdateTaskInTree tasks tid u = recursiveUpdate tasks tid (fun t => spread t u).
Proof.
  unfold bulkUpdateTaskInTree, recursiveUpdate. apply map_ext_Forall.
  apply Forall_forall. intros t _.
  induction t as [t IH] using SubTask_nested_ind.
  rewrite bulkUpdateNode_eq, recursiveUpdateNode_eq.
  destruct (String.eqb (task_id t) tid); [done|].
  f_equal. by apply map_ext_Forall.
Qed.

(** [findIndex] returns the first project with the identity, which is also
    the one [find] returns. *)
Lemma findIndex_first (pid : string) (ps : list Project) :
  match findIndex pid ps with
  | Some i =>
      ∃ p, ps !! i = Some p ∧ proj_id p = pid ∧
           (∀ j q, (j < i)%nat → ps !! j = Some q → proj_id q ≠ pid) ∧
           List.find (fun q => String.eqb (proj_id q) pid) ps = Some p
  | None => List.find (fun q => String.eqb (proj_id q) pid) ps = None
  end.
Proof.
  unfold findIndex.
  assert (H : ∀ l n,
    match (fix go (l : list Project) (i : nat) : option nat :=
             match l with
             | [] => None
             | p :: r => if String.eqb (proj_id p) pid then Some i else go r (S i)
             end) l n with
    | Some i =>
        (n ≤ i)%nat ∧
        ∃ p, l !! (i - n)%nat = Some p ∧ proj_id p = pid ∧
             (∀ j q, (j < i - n)%nat → l !! j = Some q → proj_id q ≠ pid) ∧
             List.find (fun q => String.eqb (proj_id q) pid) l = Some p
    | None => List.find (fun q => String.eqb (proj_id q) pid) l = None
    end).
  { induction l as [|p r IH]; intros n; [done|].
    cbn [List.find].
    destruct (String.eqb_spec (proj_id p) pid) as [Heq|Hne].
    - split; [lia|]. exists p. rewrite Nat.sub_diag.
      split; [done|]. split; [done|]. split; [|done]. intros j q Hj. lia.
    - specialize (IH (S n)).
      destruct ((fix go (l : list Project) (i : nat) : option nat :=
                   match l with
                   | [] => None
                   | p :: r => if String.eqb (proj_id p) pid then Some i else go r (S i)
                   end) r (S n)) as [i|]; [|done].
      destruct IH as [Hle (q & Hq & Hid & Hfirst & Hfind)].
      split; [lia|]. exists q.
      replace (i - n)%nat with (S (i - S n)) by lia.
      split; [done|]. split; [done|]. split; [|done].
      intros [|j] q' Hj Hq'.
      + injection Hq' as <-. done.
      + apply (Hfirst j q'); [lia | done]. }
  specialize (H ps 0%nat).
  destruct ((fix go (l : list Project) (i : nat) : option nat :=
               match l with
               | [] => None
               | p :: r => if String.eqb (proj_id p) pid then Some i else go r (S i)
               end) ps 0%nat) as [i|]; [|done].
  destruct H as [_ (p & Hp & Hrest)]. rewrite Nat.sub_0_r in Hp, Hrest.
  by exists p.
Qed.

(** Replacing the first project of some identity by one of the same
    identity: what [find] then returns. *)
Lemma find_insert_first (ps : list Project) (i : nat) (p p' : Project)
    (pid : string) :
  ps !! i = Some p → proj_id p' = proj_id p →
  (∀ j q, (j < i)%nat → ps !! j = Some q → proj_id q ≠ proj_id p) →
  List.find (fun q => String.eqb (proj_id q) pid) (<[i := p']> ps)
  = if String.eqb (proj_id p) pid then Some p'
    else List.find (fun q => String.eqb (proj_id q) pid) ps.
Proof.
  revert i. induction ps as [|q r IH]; intros i Hi Hid Hfirst; [done|].
  destruct i as [|i].
  - injection Hi as ->. change (<[0%nat := p']> (p :: r)) with (p' :: r).
    cbn [List.find]. rewrite Hid.
    by destruct (String.eqb (proj_id p) pid).
  - change (<[S i := p']> (q :: r)) with (q :: <[i := p']> r).
    cbn [List.find].
    rewrite (IH i Hi Hid) by (intros j q' Hj; apply (Hfirst (S j)); lia).
    destruct (String.eqb_spec (proj_id q) pid) as [Hq|Hq]; [|done].
    assert (Hne : proj_id q ≠ proj_id p) by (apply (Hfirst 0%nat); [lia | done]).
    destruct (String.eqb_spec (proj_id p) pid); [congruence | done].
Qed.

Lemma findTaskById_bulkUpdate_other (tid tid' : string) (u : PartialSubTask)
    (tasks : list SubTask) :
  u_id u = None → u_subtasks u = None → tid ≠ tid' →
  ownFields <$> findTaskById (bulkUpdateTaskInTree tasks tid' u) tid
  = ownFields <$> findTaskById tasks tid.
Proof.
  intros Hid Hsub Hne.
  assert (Hnode : ∀ t,
    ownFields <$> findTaskNode tid (bulkUpdateNode tid' u t)
    = ownFields <$> findTaskNode tid t).
  { induction t as [t IH] using SubTask_nested_ind.
    rewrite bulkUpdateNode_eq.
    destruct (String.eqb_spec (task_id t) tid') as [Heq|Hne'].
    - rewrite (findTaskNode_eq tid (spread t u)), (findTaskNode_eq tid t).
      rewrite spread_keeps_id by done.
      destruct (String.eqb_spec (task_id t) tid) as [?|_]; [congruence|].
      unfold spread. cbn [subtasks]. by rewrite Hsub.
    - rewrite (findTaskNode_eq tid (withSubtasks t _)), (findTaskNode_eq tid t).
      cbn [withSubtasks task_id subtasks].
      destruct (String.eqb (task_id t) tid); [done|].
      induction IH as [|c r Hc _ IHr]; [done|].
      cbn [map findTaskById].
      destruct (findTaskNode tid (bulkUpdateNode tid' u c)) as [x|] eqn:Hx;
        destruct (findTaskNode tid c) as [y|] eqn:Hy; cbn in Hc;
        first [done | exact IHr]. }
  unfold bulkUpdateTaskInTree. induction tasks as [|c r IH]; [done|].
  cbn [map findTaskById]. specialize (Hnode c).
  destruct (findTaskNode tid (bulkUpdateNode tid' u c)) as [x|] eqn:Hx;
    destruct (findTaskNode tid c) as [y|] eqn:Hy; cbn in Hnode;
    first [done | exact IH].
Qed.

Lemma lookupTask_applyUpdate_same (ps : list Project) (u : Update) :
  lookupTask (applyUpdate ps u) (projectId u) (taskId u)
  = (fun t => withScheduledDate t (Some (date u)))
      <$> lookupTask ps (projectId u) (taskId u).
Proof.
  unfold applyUpdate, lookupTask.
  pose proof (findIndex_first (projectId u) ps) as Hf.
  destruct (findIndex (projectId u) ps) as [i|]; [|by rewrite Hf].
  destruct Hf as (p & Hp & Hid & Hfirst & Hfind). rewrite Hp, Hfind.
  match goal with
  | |- context [<[i := ?q]> ps] =>
      rewrite (find_insert_first ps i p q (projectId u) Hp eq_refl)
        by (intros j q' Hj Hq; rewrite Hid; by eapply Hfirst)
  end.
  rewrite Hid, String.eqb_refl. cbn [withProjSubtasks proj_subtasks].
  rewrite bulkUpdate_as_recursive, findTaskById_recursiveUpdate.
  - destruct (findTaskById (proj_subtasks p) (taskId u)); [|done].
    cbn. by rewrite spread_scheduledDate.
  - intros t Ht. by rewrite spread_keeps_id.
Qed.

Lemma lookupTask_applyUpdate_other (ps : list Project) (u : Update)
    (pid tid : string) :
  (pid, tid) ≠ updateKey u →
  ownFields <$> lookupTask (applyUpdate ps u) pid tid
  = ownFields <$> lookupTask ps pid tid.
Proof.
  intros Hkey. unfold applyUpdate, lookupTask.
  pose proof (findIndex_first (projectId u) ps) as Hf.
  destruct (findIndex (projectId u) ps) as [i|]; [|done].
  destruct Hf as (p & Hp & Hid & Hfirst & Hfind). rewrite Hp.
  match goal with
  | |- context [<[i := ?q]> ps] =>
      rewrite (find_insert_first ps i p q pid Hp eq_refl)
        by (intros j q' Hj Hq; rewrite Hid; by eapply Hfirst)
  end.
  rewrite Hid. destruct (String.eqb_spec (projectId u) pid) as [Heq|Hne]; [|done].
  rewrite <- Heq, Hfind. cbn [withProjSubtasks proj_subtasks].
  apply findTaskById_bulkUpdate_other; [done | done |].
  intros ->. apply Hkey. unfold updateKey. by rewrite Heq.
Qed.

Lemma ownFields_withScheduledDate (t : SubTask) (d : option Z) :
  ownFields (withScheduledDate t d) = withScheduledDate (ownFields t) d.
Proof. by destruct t. Qed.

Lemma lookupTask_fold_other (updates : list Update) (ps : list Project)
    (pid tid : string) :
  (pid, tid) ∉ updateKey <$> updates →
  ownFields <$> lookupTask (fold_left applyUpdate updates ps) pid tid
  = ownFields <$> lookupTask ps pid tid.
Proof.
  revert ps. induction updates as [|u rest IH]; intros ps Hnin; [done|].
  cbn [fold_left]. rewrite fmap_cons in Hnin.
  apply not_elem_of_cons in Hnin as [Hne Hnin].
  rewrite IH by done. by apply lookupTask_applyUpdate_other.
Qed.

Lemma lookupTask_fold_same (updates : list Update) (ps : list Project) (u : Update) :
  NoDup (updateKey <$> updates) → u ∈ updates →
  ownFields <$> lookupTask (fold_left applyUpdate updates ps) (projectId u) (taskId u)
  = (fun t => withScheduledDate (ownFields t) (Some (date u)))
      <$> lookupTask ps (projectId u) (taskId u).
Proof.
  revert ps. induction updates as [|u0 rest IH]; intros ps Hnd Hin.
  { by apply elem_of_nil in Hin. }
  rewrite fmap_cons in Hnd. apply NoDup_cons in Hnd as [Hfresh Hnd].
  cbn [fold_left].
  apply elem_of_cons in Hin as [->|Hrest]; [|rewrite (IH _ Hnd Hrest)].
  - rewrite lookupTask_fold_other by done.
    rewrite lookupTask_applyUpdate_same.
    destruct (lookupTask ps (projectId u0) (taskId u0)); [|done].
    cbn. by rewrite ownFields_withScheduledDate.
  - idtac.
    assert (Hne : (projectId u, taskId u) ≠ updateKey u0).
    { intros Heq. apply Hfresh. rewrite <- Heq.
      change (projectId u, taskId u) with (updateKey u).
      by apply list_elem_of_fmap_2. }
    pose proof (lookupTask_applyUpdate_other ps u0 _ _ Hne) as Hsame.
    destruct (lookupTask (applyUpdate ps u0) (projectId u) (taskId u)) as [x|];
      destruct (lookupTask ps (projectId u) (taskId u)) as [y|];
      cbn in Hsame |- *; try done.
    apply (inj Some) in Hsame. by rewrite Hsame.
Qed.

(** The identities of the updates recorded so far follow the order of the
    queue. *)
Lemma update_keys_sublist (tz : Z) (projects : list Project) (days : list Z)
    (i : nat) (occ : gmap Z Grid) (upd : list Update) :
  stateBefore tz projects days i = Returned (occ, upd) →
  (updateKey <$> upd) `sublist_of` (entryKey <$> take i (unscheduledTasks projects)).
Proof.
  revert occ upd. induction i as [|i IH]; intros occ upd Hst.
  - rewrite stateBefore_O in Hst. injection Hst as _ <-. apply sublist_nil_l.
  - destruct (unscheduledTasks projects !! i) as [e|] eqn:Hi.
    + destruct (step_cases tz projects days i e Hi)
        as (o & u0 & Ho & _ & _ & Hcase).
      specialize (IH o u0 Ho). rewrite (take_S_r _ _ _ Hi), fmap_app.
      destruct Hcase as [[_ Hs]|(j & day & s & m & _ & _ & _ & Hs)];
        rewrite Hst in Hs; injection Hs as -> ->.
      * by apply sublist_inserts_r.
      * rewrite fmap_app. by apply sublist_app.
    + apply lookup_ge_None in Hi.
      rewrite stateBefore_end in Hst by lia.
      rewrite take_ge by lia.
      rewrite <- (take_ge (unscheduledTasks projects) i) by lia.
      apply (IH occ). by rewrite stateBefore_end by lia.
Qed.

Lemma run_keys_sublist (tz : Z) (projects : list Project) (days : list Z)
    (occ : gmap Z Grid) (upd : list Update) :
  autoSchedule tz projects days = Returned (occ, upd) →
  (updateKey <$> upd) `sublist_of` (entryKey <$> unscheduledTasks projects).
Proof.
  intros Hrun.
  pose proof (update_keys_sublist tz projects days
                (length (unscheduledTasks projects)) occ upd) as H.
  rewrite take_ge in H by lia. apply H.
  by rewrite stateBefore_end by lia.
Qed.

(** The bulk update replaces task lists only: every project stays in its
    place with all of its other fields. *)
Lemma bulkApply_projects (ps : list Project) (updates : list Update) :
  Forall2 (fun p p' => withProjSubtasks p' (proj_subtasks p) = p)
    ps (bulkApply ps updates).
Proof.
  assert (Hrefl : ∀ l : list Project,
    Forall2 (fun p p' => withProjSubtasks p' (proj_subtasks p) = p) l l).
  { intros l. apply Forall_Forall2_diag, Forall_forall. intros p _.
    apply withProjSubtasks_same. }
  unfold bulkApply. destruct (0 <? length updates)%nat; [|apply Hrefl].
  revert ps. induction updates as [|u rest IH]; intros ps; [apply Hrefl|].
  cbn [fold_left].
  eapply (Forall2_trans
            (fun p p' => withProjSubtasks p' (proj_subtasks p) = p)
            (fun p p' => withProjSubtasks p' (proj_subtasks p) = p));
    [| |apply IH].
  { intros p p' p'' H1 H2. destruct p, p', p''.
    unfold withProjSubtasks in *. simpl in *. congruence. }
  unfold applyUpdate.
  destruct (findIndex (projectId u) ps) as [i|]; [|apply Hrefl].
  destruct (ps !! i) as [p|] eqn:Hp; [|apply Hrefl].
  match goal with
  | |- Forall2 ?R ps (<[i := ?q]> ps) =>
      pose proof (Forall2_insert R ps ps p q i (Hrefl ps)) as H
  end.
  rewrite (list_insert_id ps i p Hp) in H. apply H. by destruct p.
Qed.

(** X2. The run touches placed tasks only. For every run that returns:
    the identities of the updates form a sublist of the identities of the
    queue, so only backlog tasks can be touched; every project stays at its
    index with its other fields; and, position by position in the flattened
    tree of each project, the task has the same id, and all of its own
    fields when its identity is not that of an update. *)
Theorem run_touches_only_placed_tasks (tz : Z) (projects : list Project)
    (days : list Z) (occupied : gmap Z Grid) (updates : list Update) :
  autoSchedule tz projects days = Returned (occupied, updates) →
  (updateKey <$> updates) `sublist_of` (entryKey <$> unscheduledTasks projects) ∧
  Forall2
    (fun p p' =>
       withProjSubtasks p' (proj_subtasks p) = p ∧
       Forall2
         (fun t t' =>
            task_id t' = task_id t ∧
            ((proj_id p, task_id t) ∉ updateKey <$> updates →
             ownFields t' = ownFields t))
         (flattenTasks (proj_subtasks p)) (flattenTasks (proj_subtasks p')))
    projects (bulkApply projects updates).
Proof.
  intros Hrun. split; [by eapply run_keys_sublist|].
  pose proof (bulkApply_frame projects updates) as Hframe.
  pose proof (bulkApply_projects projects updates) as Hproj.
  apply Forall2_same_length_lookup. split; [by eapply Forall2_length|].
  intros a p p' Ha Ha'.
  split; [by eapply (Forall2_lookup_lr _ _ _ _ _ _ Hproj)|].
  destruct (Forall2_lookup_lr _ _ _ _ _ _ Hframe Ha Ha') as [_ Hnodes].
  rewrite !flattenTasks_preorder. exact Hnodes.
Qed.

(** A run that places both tasks of the backlog: the stage of duration 0
    and its child. *)
Lemma run_touches_only_placed_tasks_witness :
  ∃ occupied,
    autoSchedule 0 stageInBacklog [noonOfDay10]
    = Returned (occupied, [mkUpdate "p" "S" (minuteAt 10 540);
                           mkUpdate "p" "T" (minuteAt 10 555)]) ∧
    Forall2
      (fun p p' =>
         withProjSubtasks p' (proj_subtasks p) = p ∧
         Forall2
           (fun t t' =>
              task_id t' = task_id t ∧
              ((proj_id p, task_id t)
               ∉ updateKey <$> [mkUpdate "p" "S" (minuteAt 10 540);
                                mkUpdate "p" "T" (minuteAt 10 555)] →
               ownFields t' = ownFields t))
           (flattenTasks (proj_subtasks p)) (flattenTasks (proj_subtasks p')))
      stageInBacklog
      (bulkApply stageInBacklog [mkUpdate "p" "S" (minuteAt 10 540);
                                 mkUpdate "p" "T" (minuteAt 10 555)]).
Proof.
  assert (Hrun : ∃ occupied,
    autoSchedule 0 stageInBacklog [noonOfDay10]
    = Returned (occupied, [mkUpdate "p" "S" (minuteAt 10 540);
                           mkUpdate "p" "T" (minuteAt 10 555)])).
  { eexists. vm_compute. reflexivity. }
  destruct Hrun as (occ & Hrun).
  exists occ. split; [exact Hrun|].
  exact (proj2 (run_touches_only_placed_tasks 0 stageInBacklog [noonOfDay10] occ
                  [mkUpdate "p" "S" (minuteAt 10 540);
                   mkUpdate "p" "T" (minuteAt 10 555)] Hrun)).
Defined.

(** In the sample with 09:00-09:30 busy, the task that was scheduled
    beforehand is left alone by the run. *)
Example scheduled_task_is_left_alone :
  ∃ occupied updates,
    autoSchedule 0 busyMorning [noonOfDay10] = Returned (occupied, updates) ∧
    lookupTask (bulkApply busyMorning updates) "p" "E"
    = Some (sampleTask "E" TODO 30 (Some (minuteAt 10 540)) []).
Proof. eexists _, _. split; vm_compute; reflexivity. Qed.

(** X3. Every placed task ends up at its slot. When the identities of the
    queue are pairwise distinct, after the bulk update the task that an
    update refers to has the own fields it had before, with the scheduled
    instant replaced by the instant the update records. *)
Theorem placed_tasks_get_their_slot (tz : Z) (projects : list Project)
    (days : list Z) (occupied : gmap Z Grid) (updates : list Update) (u : Update) :
  NoDup (entryKey <$> unscheduledTasks projects) →
  autoSchedule tz projects days = Returned (occupied, updates) →
  u ∈ updates →
  ownFields <$> lookupTask (bulkApply projects updates) (projectId u) (taskId u)
  = (fun t => withScheduledDate (ownFields t) (Some (date u)))
      <$> lookupTask projects (projectId u) (taskId u).
Proof.
  intros Hnd Hrun Hin. unfold bulkApply.
  destruct updates as [|u0 rest]; [by apply elem_of_nil in Hin|].
  cbn [length Nat.ltb Nat.leb].
  apply lookupTask_fold_same; [|done].
  pose proof (run_keys_sublist tz projects days occupied _ Hrun) as Hsub.
  by eapply sublist_NoDup.
Qed.

Lemma placed_tasks_get_their_slot_witness :
  ∃ occupied updates,
    autoSchedule 0 stageInBacklog [noonOfDay10] = Returned (occupied, updates) ∧
    ownFields <$> lookupTask (bulkApply stageInBacklog updates) "p" "T"
    = Some (sampleTask "T" TODO 15 (Some (minuteAt 10 555)) []).
Proof.
  assert (Hrun : ∃ occupied,
    autoSchedule 0 stageInBacklog [noonOfDay10]
    = Returned (occupied, [mkUpdate "p" "S" (minuteAt 10 540);
                           mkUpdate "p" "T" (minuteAt 10 555)])).
  { eexists. vm_compute. reflexivity. }
  destruct Hrun as (occ & Hrun).
  exists occ, [mkUpdate "p" "S" (minuteAt 10 540); mkUpdate "p" "T" (minuteAt 10 555)].
  split; [exact Hrun|].
  rewrite (placed_tasks_get_their_slot 0 stageInBacklog [noonOfDay10] occ _
             (mkUpdate "p" "T" (minuteAt 10 555))).
  - reflexivity.
  - vm_compute. apply NoDup_cons. split; [|apply NoDup_singleton].
    intros Hin. apply list_elem_of_singleton in Hin. discriminate.
  - exact Hrun.
  - right. by left.
Defined.

(** ** Updates of the store, composed *)

Lemma recursiveUpdate_ext (tid : string) (f g : SubTask → SubTask)
    (tasks : list SubTask) :
  (∀ t, f t = g t) →
  recursiveUpdate tasks tid f = recursiveUpdate tasks tid g.
Proof.
  intros Hfg. unfold recursiveUpdate. apply map_ext_Forall, Forall_forall.
  intros t _. induction t as [t IH] using SubTask_nested_ind.
  rewrite !recursiveUpdateNode_eq.
  destruct (String.eqb (task_id t) tid); [apply Hfg|].
  f_equal. by apply map_ext_Forall.
Qed.

Lemma recursiveUpdate_comp (tid : string) (f g : SubTask → SubTask)
    (tasks : list SubTask) :
  (∀ t, task_id (f t) = task_id t) →
  recursiveUpdate (recursiveUpdate tasks tid f) tid g
  = recursiveUpdate tasks tid (fun t => g (f t)).
Proof.
  intros Hid. unfold recursiveUpdate. rewrite map_map.
  apply map_ext_Forall, Forall_forall.
  intros t _. induction t as [t IH] using SubTask_nested_ind.
  rewrite (recursiveUpdateNode_eq tid f t),
    (recursiveUpdateNode_eq tid (fun t => g (f t)) t).
  destruct (String.eqb (task_id t) tid) eqn:E.
  - rewrite recursiveUpdateNode_eq, Hid, E. done.
  - rewrite recursiveUpdateNode_eq.
    replace (task_id (withSubtasks t (map (recursiveUpdateNode tid f) (subtasks t))))
      with (task_id t) by (by destruct t).
    rewrite E.
    replace (subtasks (withSubtasks t (map (recursiveUpdateNode tid f) (subtasks t))))
      with (map (recursiveUpdateNode tid f) (subtasks t)) by (by destruct t).
    rewrite map_map.
    transitivity (withSubtasks t
      (map (fun x => recursiveUpdateNode tid g (recursiveUpdateNode tid f x))
         (subtasks t))); [by destruct t|].
    f_equal. by apply map_ext_Forall.
Qed.

Lemma handleScheduleTask_ids (ps : list Project) (pid tid : string) (d : Z) :
  proj_id <$> handleScheduleTask ps pid tid d = proj_id <$> ps.
Proof.
  unfold handleScheduleTask. rewrite <- list_fmap_compose.
  apply list_fmap_ext. intros _ p _. simpl.
  destruct (negb (String.eqb (proj_id p) pid)); by destruct p.
Qed.

(** One step of the bulk update is a call of [handleScheduleTask] when
    project ids are pairwise distinct. *)
Lemma applyUpdate_as_schedule (ps : list Project) (u : Update) :
  NoDup (proj_id <$> ps) →
  applyUpdate ps u = handleScheduleTask ps (projectId u) (taskId u) (date u).
Proof.
  intros Hnd. unfold applyUpdate, handleScheduleTask.
  pose proof (findIndex_first (projectId u) ps) as Hfi.
  destruct (findIndex (projectId u) ps) as [i|].
  - destruct Hfi as (p & Hp & Hpid & _ & _). rewrite Hp.
    apply list_eq. intros j. rewrite list_lookup_fmap.
    destruct (decide (j = i)) as [->|Hne].
    + rewrite list_lookup_insert_eq by (by eapply lookup_lt_Some).
      rewrite Hp. simpl. rewrite Hpid, String.eqb_refl. simpl.
      do 2 f_equal. rewrite bulkUpdate_as_recursive.
      apply recursiveUpdate_ext. intros t. apply spread_scheduledDate.
    + rewrite list_lookup_insert_ne by done.
      destruct (ps !! j) as [q|] eqn:Hq; [|done]. simpl.
      destruct (String.eqb_spec (proj_id q) (projectId u)) as [Heq|]; [|done].
      exfalso. apply Hne.
      apply (NoDup_lookup (proj_id <$> ps) j i (projectId u) Hnd).
      * by rewrite list_lookup_fmap, Hq, <- Heq.
      * by rewrite list_lookup_fmap, Hp, <- Hpid.
  - symmetry. transitivity (map id ps); [|apply map_id].
    apply map_ext_Forall, Forall_forall. intros q Hq.
    destruct (String.eqb_spec (proj_id q) (projectId u)) as [Heq|]; [|done].
    exfalso. apply list_elem_of_In in Hq.
    pose proof (find_none _ _ Hfi q Hq) as Hn. simpl in Hn.
    rewrite Heq, String.eqb_refl in Hn. done.
Qed.

(** X4. The bulk update as a sequence of single updates. When project ids
    are pairwise distinct, applying the updates of a run in bulk gives the
    store that results from calling [handleScheduleTask] once per update, in
    order. *)
Theorem bulk_apply_is_sequential_scheduling (ps : list Project)
    (updates : list Update) :
  NoDup (proj_id <$> ps) →
  bulkApply ps updates
  = fold_left (fun acc u => handleScheduleTask acc (projectId u) (taskId u) (date u))
      updates ps.
Proof.
  intros Hnd. unfold bulkApply.
  destruct updates as [|u0 rest]; [done|].
  cbn [length Nat.ltb Nat.leb].
  generalize (u0 :: rest). clear u0 rest. intros l.
  revert ps Hnd. induction l as [|u l IH]; intros ps Hnd; [done|].
  cbn [fold_left]. rewrite applyUpdate_as_schedule by done.
  apply IH. by rewrite handleScheduleTask_ids.
Qed.

Lemma bulk_apply_is_sequential_scheduling_witness :
  NoDup (proj_id <$> stageInBacklog) ∧
  bulkApply stageInBacklog
    [mkUpdate "p" "S" (minuteAt 10 540); mkUpdate "p" "T" (minuteAt 10 555)]
  = handleScheduleTask
      (handleScheduleTask stageInBacklog "p" "S" (minuteAt 10 540))
      "p" "T" (minuteAt 10 555).
Proof.
  assert (Hnd : NoDup (proj_id <$> stageInBacklog)).
  { vm_compute. apply NoDup_singleton. }
  split; [exact Hnd|].
  exact (bulk_apply_is_sequential_scheduling stageInBacklog
           [mkUpdate "p" "S" (minuteAt 10 540); mkUpdate "p" "T" (minuteAt 10 555)]
           Hnd).
Defined.

Lemma handleScheduleTask_updateIn (ps : list Project) (pid tid : string) (d : Z) :
  handleScheduleTask ps pid tid d
  = updateIn ps pid tid (fun t => withScheduledDate t (Some d)).
Proof. reflexivity. Qed.

Lemma handleUpdateTask_updateIn (ps : list Project) (pid tid : string)
    (u : PartialSubTask) :
  handleUpdateTask ps pid tid u = updateIn ps pid tid (fun t => spread t u).
Proof. reflexivity. Qed.

Lemma updateIn_ext (ps : list Project) (pid tid : string) (f g : SubTask → SubTask) :
  (∀ t, f t = g t) → updateIn ps pid tid f = updateIn ps pid tid g.
Proof.
  intros Hfg. unfold updateIn. apply map_ext_Forall, Forall_forall. intros p _.
  destruct (negb (String.eqb (proj_id p) pid)); [done|].
  f_equal. by apply recursiveUpdate_ext.
Qed.

Lemma updateIn_comp (ps : list Project) (pid tid : string) (f g : SubTask → SubTask) :
  (∀ t, task_id (f t) = task_id t) →
  updateIn (updateIn ps pid tid f) pid tid g = updateIn ps pid tid (fun t => g (f t)).
Proof.
  intros Hid. unfold updateIn. rewrite map_map.
  apply map_ext_Forall, Forall_forall. intros p _.
  destruct (String.eqb (proj_id p) pid) eqn:E; cbn [negb]; [|by rewrite E].
  replace (proj_id (withProjSubtasks p (recursiveUpdate (proj_subtasks p) tid f)))
    with (proj_id p) by (by destruct p).
  rewrite E. cbn [negb].
  replace (proj_subtasks (withProjSubtasks p (recursiveUpdate (proj_subtasks p) tid f)))
    with (recursiveUpdate (proj_subtasks p) tid f) by (by destruct p).
  rewrite recursiveUpdate_comp by done. by destruct p.
Qed.

Lemma updateIn_id (ps : list Project) (pid tid : string) (f : SubTask → SubTask) :
  (∀ p t, p ∈ ps → proj_id p = pid → t ∈ preorder (proj_subtasks p) →
          task_id t = tid → f t = t) →
  updateIn ps pid tid f = ps.
Proof.
  intros Hf. unfold updateIn. transitivity (map id ps); [|apply map_id].
  apply map_ext_Forall, Forall_forall. intros p Hp.
  destruct (String.eqb_spec (proj_id p) pid) as [Heq|]; [|done]. cbn [negb].
  rewrite recursiveUpdate_id by (intros t Ht Hid; by apply (Hf p)).
  apply withProjSubtasks_same.
Qed.

(** * Further properties of interactive placement *)

Lemma lookupTask_updateIn (projects : list Project) (pid tid : string)
    (f : SubTask → SubTask) :
  (∀ t, task_id t = tid → task_id (f t) = tid) →
  lookupTask (updateIn projects pid tid f) pid tid = f <$> lookupTask projects pid tid.
Proof.
  intros Hid. unfold lookupTask, updateIn.
  induction projects as [|p ps IH]; [done|].
  cbn [map List.find].
  destruct (String.eqb_spec (proj_id p) pid) as [Heq|Hne]; cbn [negb].
  - cbn [withProjSubtasks proj_id proj_subtasks].
    destruct (String.eqb_spec (proj_id p) pid) as [_|?]; [|done].
    by apply findTaskById_recursiveUpdate.
  - destruct (String.eqb_spec (proj_id p) pid) as [?|_]; [done|]. exact IH.
Qed.

(** X5. Payloads that name no task. When no task of a project with the
    payload's project id has the payload's task id, scheduling, updating,
    dropping on a cell and dropping on the backlog all leave the store as it
    is: nothing is created and nothing else is touched. *)
Theorem payload_without_target_changes_nothing (ps : list Project)
    (projectId taskId : string) :
  Absent ps projectId taskId →
  (∀ date, handleScheduleTask ps projectId taskId date = ps) ∧
  (∀ updates, handleUpdateTask ps projectId taskId updates = ps) ∧
  (∀ tz date hour, handleDrop tz ps (Some (projectId, taskId)) date hour = ps) ∧
  handleUnscheduleDrop ps (Some (projectId, taskId)) = ps.
Proof.
  intros Habs.
  assert (Hany : ∀ f, updateIn ps projectId taskId f = ps).
  { intros f. apply updateIn_id. intros p t Hp Hpid Ht Htid.
    by destruct (Habs p t Hp Hpid Ht). }
  split; [intros date; apply Hany|]. split; [intros u; apply Hany|].
  split; [intros tz date hour; apply Hany|]. apply Hany.
Qed.

Lemma payload_without_target_changes_nothing_witness :
  Absent busyMorning "p" "Z" ∧
  handleDrop 0 busyMorning (Some ("p", "Z")) noonOfDay10 (Some 14) = busyMorning.
Proof.
  assert (Habs : Absent busyMorning "p" "Z").
  { intros p t Hp _ Ht Htid. apply list_elem_of_singleton in Hp as ->.
    vm_compute in Ht.
    apply elem_of_cons in Ht as [->|Ht]; [discriminate|].
    apply list_elem_of_singleton in Ht as ->. discriminate. }
  split; [exact Habs|].
  destruct (payload_without_target_changes_nothing busyMorning "p" "Z" Habs)
    as (_ & _ & Hdrop & _).
  apply Hdrop.
Defined.

(** X6. The later drop wins. Dropping the same payload a second time gives
    the store that the second drop alone would give, whatever the first cell
    was. *)
Theorem later_drop_overrides (tz : Z) (ps : list Project)
    (data : option (string * string)) (date1 date2 : Z) (hour1 hour2 : option Z) :
  handleDrop tz (handleDrop tz ps data date1 hour1) data date2 hour2
  = handleDrop tz ps data date2 hour2.
Proof.
  destruct data as [[pid tid]|]; [|done]. unfold handleDrop.
  rewrite !handleScheduleTask_updateIn, updateIn_comp by (intros t; by destruct t).
  apply updateIn_ext. intros t. by destruct t.
Qed.

(** X7. Dropping on the backlog after a drop on the calendar. For every
    store, unscheduling after a drop gives what unscheduling alone gives:
    the task the payload refers to, if there is one, ends up with no
    scheduled instant and its other fields as before the drop. So a task
    that was in the backlog before is back where it was, the store being
    what it was before the drop when every task the payload can name was in
    the backlog; and a task that was scheduled before does not get its
    earlier instant back: the store differs from the one before the drop. *)
Theorem unschedule_undoes_drop (tz : Z) (ps : list Project)
    (projectId taskId : string) (date : Z) (hour : option Z) :
  handleUnscheduleDrop (handleDrop tz ps (Some (projectId, taskId)) date hour)
    (Some (projectId, taskId))
  = handleUnscheduleDrop ps (Some (projectId, taskId)) ∧
  lookupTask
    (handleUnscheduleDrop (handleDrop tz ps (Some (projectId, taskId)) date hour)
       (Some (projectId, taskId)))
    projectId taskId
  = (fun t => withScheduledDate t None) <$> lookupTask ps projectId taskId ∧
  (TargetUnscheduled ps projectId taskId →
   handleUnscheduleDrop (handleDrop tz ps (Some (projectId, taskId)) date hour)
     (Some (projectId, taskId))
   = ps) ∧
  (∀ t d, lookupTask ps projectId taskId = Some t → scheduledDate t = Some d →
     handleUnscheduleDrop (handleDrop tz ps (Some (projectId, taskId)) date hour)
       (Some (projectId, taskId))
     ≠ ps).
Proof.
  assert (Heq : handleUnscheduleDrop
                  (handleDrop tz ps (Some (projectId, taskId)) date hour)
                  (Some (projectId, taskId))
                = handleUnscheduleDrop ps (Some (projectId, taskId))).
  { unfold handleUnscheduleDrop, handleDrop.
    rewrite handleScheduleTask_updateIn, !handleUpdateTask_updateIn.
    rewrite updateIn_comp by (intros t; by destruct t).
    apply updateIn_ext. intros t. by destruct t. }
  assert (Hlook : lookupTask (handleUnscheduleDrop ps (Some (projectId, taskId)))
                    projectId taskId
                  = (fun t => withScheduledDate t None)
                      <$> lookupTask ps projectId taskId).
  { unfold handleUnscheduleDrop. rewrite handleUpdateTask_updateIn.
    rewrite (updateIn_ext ps projectId taskId _ (fun t => withScheduledDate t None))
      by (intros t; by destruct t).
    apply lookupTask_updateIn. intros t. by destruct t. }
  rewrite Heq. split; [done|]. split; [exact Hlook|]. split.
  - intros Hun. unfold handleUnscheduleDrop. rewrite handleUpdateTask_updateIn.
    apply updateIn_id. intros p t Hp Hpid Ht Htid.
    pose proof (Hun p t Hp Hpid Ht Htid) as Hsd.
    destruct t. simpl in *. by subst.
  - intros t d Ht Hd Hsame. rewrite Hsame, Ht in Hlook.
    apply (inj Some) in Hlook. rewrite Hlook in Hd.
    destruct t. discriminate.
Qed.

(** A task of the backlog, dropped at 14:00 and then on the backlog: the
    store is the one before the drop. *)
Lemma unschedule_undoes_drop_witness :
  TargetUnscheduled busyMorning "p" "A" ∧
  handleUnscheduleDrop
    (handleDrop 0 busyMorning (Some ("p", "A")) noonOfDay10 (Some 14))
    (Some ("p", "A"))
  = busyMorning.
Proof.
  assert (Hun : TargetUnscheduled busyMorning "p" "A").
  { intros p t Hp _ Ht Htid. apply list_elem_of_singleton in Hp as ->.
    vm_compute in Ht.
    apply elem_of_cons in Ht as [->|Ht]; [discriminate|].
    by apply list_elem_of_singleton in Ht as ->. }
  split; [exact Hun|].
  destruct (unschedule_undoes_drop 0 busyMorning "p" "A" noonOfDay10 (Some 14))
    as (_ & _ & Hback & _).
  exact (Hback Hun).
Defined.

(** The task scheduled at 09:00, dropped at 14:00 and then on the backlog,
    has no instant left. *)
Example unschedule_does_not_restore :
  lookupTask
    (handleUnscheduleDrop
       (handleDrop 0 busyMorning (Some ("p", "E")) noonOfDay10 (Some 14))
       (Some ("p", "E")))
    "p" "E"
  = Some (sampleTask "E" TODO 30 None []).
Proof. reflexivity. Qed.

(** * Further properties of resizing *)

(** A press on the handle of an idle calendar, moves, and the release: the
    committed estimate depends on the press and on the last move only. *)
Lemma resize_drag_commit (projects : list Project) (st : ResizeState)
    (p : Project) (t : SubTask) (y0 : Q) (ys : list Q) (yEnd : Q) :
  resizingTask st = None →
  onMouseEvent
    (fold_left onMouseEvent (MouseMove <$> (ys ++ [yEnd]))
       (onMouseEvent (projects, st) (MouseDownOnHandle y0 p t)))
    MouseUp
  = (handleUpdateTask projects (proj_id p) (task_id t)
       (setEstimate
          (snappedMinutes
             (Qmax 15 (jsAdd (inject_Z (Z.max (estimatedMinutes t) 30))
                         (jsSub yEnd y0))))),
     idle).
Proof.
  intros Hidle.
  assert (Hheight : durationHeight st t = inject_Z (Z.max (estimatedMinutes t) 30)).
  { unfold durationHeight. by rewrite Hidle. }
  rewrite fmap_app, fold_left_app.
  change (onMouseEvent (projects, st) (MouseDownOnHandle y0 p t))
    with (projects,
          handleResizeStart st y0 (proj_id p) (task_id t) (durationHeight st t)).
  destruct (mouseMoves_keep ys projects
              (handleResizeStart st y0 (proj_id p) (task_id t) (durationHeight st t)))
    as (st' & Hfold & Hrt).
  rewrite Hfold, fmap_cons, fmap_nil. cbn [fold_left].
  change (onMouseEvent (projects, st') (MouseMove yEnd))
    with (projects, handleMouseMove st' yEnd).
  unfold onMouseEvent. cbn [fst snd].
  unfold handleMouseMove, handleMouseUp. rewrite Hrt.
  cbn [handleResizeStart resizingTask currentResizeHeight startY startHeight
       r_projectId r_taskId from_option id].
  rewrite Hheight.
  rewrite truthyQ_nonzero; [done|].
  intros H0.
  pose proof (Q.le_max_l 15 (jsAdd (inject_Z (Z.max (estimatedMinutes t) 30))
                               (jsSub yEnd y0)))
    as Hle.
  rewrite H0 in Hle. by apply Qle_bool_iff in Hle.
Qed.

(** With whole coordinates below [2 ^ 53] the subtraction and the addition
    of a move are exact. *)
Lemma drag_height_whole (start a b : Z) (y0 yEnd : Q) :
  (y0 == inject_Z a)%Q → (yEnd == inject_Z b)%Q →
  Z.abs (b - a) < 2 ^ 53 → Z.abs (start + (b - a)) < 2 ^ 53 →
  (Qmax 15 (jsAdd (inject_Z start) (jsSub yEnd y0))
   == inject_Z (Z.max 15 (start + (b - a))))%Q.
Proof.
  intros Ha Hb Hd Hs.
  assert (Hsub : jsSub yEnd y0 = round64 (inject_Z (b - a))).
  { unfold jsSub. apply round64_comp. rewrite Ha, Hb.
    unfold Z.sub. rewrite inject_Z_plus, inject_Z_opp. reflexivity. }
  pose proof (round64_int (b - a) Hd) as Hdelta.
  rewrite Hsub. set (delta := round64 (inject_Z (b - a))) in *.
  assert (Hadd : (jsAdd (inject_Z start) delta == inject_Z (start + (b - a)))%Q).
  { unfold jsAdd.
    destruct (Qeq_bool delta 0) eqn:E0.
    - apply Qeq_bool_iff in E0. rewrite E0 in Hdelta.
      assert (b - a = 0) as ->.
      { unfold Qeq in Hdelta. cbn in Hdelta. lia. }
      by rewrite Z.add_0_r.
    - destruct (Qeq_bool (inject_Z start) 0) eqn:E1.
      + apply Qeq_bool_iff in E1.
        assert (start = 0) as ->.
        { unfold Qeq in E1. cbn in E1. lia. }
        exact Hdelta.
      + rewrite (round64_comp (inject_Z start + delta) (inject_Z (start + (b - a))))
          by (rewrite Hdelta, inject_Z_plus; reflexivity).
        by apply round64_int. }
  rewrite Hadd.
  destruct (Z.max_spec 15 (start + (b - a))) as [[Hlt ->]|[Hle ->]].
  - apply Q.max_r. change 15%Q with (inject_Z 15). rewrite <- Zle_Qle. lia.
  - apply Q.max_l. change 15%Q with (inject_Z 15). rewrite <- Zle_Qle. lia.
Qed.

Lemma snappedMinutes_facts (h : Q) :
  15 ≤ snappedMinutes h ∧ (15 | snappedMinutes h).
Proof.
  rewrite snappedMinutes_eq. split; [lia|].
  destruct (Z.max_spec 15 (Math_round (h / 15) * 15)) as [[_ ->]|[_ ->]].
  - by exists (Math_round (h / 15)).
  - by exists 1.
Qed.

Lemma snappedMinutes_nearest (h : Q) :
  (15 <= h)%Q →
  (inject_Z (snappedMinutes h) - (15 # 2) <= h)%Q ∧
  (h < inject_Z (snappedMinutes h) + (15 # 2))%Q.
Proof.
  intros Hh. rewrite snappedMinutes_eq.
  destruct (Math_round_bounds (h / 15)) as [H1 H2].
  set (q := Math_round (h / 15)) in *.
  change (h / 15)%Q with (h * (1 # 15))%Q in H1, H2.
  assert (Hq : 1 ≤ q).
  { assert (H : (inject_Z 0 < inject_Z q)%Q).
    { change (inject_Z 0) with 0%Q. lra. }
    rewrite <- Zlt_Qlt in H. lia. }
  rewrite Z.max_r by lia. rewrite inject_Z_mult.
  change (inject_Z 15) with 15%Q. split; lra.
Qed.

Lemma snappedMinutes_multiple (k : Z) :
  1 ≤ k → snappedMinutes (inject_Z (15 * k)) = 15 * k.
Proof.
  intros Hk. rewrite snappedMinutes_eq.
  assert (Hq : Math_round (inject_Z (15 * k) / 15) = k).
  { unfold Math_round. apply Qfloor_unique.
    - rewrite inject_Z_mult. change (inject_Z 15) with 15%Q.
      change (15 * inject_Z k / 15)%Q with (15 * inject_Z k * (1 # 15))%Q. lra.
    - rewrite inject_Z_mult. change (inject_Z 15) with 15%Q.
      change (15 * inject_Z k / 15)%Q with (15 * inject_Z k * (1 # 15))%Q. lra. }
  rewrite Hq. lia.
Qed.

(** X8. A resize drag commits the nearest quarter of an hour. From an idle
    calendar, a press on the handle of a task at [y0], any moves, a last move
    at [yEnd] and the release call [onUpdateTask] once, with the candidate
    height snapped: a multiple of 15, at least 15, within seven and a half
    of that height. The candidate height is [max(15, start + (yEnd - y0))]
    with [start = max(estimate, 30)], the difference and the sum being
    rounded as Numbers are; when the two coordinates are whole numbers, and
    the difference and the sum stay below [2 ^ 53], it is that value
    exactly. The moves in between have no effect. *)
Theorem resize_drag_commits_nearest_quarter (projects : list Project)
    (st : ResizeState) (p : Project) (t : SubTask) (y0 : Q) (ys : list Q) (yEnd : Q) :
  resizingTask st = None →
  let pressed := onMouseEvent (projects, st) (MouseDownOnHandle y0 p t) in
  let moved := fold_left onMouseEvent (MouseMove <$> (ys ++ [yEnd])) pressed in
  let start := Z.max (estimatedMinutes t) 30 in
  let height := Qmax 15 (jsAdd (inject_Z start) (jsSub yEnd y0)) in
  let committed := snappedMinutes height in
  onMouseEvent moved MouseUp
  = (handleUpdateTask projects (proj_id p) (task_id t) (setEstimate committed), idle) ∧
  15 ≤ committed ∧ (15 | committed) ∧
  (inject_Z committed - (15 # 2) <= height)%Q ∧
  (height < inject_Z committed + (15 # 2))%Q ∧
  ∀ a b : Z,
    (y0 == inject_Z a)%Q → (yEnd == inject_Z b)%Q →
    Z.abs (b - a) < 2 ^ 53 → Z.abs (start + (b - a)) < 2 ^ 53 →
    (height == inject_Z (Z.max 15 (start + (b - a))))%Q ∧
    committed = snappedMinutes (inject_Z (Z.max 15 (start + (b - a)))).
Proof.
  intros Hidle pressed moved start height committed.
  split; [by apply resize_drag_commit|].
  destruct (snappedMinutes_facts height) as [H15 Hdiv].
  split; [exact H15|]. split; [exact Hdiv|].
  destruct (snappedMinutes_nearest height (Q.le_max_l _ _)) as [Hlo Hhi].
  split; [exact Hlo|]. split; [exact Hhi|].
  intros a b Ha Hb Hd Hs.
  pose proof (drag_height_whole start a b y0 yEnd Ha Hb Hd Hs) as Hh.
  split; [exact Hh|]. by apply snappedMinutes_comp.
Qed.

(** A task of 30 minutes, pressed at 50.1 and released at 87.6, the two
    coordinates being the Numbers nearest to these decimals: the difference
    is just below 37.5, the sum rounds to 67.5, and 75 minutes are
    committed. *)
Lemma resize_drag_commits_nearest_quarter_witness :
  onMouseEvent
    (fold_left onMouseEvent
       (MouseMove <$> ([60%Q] ++ [3082150994981683 # 35184372088832]))
       (onMouseEvent (busyMorning, idle)
          (MouseDownOnHandle (7050948166601933 # 140737488355328)
             (project entryA)
             (sampleTask "E" TODO 30 (Some (minuteAt 10 540)) []))))
    MouseUp
  = (handleUpdateTask busyMorning "p" "E" (setEstimate 75), idle).
Proof.
  apply (resize_drag_commits_nearest_quarter busyMorning idle (project entryA)
           (sampleTask "E" TODO 30 (Some (minuteAt 10 540)) [])
           (7050948166601933 # 140737488355328) [60%Q]
           (3082150994981683 # 35184372088832) eq_refl).
Defined.

(** With whole coordinates, a drag of 22 pixels on the same task commits 45
    minutes. *)
Example whole_pixel_drag_commits_45 :
  onMouseEvent
    (fold_left onMouseEvent (MouseMove <$> ([140%Q] ++ [122%Q]))
       (onMouseEvent (busyMorning, idle)
          (MouseDownOnHandle 100 (project entryA)
             (sampleTask "E" TODO 30 (Some (minuteAt 10 540)) []))))
    MouseUp
  = (handleUpdateTask busyMorning "p" "E" (setEstimate 45), idle).
Proof. reflexivity. Qed.

(** X9. A drag that comes back to where it started. From an idle calendar,
    when the last move is at the height of the press, the release commits
    [max(estimate, 30)] snapped, and this is the task's estimate exactly when
    the estimate is at least 30 and a multiple of 15: any other estimate is
    changed by a drag of no net displacement. *)
Theorem drag_back_keeps_estimate_iff (projects : list Project)
    (st : ResizeState) (p : Project) (t : SubTask) (y0 : Q) (ys : list Q) (yEnd : Q) :
  resizingTask st = None → (yEnd == y0)%Q →
  let pressed := onMouseEvent (projects, st) (MouseDownOnHandle y0 p t) in
  let moved := fold_left onMouseEvent (MouseMove <$> (ys ++ [yEnd])) pressed in
  let committed := snappedMinutes (inject_Z (Z.max (estimatedMinutes t) 30)) in
  onMouseEvent moved MouseUp
  = (handleUpdateTask projects (proj_id p) (task_id t) (setEstimate committed), idle) ∧
  (committed = estimatedMinutes t ↔
   30 ≤ estimatedMinutes t ∧ (15 | estimatedMinutes t)).
Proof.
  intros Hidle Hy pressed moved committed. split.
  - unfold moved, pressed. rewrite resize_drag_commit by done.
    rewrite (jsSub_same yEnd y0 Hy), jsAdd_zero.
    do 3 f_equal. apply snappedMinutes_comp.
    assert (H30 : (30 <= inject_Z (Z.max (estimatedMinutes t) 30))%Q).
    { change 30%Q with (inject_Z 30). rewrite <- Zle_Qle. lia. }
    rewrite Q.max_r; lra.
  - destruct (snappedMinutes_facts (inject_Z (Z.max (estimatedMinutes t) 30)))
      as [H15 Hdiv].
    fold committed in H15, Hdiv. split.
    + intros Heq. rewrite Heq in Hdiv. split; [|exact Hdiv].
      destruct (Z.le_gt_cases 30 (estimatedMinutes t)) as [|Hlt]; [done|].
      exfalso. unfold committed in Heq.
      rewrite Z.max_r in Heq by lia.
      change 30 with (15 * 2) in Heq at 1.
      rewrite snappedMinutes_multiple in Heq by lia. lia.
    + intros [H30 [k Hk]]. unfold committed.
      rewrite Z.max_l by lia. rewrite Hk.
      replace (k * 15) with (15 * k) by lia.
      apply snappedMinutes_multiple. lia.
Qed.

(** For a task of 40 minutes, a press and a release at the same height
    after a detour commit 45 minutes. *)
Lemma drag_back_keeps_estimate_iff_witness :
  onMouseEvent
    (fold_left onMouseEvent (MouseMove <$> ([90%Q] ++ [100%Q]))
       (onMouseEvent (busyMorning, idle)
          (MouseDownOnHandle 100 (project entryA)
             (sampleTask "F" TODO 40 (Some (minuteAt 10 600)) []))))
    MouseUp
  = (handleUpdateTask busyMorning "p" "F" (setEstimate 45), idle).
Proof.
  apply (drag_back_keeps_estimate_iff busyMorning idle (project entryA)
           (sampleTask "F" TODO 40 (Some (minuteAt 10 600)) [])
           100 [90%Q] 100 eq_refl).
  reflexivity.
Defined.

(** * The list view *)

(** ** Updating and toggling *)

Lemma plannerUpdateNode_eq (tid : string) (f : SubTask → SubTask) (t : SubTask) :
  plannerUpdateNode tid f t
  = if String.eqb (task_id t) tid then f t
    else if (0 <? length (subtasks t))%nat
         then withSubtasks t (map (plannerUpdateNode tid f) (subtasks t))
         else t.
Proof. by destruct t. Qed.

Lemma plannerRecursiveUpdate_eq (tasks : list SubTask) (tid : string)
    (f : SubTask → SubTask) :
  plannerRecursiveUpdate tasks tid f = recursiveUpdate tasks tid f.
Proof.
  unfold plannerRecursiveUpdate, recursiveUpdate.
  apply map_ext_Forall, Forall_forall. intros t _.
  induction t as [t IH] using SubTask_nested_ind.
  rewrite plannerUpdateNode_eq, recursiveUpdateNode_eq.
  destruct (String.eqb (task_id t) tid); [done|].
  destruct (subtasks t) as [|c r] eqn:Hsub.
  - cbn [length Nat.ltb Nat.leb map]. rewrite <- Hsub. symmetry.
    apply withSubtasks_same.
  - cbn [length Nat.ltb Nat.leb]. f_equal. by apply map_ext_Forall.
Qed.

Lemma updateTask_updateIn (ps : list Project) (pid tid : string)
    (u : PartialSubTask) :
  updateTask ps pid tid u = updateIn ps pid tid (fun t => spread t u).
Proof.
  unfold updateTask, updateIn. apply map_ext_Forall, Forall_forall. intros p _.
  by rewrite plannerRecursiveUpdate_eq.
Qed.

(** X10. The two copies of the update agree. The list view's [updateTask],
    built on its own [recursiveUpdate] with the extra test on the number of
    children, gives on every store the result of the application root's
    [handleUpdateTask]; so do the two [recursiveUpdate] functions. *)
Theorem planner_update_agrees_with_store_update (ps : list Project)
    (projectId taskId : string) (updates : PartialSubTask) :
  updateTask ps projectId taskId updates
  = handleUpdateTask ps projectId taskId updates ∧
  ∀ tasks f, plannerRecursiveUpdate tasks taskId f = recursiveUpdate tasks taskId f.
Proof.
  split; [|intros tasks f; apply plannerRecursiveUpdate_eq].
  by rewrite updateTask_updateIn, handleUpdateTask_updateIn.
Qed.

(** X11. Toggling twice. When the tasks a payload can refer to have the
    status the toggle is called with, and the second toggle is called with
    the status the first one set, the store is back to what it was, unless
    the status was IN_PROGRESS: then the tasks end as TODO. *)
Theorem toggle_twice (ps : list Project) (projectId taskId : string)
    (s : TaskStatus) :
  TargetStatus ps projectId taskId s →
  let s1 := if bool_decide (s = COMPLETED) then TODO else COMPLETED in
  toggleStatus (toggleStatus ps projectId taskId s) projectId taskId s1
  = if bool_decide (s = IN_PROGRESS)
    then updateTask ps projectId taskId (setStatus TODO)
    else ps.
Proof.
  intros Hst s1. unfold toggleStatus.
  rewrite !updateTask_updateIn, updateIn_comp by (intros t; by destruct t).
  destruct s; unfold s1; simpl.
  - apply updateIn_id. intros p t Hp Hpid Ht Htid.
    pose proof (Hst p t Hp Hpid Ht Htid). destruct t. simpl in *. by subst.
  - apply updateIn_ext. intros t. by destruct t.
  - apply updateIn_id. intros p t Hp Hpid Ht Htid.
    pose proof (Hst p t Hp Hpid Ht Htid). destruct t. simpl in *. by subst.
Qed.

Lemma toggle_twice_witness :
  TargetStatus twoStatuses "p" "D" COMPLETED ∧
  toggleStatus (toggleStatus twoStatuses "p" "D" COMPLETED) "p" "D" TODO
  = twoStatuses.
Proof.
  assert (Hst : TargetStatus twoStatuses "p" "D" COMPLETED).
  { intros p t Hp _ Ht Htid. apply list_elem_of_singleton in Hp as ->.
    vm_compute in Ht.
    apply elem_of_cons in Ht as [->|Ht]; [done|].
    apply list_elem_of_singleton in Ht as ->. discriminate. }
  split; [exact Hst|].
  exact (toggle_twice twoStatuses "p" "D" COMPLETED Hst).
Defined.

(** ** Deleting *)

Lemma deleteBelow_eq (tid : string) (t : SubTask) :
  deleteBelow tid t = withSubtasks t (deleteRecursive tid (subtasks t)).
Proof.
  destruct t as [i ti st em pr tg am sd dl pq subs]. cbn [deleteBelow subtasks].
  f_equal. unfold deleteRecursive.
  induction subs as [|c r IH]; [done|]. cbn [List.filter].
  destruct (negb (String.eqb (task_id c) tid)); [|exact IH].
  cbn [map]. by rewrite IH.
Qed.

Lemma deleteRecursive_cons (tid : string) (c : SubTask) (r : list SubTask) :
  deleteRecursive tid (c :: r)
  = if negb (String.eqb (task_id c) tid)
    then deleteBelow tid c :: deleteRecursive tid r
    else deleteRecursive tid r.
Proof.
  unfold deleteRecursive. cbn [List.filter].
  by destruct (negb (String.eqb (task_id c) tid)).
Qed.

Lemma keepNode_eq (tid : string) (t : SubTask) :
  keepNode tid t
  = if String.eqb (task_id t) tid then []
    else t :: flat_map (keepNode tid) (subtasks t).
Proof. by destruct t. Qed.

Lemma preorder_deleteRecursive (tid : string) (tasks : list SubTask) :
  ownFields <$> preorder (deleteRecursive tid tasks)
  = ownFields <$> flat_map (keepNode tid) tasks.
Proof.
  assert (Hlist : ∀ l,
    Forall (fun t => String.eqb (task_id t) tid = false →
                     ownFields <$> preorderNode (deleteBelow tid t)
                     = ownFields <$> keepNode tid t) l →
    ownFields <$> preorder (deleteRecursive tid l)
    = ownFields <$> flat_map (keepNode tid) l).
  { induction l as [|c r IH]; intros Hall; [done|].
    apply Forall_cons in Hall as [Hc Hr].
    rewrite deleteRecursive_cons. cbn [flat_map].
    destruct (String.eqb (task_id c) tid) eqn:E; cbn [negb].
    - rewrite (keepNode_eq tid c), E. by apply IH.
    - unfold preorder. cbn [flat_map]. rewrite !fmap_app.
      rewrite (Hc eq_refl). f_equal. by apply IH. }
  apply Hlist. apply Forall_forall. intros t _.
  induction t as [t IH] using SubTask_nested_ind. intros E.
  rewrite deleteBelow_eq, preorderNode_eq, keepNode_eq, E.
  replace (subtasks (withSubtasks t (deleteRecursive tid (subtasks t))))
    with (deleteRecursive tid (subtasks t)) by (by destruct t).
  rewrite !fmap_cons. f_equal; [..|by apply Hlist]; by destruct t.
Qed.

Lemma keepNode_id (tid : string) (t x : SubTask) :
  x ∈ keepNode tid t → task_id x ≠ tid.
Proof.
  revert x. induction t as [t IH] using SubTask_nested_ind. intros x.
  rewrite keepNode_eq.
  destruct (String.eqb_spec (task_id t) tid) as [|Hne]; [by intros ?%elem_of_nil|].
  intros [->|Hin]%elem_of_cons; [done|].
  apply list_elem_of_In, in_flat_map in Hin as (c & Hc & Hx).
  apply list_elem_of_In in Hc, Hx.
  by apply (proj1 (Forall_forall _ _) IH c Hc x).
Qed.

Lemma deleteRecursive_none_left (tid : string) (tasks : list SubTask) (x : SubTask) :
  x ∈ preorder (deleteRecursive tid tasks) → task_id x ≠ tid.
Proof.
  intros Hx.
  assert (Hin : ownFields x ∈ ownFields <$> preorder (deleteRecursive tid tasks))
    by (by apply list_elem_of_fmap_2).
  rewrite preorder_deleteRecursive in Hin.
  apply list_elem_of_fmap in Hin as (y & Hxy & Hy).
  apply list_elem_of_In, in_flat_map in Hy as (c & _ & Hy).
  apply list_elem_of_In, keepNode_id in Hy.
  replace (task_id x) with (task_id (ownFields x)) by (by destruct x).
  rewrite Hxy. by destruct y.
Qed.

Lemma deleteRecursive_absent (tid : string) (tasks : list SubTask) :
  (∀ x, x ∈ preorder tasks → task_id x ≠ tid) →
  deleteRecursive tid tasks = tasks.
Proof.
  assert (Hlist : ∀ l,
    Forall (fun t => (∀ x, x ∈ preorderNode t → task_id x ≠ tid) →
                     deleteBelow tid t = t) l →
    (∀ x, x ∈ preorder l → task_id x ≠ tid) →
    deleteRecursive tid l = l).
  { induction l as [|c r IH]; intros Hall Habs; [done|].
    apply Forall_cons in Hall as [Hc Hr].
    rewrite deleteRecursive_cons.
    assert (Hcx : ∀ x, x ∈ preorderNode c → task_id x ≠ tid).
    { intros x Hx. apply Habs. unfold preorder. cbn [flat_map].
      apply elem_of_app. by left. }
    destruct (String.eqb_spec (task_id c) tid) as [Heq|_]; cbn [negb].
    - exfalso. apply (Hcx c); [|done]. rewrite preorderNode_eq. by left.
    - rewrite (Hc Hcx). f_equal. apply IH; [done|].
      intros x Hx. apply Habs. unfold preorder. cbn [flat_map].
      apply elem_of_app. by right. }
  apply Hlist. apply Forall_forall. intros t _.
  induction t as [t IH] using SubTask_nested_ind. intros Habs.
  rewrite deleteBelow_eq.
  rewrite (Hlist (subtasks t) IH); [apply withSubtasks_same|].
  intros x Hx. apply Habs. rewrite preorderNode_eq. by right.
Qed.

Lemma deleteTask_lookup (ps : list Project) (pid tid : string) (i : nat) :
  deleteTask ps pid tid !! i
  = (fun p => if negb (String.eqb (proj_id p) pid) then p
              else withProjSubtasks p (deleteRecursive tid (proj_subtasks p)))
      <$> ps !! i.
Proof. unfold deleteTask. apply list_lookup_fmap. Qed.

Lemma deleteTask_absent (ps : list Project) (pid tid : string) :
  Absent (deleteTask ps pid tid) pid tid.
Proof.
  intros p' t Hp' Hpid Ht.
  apply list_elem_of_fmap in Hp' as (p & -> & Hp).
  destruct (String.eqb_spec (proj_id p) pid) as [Heq|Hne]; cbn [negb] in *.
  - replace (proj_subtasks (withProjSubtasks p (deleteRecursive tid (proj_subtasks p))))
      with (deleteRecursive tid (proj_subtasks p)) in Ht by (by destruct p).
    by eapply deleteRecursive_none_left.
  - done.
Qed.

Lemma deleteTask_of_absent (ps : list Project) (pid tid : string) :
  Absent ps pid tid → deleteTask ps pid tid = ps.
Proof.
  intros Habs. unfold deleteTask. transitivity (map id ps); [|apply map_id].
  apply map_ext_Forall, Forall_forall. intros p Hp.
  destruct (String.eqb_spec (proj_id p) pid) as [Heq|]; [|done]. cbn [negb].
  rewrite deleteRecursive_absent by (intros x Hx; by apply (Habs p x)).
  apply withProjSubtasks_same.
Qed.

(** X12. What a deletion removes. [deleteTask] keeps every project in its
    place with its other fields; in a project with the given id the tasks
    that remain are, in pre-order and with their own fields, exactly the
    tasks that had no task with the deleted id at or above them, so a task
    goes together with everything below it; other projects keep their task
    lists; no task with the deleted id is left in a project with that id;
    and a deletion done twice is the deletion done once. *)
Theorem delete_removes_subtrees (ps : list Project) (projectId taskId : string) :
  Forall2
    (fun p p' =>
       withProjSubtasks p' (proj_subtasks p) = p ∧
       if String.eqb (proj_id p) projectId
       then ownFields <$> preorder (proj_subtasks p')
            = ownFields <$> flat_map (keepNode taskId) (proj_subtasks p)
       else p' = p)
    ps (deleteTask ps projectId taskId) ∧
  Absent (deleteTask ps projectId taskId) projectId taskId ∧
  deleteTask (deleteTask ps projectId taskId) projectId taskId
  = deleteTask ps projectId taskId.
Proof.
  split; [|split; [apply deleteTask_absent|]];
    [|apply deleteTask_of_absent, deleteTask_absent].
  unfold deleteTask. apply Forall2_fmap_r, Forall_Forall2_diag, Forall_forall.
  intros p _. unfold compose.
  destruct (String.eqb (proj_id p) projectId); cbn [negb].
  - split; [by destruct p|].
    replace (proj_subtasks (withProjSubtasks p (deleteRecursive taskId (proj_subtasks p))))
      with (deleteRecursive taskId (proj_subtasks p)) by (by destruct p).
    apply preorder_deleteRecursive.
  - split; [apply withProjSubtasks_same|done].
Qed.

(** Deleting the child "X" of the stage takes its own child "Y" with it. *)
Example delete_takes_descendants :
  task_id <$> flat_map (fun p => preorder (proj_subtasks p))
                (deleteTask nestedStage "p" "X")
  = ["S"; "K"].
Proof. reflexivity. Qed.

(** X13. Deleting what is not there. When no task of a project with the
    given id has the given task id, [deleteTask] returns the store as it
    is. *)
Theorem delete_of_missing_task_changes_nothing (ps : list Project)
    (projectId taskId : string) :
  Absent ps projectId taskId → deleteTask ps projectId taskId = ps.
Proof. apply deleteTask_of_absent. Qed.

Lemma delete_of_missing_task_changes_nothing_witness :
  Absent busyMorning "p" "Z" ∧ deleteTask busyMorning "p" "Z" = busyMorning.
Proof.
  assert (Habs : Absent busyMorning "p" "Z").
  { intros p t Hp _ Ht Htid. apply list_elem_of_singleton in Hp as ->.
    vm_compute in Ht.
    apply elem_of_cons in Ht as [->|Ht]; [discriminate|].
    apply list_elem_of_singleton in Ht as ->. discriminate. }
  split; [exact Habs|].
  apply (delete_of_missing_task_changes_nothing busyMorning "p" "Z" Habs).
Defined.

(** ** Progress of a project *)

Lemma tally_ext (a b : Tally) :
  tally_total a = tally_total b → tally_completed a = tally_completed b →
  tally_totalMinutes a = tally_totalMinutes b →
  tally_completedMinutes a = tally_completedMinutes b → a = b.
Proof. destruct a, b. simpl. by intros -> -> -> ->. Qed.

Lemma sumEstimates_app (l k : list SubTask) :
  sumEstimates (l ++ k) = sumEstimates l + sumEstimates k.
Proof.
  unfold sumEstimates. induction l as [|x l IH]; [done|].
  cbn [app fmap list_fmap foldr] in *. rewrite IH. lia.
Qed.

Lemma addTally_nil (acc : Tally) : addTally acc [] = acc.
Proof. apply tally_ext; cbn; lia. Qed.

Lemma addTally_app (acc : Tally) (l k : list SubTask) :
  addTally acc (l ++ k) = addTally (addTally acc l) k.
Proof.
  unfold addTally. cbv zeta. cbn [tally_total tally_completed tally_totalMinutes
                                   tally_completedMinutes].
  rewrite !List.filter_app, !length_app, !sumEstimates_app.
  apply tally_ext; cbn; lia.
Qed.

Lemma orZero_id (x : Z) : orZero x = x.
Proof. unfold orZero. destruct (Z.eqb_spec x 0); lia. Qed.

Lemma traverseStats_eq (acc : Tally) (t : SubTask) :
  traverseStats acc t
  = let acc1 :=
      if (length (subtasks t) =? 0)%nat then
        let counted :=
          {| tally_total := S (tally_total acc);
             tally_completed := tally_completed acc;
             tally_totalMinutes := tally_totalMinutes acc + orZero (estimatedMinutes t);
             tally_completedMinutes := tally_completedMinutes acc |} in
        if bool_decide (status t = COMPLETED) then
          {| tally_total := tally_total counted;
             tally_completed := S (tally_completed counted);
             tally_totalMinutes := tally_totalMinutes counted;
             tally_completedMinutes :=
               tally_completedMinutes counted + orZero (estimatedMinutes t) |}
        else counted
      else acc in
    if (0 <? length (subtasks t))%nat
    then fold_left traverseStats (subtasks t) acc1
    else acc1.
Proof. by destruct t. Qed.

Lemma traverseStats_fold (l : list SubTask) :
  Forall (fun t => ∀ acc, traverseStats acc t = addTally acc (preorderNode t)) l →
  ∀ acc, fold_left traverseStats l acc = addTally acc (preorder l).
Proof.
  induction l as [|c r IH]; intros Hall acc.
  - by rewrite addTally_nil.
  - apply Forall_cons in Hall as [Hc Hr]. cbn [fold_left].
    rewrite Hc, (IH Hr). unfold preorder. cbn [flat_map].
    by rewrite addTally_app.
Qed.

Lemma traverseStats_spec (t : SubTask) (acc : Tally) :
  traverseStats acc t = addTally acc (preorderNode t).
Proof.
  revert acc. induction t as [t IH] using SubTask_nested_ind. intros acc.
  rewrite traverseStats_eq, preorderNode_eq. cbv zeta.
  change (t :: flat_map preorderNode (subtasks t))
    with ([t] ++ preorder (subtasks t)).
  rewrite addTally_app.
  destruct (subtasks t) as [|c r] eqn:Hsub.
  - cbn [length Nat.eqb Nat.ltb Nat.leb].
    change (preorder []) with (@nil SubTask). rewrite addTally_nil.
    unfold addTally. cbv zeta. cbn [List.filter]. unfold isLeaf at 1 2 3 4.
    rewrite Hsub. cbn [length Nat.eqb List.filter]. unfold isCompleted.
    rewrite orZero_id.
    destruct (bool_decide (status t = COMPLETED));
      apply tally_ext; cbn; unfold sumEstimates; cbn; lia.
  - cbn [length Nat.eqb Nat.ltb Nat.leb].
    rewrite (traverseStats_fold (c :: r) IH). f_equal.
    unfold addTally. cbv zeta. cbn [List.filter]. unfold isLeaf at 1 2 3 4.
    rewrite Hsub. cbn [length Nat.eqb List.filter].
    apply tally_ext; cbn; lia.
Qed.

Lemma filter_length_le {A : Type} (f : A → bool) (l : list A) :
  (length (List.filter f l) ≤ length l)%nat.
Proof.
  induction l as [|x l IH]; [done|]. cbn [List.filter].
  destruct (f x); cbn [length]; lia.
Qed.

(** X14. What the progress of a project counts. The four accumulators of
    [calculateProjectStats] are the number of leaves of the tree, the number
    of finished leaves, the sum of the estimates of the leaves and the sum
    of the estimates of the finished leaves: a task with children adds
    neither its status nor its estimate, at any depth. The number of
    finished tasks never exceeds the total. *)
Theorem project_stats_count_leaves (tasks : list SubTask) :
  let stats := calculateProjectStats tasks in
  tally_total stats = length (leaves tasks) ∧
  tally_completed stats = length (List.filter isCompleted (leaves tasks)) ∧
  tally_totalMinutes stats = sumEstimates (leaves tasks) ∧
  tally_completedMinutes stats = sumEstimates (List.filter isCompleted (leaves tasks)) ∧
  (tally_completed stats ≤ tally_total stats)%nat.
Proof.
  cbv zeta. unfold calculateProjectStats.
  rewrite (traverseStats_fold tasks)
    by (apply Forall_forall; intros t _ acc; apply traverseStats_spec).
  unfold addTally, leaves. cbv zeta.
  cbn [tally_total tally_completed tally_totalMinutes tally_completedMinutes].
  split; [done|]. split; [done|]. split; [lia|]. split; [lia|].
  apply filter_length_le.
Qed.

(** ** Sorting *)

Lemma insertSorted_perm {A : Type} (cmp : A → A → Z) (x : A) (l : list A) :
  insertSorted cmp x l ≡ₚ x :: l.
Proof.
  induction l as [|y r IH]; [done|]. cbn [insertSorted].
  destruct (cmp x y <=? 0); [done|].
  rewrite IH. apply Permutation_swap.
Qed.

Lemma jsSort_perm {A : Type} (cmp : A → A → Z) (l : list A) : jsSort cmp l ≡ₚ l.
Proof.
  unfold jsSort. induction l as [|x l IH]; [done|]. cbn [fold_right].
  by rewrite insertSorted_perm, IH.
Qed.

Lemma jsSort_length {A : Type} (cmp : A → A → Z) (l : list A) :
  length (jsSort cmp l) = length l.
Proof. apply Permutation_length, jsSort_perm. Qed.

(** ** The counters of the sidebar *)

Lemma counts_ext (a b : Counts) :
  count_inbox a = count_inbox b → count_today a = count_today b →
  count_upcoming a = count_upcoming b → a = b.
Proof. destruct a, b. simpl. by intros -> -> ->. Qed.

Lemma addCounts_nil (today : Z) (acc : Counts) : addCounts today acc [] = acc.
Proof. apply counts_ext; cbn; lia. Qed.

Lemma addCounts_app (today : Z) (acc : Counts) (l k : list SubTask) :
  addCounts today acc (l ++ k) = addCounts today (addCounts today acc l) k.
Proof.
  unfold addCounts. cbn [count_inbox count_today count_upcoming].
  rewrite !List.filter_app, !length_app. apply counts_ext; cbn; lia.
Qed.

Lemma activeNode_eq (t : SubTask) :
  activeNode t
  = if bool_decide (status t = COMPLETED) then []
    else t :: flat_map activeNode (subtasks t).
Proof. by destruct t. Qed.

Lemma countNode_eq (a b : Z) (acc : Counts) (t : SubTask) :
  countNode a b acc t
  = if bool_decide (status t = COMPLETED) then acc
    else
      let acc1 :=
        if negb (truthyZ (scheduledDate t)) then
          mkCounts (S (count_inbox acc)) (count_today acc) (count_upcoming acc)
        else
          let d := default 0 (scheduledDate t) in
          if (a <=? d) && (d <? b) then
            mkCounts (count_inbox acc) (S (count_today acc)) (count_upcoming acc)
          else if b <=? d then
            mkCounts (count_inbox acc) (count_today acc) (S (count_upcoming acc))
          else acc in
      fold_left (countNode a b) (subtasks t) acc1.
Proof. by destruct t. Qed.

Lemma countNode_fold (today : Z) (l : list SubTask) :
  Forall (fun t => ∀ acc, countNode today (today + 86400000) acc t
                          = addCounts today acc (activeNode t)) l →
  ∀ acc, fold_left (countNode today (today + 86400000)) l acc
         = addCounts today acc (flat_map activeNode l).
Proof.
  induction l as [|c r IH]; intros Hall acc.
  - by rewrite addCounts_nil.
  - apply Forall_cons in Hall as [Hc Hr]. cbn [fold_left flat_map].
    by rewrite Hc, (IH Hr), addCounts_app.
Qed.

Lemma countNode_spec (today : Z) (t : SubTask) (acc : Counts) :
  countNode today (today + 86400000) acc t = addCounts today acc (activeNode t).
Proof.
  revert acc. induction t as [t IH] using SubTask_nested_ind. intros acc.
  rewrite countNode_eq, activeNode_eq.
  destruct (bool_decide (status t = COMPLETED)); [by rewrite addCounts_nil|].
  cbv zeta. rewrite (countNode_fold today (subtasks t) IH).
  change (t :: flat_map activeNode (subtasks t))
    with ([t] ++ flat_map activeNode (subtasks t)).
  rewrite addCounts_app. f_equal.
  unfold addCounts, inInbox, inToday, inUpcoming. cbn [List.filter].
  destruct (truthyZ (scheduledDate t)); cbn [negb andb].
  - destruct (Z.leb_spec today (default 0 (scheduledDate t)));
      destruct (Z.ltb_spec (default 0 (scheduledDate t)) (today + 86400000));
      destruct (Z.leb_spec (today + 86400000) (default 0 (scheduledDate t)));
      cbn [andb]; try lia; apply counts_ext; cbn; lia.
  - apply counts_ext; cbn; lia.
Qed.

Lemma counts_spec (tz now : Z) (projects : list Project) :
  counts tz now projects
  = addCounts (setHours tz now 0 0 0 0) (mkCounts 0 0 0) (activeTasks projects).
Proof.
  unfold counts, activeTasks. cbv zeta.
  generalize (mkCounts 0 0 0).
  induction projects as [|p ps IH]; intros acc.
  - by rewrite addCounts_nil.
  - cbn [fold_left flat_map]. rewrite IH, addCounts_app. f_equal.
    apply countNode_fold, Forall_forall. intros t _ acc'. apply countNode_spec.
Qed.

(** The flattening of the list view is the pre-order. *)
Lemma flattenItem_preorder (tasks : list SubTask) :
  flat_map flattenItem tasks = preorder tasks.
Proof.
  unfold preorder. induction tasks as [|c r IH]; [done|].
  cbn [flat_map]. rewrite IH. f_equal.
Qed.

Lemma allTasks_eq (projects : list Project) :
  allTasks projects
  = flat_map (fun p => mkEntry p <$> preorder (proj_subtasks p)) projects.
Proof.
  unfold allTasks. induction projects as [|p ps IH]; [done|].
  cbn [flat_map]. by rewrite IH, flattenItem_preorder.
Qed.

Lemma filter_entries_length (f : SubTask → bool) (projects : list Project) :
  length (List.filter (fun e => f (task e)) (allTasks projects))
  = length (List.filter f (flat_map (fun p => preorder (proj_subtasks p)) projects)).
Proof.
  rewrite allTasks_eq. induction projects as [|p ps IH]; [done|].
  cbn [flat_map]. rewrite !List.filter_app, !length_app, IH. f_equal.
  induction (preorder (proj_subtasks p)) as [|t l IHl]; [done|].
  rewrite fmap_cons. cbn [List.filter task].
  destruct (f t); cbn [length]; by rewrite IHl.
Qed.

(** What is counted among the active tasks is counted in the flattened list
    as well. *)
Lemma active_length_le (f : SubTask → bool) (projects : list Project) :
  (length (List.filter f (activeTasks projects))
   ≤ length (List.filter (fun t => negb (isCompleted t) && f t)
               (flat_map (fun p => preorder (proj_subtasks p)) projects)))%nat.
Proof.
  assert (Hlist : ∀ l,
    Forall (fun t =>
      (length (List.filter f (activeNode t))
       ≤ length (List.filter (fun t => negb (isCompleted t) && f t)
                   (preorderNode t)))%nat) l →
    (length (List.filter f (flat_map activeNode l))
     ≤ length (List.filter (fun t => negb (isCompleted t) && f t) (preorder l)))%nat).
  { induction l as [|c r IH]; intros Hall; [done|].
    apply Forall_cons in Hall as [Hc Hr]. unfold preorder in *.
    cbn [flat_map]. rewrite !List.filter_app, !length_app.
    specialize (IH Hr). lia. }
  assert (Hnode : ∀ t,
    (length (List.filter f (activeNode t))
     ≤ length (List.filter (fun t => negb (isCompleted t) && f t)
                 (preorderNode t)))%nat).
  { induction t as [t IH] using SubTask_nested_ind.
    rewrite activeNode_eq, preorderNode_eq. cbn [List.filter]. unfold isCompleted at 1.
    destruct (bool_decide (status t = COMPLETED)); cbn [negb andb List.filter length].
    - apply Nat.le_0_l.
    - specialize (Hlist (subtasks t) IH). unfold preorder in Hlist.
      destruct (f t); cbn [length]; lia. }
  unfold activeTasks. induction projects as [|p ps IH]; [done|].
  cbn [flat_map]. rewrite !List.filter_app, !length_app.
  pose proof (Hlist (proj_subtasks p)
                (proj2 (Forall_forall _ _) (fun t _ => Hnode t))) as Hp.
  lia.
Qed.

Lemma filter_ext_length {A : Type} (f g : A → bool) (l : list A) :
  (∀ x, f x = g x) → length (List.filter f l) = length (List.filter g l).
Proof. intros H. by rewrite (List.filter_ext f g H). Qed.

Lemma smart_list_lengths (tz now : Z) (projects : list Project) :
  let today := setHours tz now 0 0 0 0 in
  let all := flat_map (fun p => preorder (proj_subtasks p)) projects in
  length (filteredData tz now "INBOX" projects)
  = length (List.filter (fun t => negb (isCompleted t) && inInbox t) all) ∧
  length (filteredData tz now "TODAY" projects)
  = length (List.filter (fun t => negb (isCompleted t) && inToday today t) all) ∧
  length (filteredData tz now "UPCOMING" projects)
  = length (List.filter (fun t => negb (isCompleted t) && inUpcoming today t) all).
Proof.
  cbv zeta. unfold filteredData. rewrite !jsSort_length.
  unfold filterTasks. cbn [String.eqb Ascii.eqb Bool.eqb andb]. cbv zeta.
  rewrite <- !filter_entries_length.
  split; [|split]; apply filter_ext_length; intros e;
    unfold isCompleted, inInbox, inToday, inUpcoming;
    destruct (bool_decide (status (task e) = COMPLETED));
    destruct (truthyZ (scheduledDate (task e))); reflexivity.
Qed.

(** X15. What the sidebar counts. The three counters of [counts] are the
    numbers of inbox, today and upcoming tasks among the tasks reached
    without passing through a finished task, so the open tasks below a
    finished task are not counted; the smart lists of [filteredData],
    evaluated at the same instant, are taken from the whole flattened tree.
    Each counter is therefore at most the length of its list. *)
Theorem sidebar_counts_active_tasks (tz now : Z) (projects : list Project) :
  let today := setHours tz now 0 0 0 0 in
  let c := counts tz now projects in
  count_inbox c = length (List.filter inInbox (activeTasks projects)) ∧
  count_today c = length (List.filter (inToday today) (activeTasks projects)) ∧
  count_upcoming c = length (List.filter (inUpcoming today) (activeTasks projects)) ∧
  (count_inbox c ≤ length (filteredData tz now "INBOX" projects))%nat ∧
  (count_today c ≤ length (filteredData tz now "TODAY" projects))%nat ∧
  (count_upcoming c ≤ length (filteredData tz now "UPCOMING" projects))%nat.
Proof.
  cbv zeta. rewrite counts_spec. unfold addCounts.
  cbn [count_inbox count_today count_upcoming].
  destruct (smart_list_lengths tz now projects) as (-> & -> & ->).
  split; [done|]. split; [done|]. split; [done|].
  split; [|split]; apply active_length_le.
Qed.

(** An open task below a finished stage: the list shows it, the counter
    does not count it. *)
Example sidebar_can_undercount :
  count_inbox (counts 0 noonOfDay10 finishedStage) = 0%nat ∧
  task_id ∘ task <$> filteredData 0 noonOfDay10 "INBOX" finishedStage = ["T"].
Proof. split; reflexivity. Qed.

Lemma active_filter_eq (f : SubTask → bool) (projects : list Project) :
  FinishedAreLeaves projects →
  List.filter f (activeTasks projects)
  = List.filter (fun t => negb (isCompleted t) && f t)
      (flat_map (fun p => preorder (proj_subtasks p)) projects).
Proof.
  assert (Hlist : ∀ l,
    Forall (fun t =>
      (∀ x, x ∈ preorderNode t → status x = COMPLETED → subtasks x = []) →
      List.filter f (activeNode t)
      = List.filter (fun t => negb (isCompleted t) && f t) (preorderNode t)) l →
    (∀ x, x ∈ preorder l → status x = COMPLETED → subtasks x = []) →
    List.filter f (flat_map activeNode l)
    = List.filter (fun t => negb (isCompleted t) && f t) (preorder l)).
  { induction l as [|c r IH]; intros Hall Hfin; [done|].
    apply Forall_cons in Hall as [Hc Hr]. unfold preorder in *.
    cbn [flat_map] in *. rewrite !List.filter_app.
    rewrite Hc by (intros x Hx; apply Hfin, elem_of_app; by left).
    rewrite (IH Hr) by (intros x Hx; apply Hfin, elem_of_app; by right).
    done. }
  assert (Hnode : ∀ t,
    (∀ x, x ∈ preorderNode t → status x = COMPLETED → subtasks x = []) →
    List.filter f (activeNode t)
    = List.filter (fun t => negb (isCompleted t) && f t) (preorderNode t)).
  { induction t as [t IH] using SubTask_nested_ind. intros Hfin.
    rewrite activeNode_eq, preorderNode_eq. cbn [List.filter]. unfold isCompleted at 1.
    destruct (bool_decide (status t = COMPLETED)) eqn:E;
      cbn [negb andb List.filter].
    - apply bool_decide_eq_true in E.
      rewrite (Hfin t); [done| |done]. rewrite preorderNode_eq. by left.
    - rewrite (Hlist (subtasks t) IH); [done|].
      intros x Hx. apply Hfin. rewrite preorderNode_eq. by right. }
  intros Hfin. unfold activeTasks.
  induction projects as [|p ps IH]; [done|].
  cbn [flat_map]. rewrite !List.filter_app.
  rewrite IH
    by (intros q t Hq; apply (Hfin q t); apply elem_of_cons; by right).
  f_equal. apply Hlist.
  - apply Forall_forall. intros t _. apply Hnode.
  - intros x Hx. apply (Hfin p x); [|done]. apply elem_of_cons. by left.
Qed.

(** X16. When the counters agree with the lists. In a store where no
    finished task has children, each counter of [counts] is the length of
    the smart list of [filteredData] of the same name, both evaluated at the
    same instant. *)
Theorem sidebar_counts_match_lists (tz now : Z) (projects : list Project) :
  FinishedAreLeaves projects →
  let c := counts tz now projects in
  count_inbox c = length (filteredData tz now "INBOX" projects) ∧
  count_today c = length (filteredData tz now "TODAY" projects) ∧
  count_upcoming c = length (filteredData tz now "UPCOMING" projects).
Proof.
  intros Hfin. cbv zeta. rewrite counts_spec. unfold addCounts.
  cbn [count_inbox count_today count_upcoming].
  destruct (smart_list_lengths tz now projects) as (-> & -> & ->).
  by rewrite !(active_filter_eq _ projects Hfin).
Qed.

Lemma sidebar_counts_match_lists_witness :
  FinishedAreLeaves twoStatuses ∧
  count_inbox (counts 0 noonOfDay10 twoStatuses)
  = length (filteredData 0 noonOfDay10 "INBOX" twoStatuses).
Proof.
  assert (Hfin : FinishedAreLeaves twoStatuses).
  { intros p t Hp Ht _. apply list_elem_of_singleton in Hp as ->.
    vm_compute in Ht.
    apply elem_of_cons in Ht as [->|Ht]; [done|].
    by apply list_elem_of_singleton in Ht as ->. }
  split; [exact Hfin|].
  apply (sidebar_counts_match_lists 0 noonOfDay10 twoStatuses Hfin).
Defined.

(** ** The smart lists *)

Lemma elem_of_filteredData (tz now : Z) (name : string) (projects : list Project)
    (e : QueueEntry) :
  e ∈ filteredData tz now name projects ↔ e ∈ filterTasks tz now name projects.
Proof. unfold filteredData. by rewrite jsSort_perm. Qed.

Lemma elem_of_List_filter {A : Type} (f : A → bool) (l : list A) (x : A) :
  x ∈ List.filter f l ↔ x ∈ l ∧ f x = true.
Proof. rewrite !list_elem_of_In. apply filter_In. Qed.

(** X17. The smart lists do not overlap, and what they leave out. No entry
    is in two of the lists Inbox, Today and Upcoming evaluated at the same
    instant. An entry is in one of them exactly when it is a task of the
    store that is not finished and is not scheduled, with a truthy instant,
    before today's local midnight: finished tasks and open tasks scheduled
    in the past are in none of the three. *)
Theorem smart_lists_partition (tz now : Z) (projects : list Project)
    (e : QueueEntry) :
  let today := setHours tz now 0 0 0 0 in
  let inList := fun name => e ∈ filteredData tz now name projects in
  let sd := scheduledDate (task e) in
  ¬ (inList "INBOX" ∧ inList "TODAY") ∧
  ¬ (inList "INBOX" ∧ inList "UPCOMING") ∧
  ¬ (inList "TODAY" ∧ inList "UPCOMING") ∧
  (inList "INBOX" ∨ inList "TODAY" ∨ inList "UPCOMING" ↔
   e ∈ allTasks projects ∧ status (task e) ≠ COMPLETED ∧
   ¬ (truthyZ sd = true ∧ default 0 sd < today)).
Proof.
  cbv zeta. rewrite !elem_of_filteredData. unfold filterTasks.
  cbn [String.eqb Ascii.eqb Bool.eqb andb]. cbv zeta.
  rewrite !elem_of_List_filter.
  set (today := setHours tz now 0 0 0 0).
  destruct (bool_decide (status (task e) = COMPLETED)) eqn:Ec;
    [apply bool_decide_eq_true in Ec|apply bool_decide_eq_false in Ec];
    destruct (truthyZ (scheduledDate (task e))) eqn:Et; cbn [negb andb];
    destruct (Z.leb_spec today (default 0 (scheduledDate (task e))));
    destruct (Z.ltb_spec (default 0 (scheduledDate (task e))) (today + 86400000));
    destruct (Z.leb_spec (today + 86400000) (default 0 (scheduledDate (task e))));
    cbn [andb]; try lia;
    intuition (try discriminate; try lia; try congruence).
Qed.

(** ** The order of the list *)

Lemma compareTasks_eq (a b : QueueEntry) :
  compareTasks a b
  = if negb ((rankOf a).1 =? (rankOf b).1) then (rankOf a).1 - (rankOf b).1
    else (rankOf a).2 - (rankOf b).2.
Proof. unfold compareTasks, rankOf. cbv zeta. cbn [fst snd]. by rewrite !orZero_id. Qed.

Lemma compareTasks_le (a b : QueueEntry) : compareTasks a b ≤ 0 ↔ rankBefore a b.
Proof.
  rewrite compareTasks_eq. unfold rankBefore.
  destruct (Z.eqb_spec (rankOf a).1 (rankOf b).1); cbn [negb]; lia.
Qed.

Lemma compareTasks_total (a b : QueueEntry) :
  ¬ compareTasks a b ≤ 0 → compareTasks b a ≤ 0.
Proof.
  rewrite !compareTasks_eq.
  destruct (Z.eqb_spec (rankOf a).1 (rankOf b).1);
    destruct (Z.eqb_spec (rankOf b).1 (rankOf a).1); cbn [negb]; lia.
Qed.

Lemma compareTasks_trans (a b c : QueueEntry) :
  compareTasks a b ≤ 0 → compareTasks b c ≤ 0 → compareTasks a c ≤ 0.
Proof. rewrite !compareTasks_le. unfold rankBefore. lia. Qed.

Lemma compareTasks_ranks_differ (x a b : QueueEntry) :
  ¬ compareTasks a b ≤ 0 → sameRank x a = true → sameRank x b = false.
Proof.
  rewrite compareTasks_le. unfold rankBefore, sameRank.
  intros Hab [H1 H2]%andb_prop. apply Z.eqb_eq in H1, H2.
  apply andb_false_iff.
  destruct (Z.eqb_spec (rankOf x).1 (rankOf b).1); [|by left].
  right. apply Z.eqb_neq. lia.
Qed.

Section SortFacts.

Context {A : Type}.
Variable cmp : A → A → Z.
Hypothesis cmp_total : ∀ x y, ¬ cmp x y ≤ 0 → cmp y x ≤ 0.
Hypothesis cmp_trans : ∀ x y z, cmp x y ≤ 0 → cmp y z ≤ 0 → cmp x z ≤ 0.

Lemma insertSorted_sorted (x : A) (l : list A) :
  sortedBy (fun a b => cmp a b ≤ 0) l →
  sortedBy (fun a b => cmp a b ≤ 0) (insertSorted cmp x l).
Proof.
  induction l as [|y r IH]; intros Hs.
  - cbn. split; [apply List.Forall_nil|done].
  - destruct Hs as [Hy Hr]. cbn [insertSorted].
    destruct (Z.leb_spec (cmp x y) 0) as [Hle|Hgt].
    + split; [|by split]. apply List.Forall_cons; [done|].
      eapply Forall_impl; [exact Hy|]. intros z Hz. by eapply cmp_trans.
    + split; [|by apply IH].
      rewrite insertSorted_perm. apply List.Forall_cons; [|done].
      apply cmp_total. lia.
Qed.

Lemma jsSort_sorted (l : list A) : sortedBy (fun a b => cmp a b ≤ 0) (jsSort cmp l).
Proof.
  unfold jsSort. induction l as [|x l IH]; [done|].
  cbn [fold_right]. by apply insertSorted_sorted.
Qed.

Lemma filter_insertSorted (g : A → bool) (x : A) (l : list A) :
  (∀ y, ¬ cmp x y ≤ 0 → g x = true → g y = false) →
  List.filter g (insertSorted cmp x l) = List.filter g (x :: l).
Proof.
  intros Hg. induction l as [|y r IH]; [done|]. cbn [insertSorted].
  destruct (Z.leb_spec (cmp x y) 0) as [Hle|Hgt]; [done|].
  cbn [List.filter] in *. rewrite IH.
  destruct (g x) eqn:Ex; [|done].
  by rewrite (Hg y ltac:(lia) eq_refl).
Qed.

Lemma filter_jsSort (g : A → bool) (l : list A) :
  (∀ x y, ¬ cmp x y ≤ 0 → g x = true → g y = false) →
  List.filter g (jsSort cmp l) = List.filter g l.
Proof.
  intros Hg. unfold jsSort. induction l as [|x l IH]; [done|].
  cbn [fold_right]. rewrite filter_insertSorted by apply Hg.
  cbn [List.filter]. by rewrite IH.
Qed.

End SortFacts.

Lemma sortedBy_impl {A : Type} (R R' : A → A → Prop) (l : list A) :
  (∀ a b, R a b → R' a b) → sortedBy R l → sortedBy R' l.
Proof.
  intros H. induction l as [|x r IH]; [done|]. intros [Hx Hr].
  split; [|by apply IH]. eapply Forall_impl; [exact Hx|]. apply H.
Qed.

(** X18. The order of the list view. The tasks of [filteredData] are the
    tasks that pass the filter, each as often as it passes; every task is
    ranked no later than every task after it, by priority (a task without
    priority ranks as P4) and then by scheduled instant (a task without one
    ranks as 0); and tasks of the same rank keep the order of the store. *)
Theorem list_is_sorted_by_priority_then_date (tz now : Z) (activeFilter : string)
    (projects : list Project) :
  let shown := filteredData tz now activeFilter projects in
  shown ≡ₚ filterTasks tz now activeFilter projects ∧
  sortedBy rankBefore shown ∧
  ∀ x, List.filter (sameRank x) shown
       = List.filter (sameRank x) (filterTasks tz now activeFilter projects).
Proof.
  cbv zeta. unfold filteredData. split; [apply jsSort_perm|]. split.
  - eapply sortedBy_impl; [|apply jsSort_sorted].
    + intros a b. apply compareTasks_le.
    + apply compareTasks_total.
    + apply compareTasks_trans.
  - intros x. apply filter_jsSort. intros a b. apply compareTasks_ranks_differ.
Qed.

(** * Focus sessions *)

Lemma handleSessionComplete_projects (st : AppState) (session : FocusSession)
    (sid : string) :
  truthyString (session_projectId session) = true →
  session_subtaskId session = Some sid → truthyString sid = true →
  app_projects (handleSessionComplete st session)
  = updateIn (app_projects st) (session_projectId session) sid (recordSession session).
Proof.
  intros Hp Hs Hsid. unfold handleSessionComplete. cbn [app_projects].
  rewrite Hp, Hs. cbn [truthyOptString]. rewrite Hsid. reflexivity.
Qed.

(** X19. A session is credited to its task. When a session carries a
    project id and a task id, [handleSessionComplete] puts the session at the
    head of the history and the task these ids refer to becomes the same
    task with the session's actual minutes added to its own (0 when it had
    none) and, exactly when the session is completed, the status COMPLETED;
    its id, estimate, scheduled instant and children are as before. *)
Theorem session_is_credited_to_task (st : AppState) (session : FocusSession)
    (sid : string) :
  truthyString (session_projectId session) = true →
  session_subtaskId session = Some sid → truthyString sid = true →
  let st' := handleSessionComplete st session in
  app_history st' = session :: app_history st ∧
  lookupTask (app_projects st') (session_projectId session) sid
  = recordSession session <$> lookupTask (app_projects st) (session_projectId session) sid ∧
  ∀ t, let t' := recordSession session t in
       actualMinutes t'
       = Some (default 0 (actualMinutes t) + session_actualDurationMinutes session) ∧
       status t' = (if session_completed session then COMPLETED else status t) ∧
       task_id t' = task_id t ∧ estimatedMinutes t' = estimatedMinutes t ∧
       scheduledDate t' = scheduledDate t ∧ subtasks t' = subtasks t.
Proof.
  intros Hp Hs Hsid st'. split; [done|]. split.
  - unfold st'. rewrite (handleSessionComplete_projects st session sid) by done.
    by apply lookupTask_updateIn.
  - intros t t'. unfold t', recordSession. cbn. by rewrite orZero_id.
Qed.

Lemma session_is_credited_to_task_witness :
  actualMinutes
  <$> lookupTask (app_projects (handleSessionComplete (appAt busyMorning) givenUp))
        "p" "A"
  = Some (Some 12).
Proof.
  destruct (session_is_credited_to_task (appAt busyMorning) givenUp "A"
              eq_refl eq_refl eq_refl) as (_ & Hlook & _).
  cbv zeta in Hlook. change (session_projectId givenUp) with "p" in Hlook.
  rewrite Hlook. reflexivity.
Defined.

(** The history after a list of sessions: latest first. *)
Lemma fold_sessions_history (sessions : list FocusSession) (st : AppState) :
  app_history (fold_left handleSessionComplete sessions st)
  = rev sessions ++ app_history st.
Proof.
  revert st. induction sessions as [|s l IH]; intros st; [done|].
  cbn [fold_left rev]. rewrite IH. cbn [handleSessionComplete app_history].
  by rewrite <- app_assoc.
Qed.

(** X20. Sessions add up. After any number of sessions that carry the same
    project id and task id, the history holds them, latest first, in front
    of what it held; the task these ids refer to has as actual minutes what
    it had plus the sum of the sessions' actual minutes, it is COMPLETED
    exactly when it was or one of the sessions was completed (a later
    session that was given up does not reopen it), and it keeps its id and
    its estimate. *)
Theorem sessions_add_up (st : AppState) (sessions : list FocusSession)
    (pid sid : string) (t : SubTask) :
  truthyString pid = true → truthyString sid = true →
  Forall (fun s => session_projectId s = pid ∧ session_subtaskId s = Some sid) sessions →
  lookupTask (app_projects st) pid sid = Some t →
  let st' := fold_left handleSessionComplete sessions st in
  app_history st' = rev sessions ++ app_history st ∧
  ∃ t', lookupTask (app_projects st') pid sid = Some t' ∧
        default 0 (actualMinutes t')
        = default 0 (actualMinutes t)
          + foldr Z.add 0 (session_actualDurationMinutes <$> sessions) ∧
        status t' = (if existsb session_completed sessions then COMPLETED
                     else status t) ∧
        task_id t' = task_id t ∧ estimatedMinutes t' = estimatedMinutes t.
Proof.
  intros Hp Hsid Hall Hlook st'. split; [apply fold_sessions_history|].
  unfold st'. clear st'. revert st t Hlook.
  induction Hall as [|s l [Hsp Hss] _ IH]; intros st t Hlook.
  - exists t. cbn. split; [done|]. split; [lia|]. done.
  - cbn [fold_left].
    assert (Hstep : lookupTask (app_projects (handleSessionComplete st s)) pid sid
                    = Some (recordSession s t)).
    { rewrite (handleSessionComplete_projects st s sid) by (by rewrite ?Hsp).
      rewrite Hsp, lookupTask_updateIn by done. by rewrite Hlook. }
    destruct (IH _ _ Hstep) as (t' & Hl' & Ham & Hst & Hid & Hest).
    exists t'. split; [exact Hl'|]. rewrite Ham, Hst, Hid, Hest.
    rewrite fmap_cons. cbn [foldr existsb recordSession actualMinutes status
                            task_id estimatedMinutes from_option id].
    rewrite orZero_id.
    split; [lia|]. split; [|done].
    destruct (session_completed s); cbn [orb]; [|done].
    by destruct (existsb session_completed l).
Qed.

Lemma sessions_add_up_witness :
  ∃ t', lookupTask
          (app_projects
             (fold_left handleSessionComplete [givenUp; givenUp] (appAt busyMorning)))
          "p" "A" = Some t' ∧
        default 0 (actualMinutes t') = 24.
Proof.
  destruct (sessions_add_up (appAt busyMorning) [givenUp; givenUp] "p" "A"
              (sampleTask "A" TODO 20 None []) eq_refl eq_refl)
    as (_ & t' & Hl & Ham & _).
  - apply List.Forall_cons; [done|]. apply List.Forall_cons; [done|].
    apply List.Forall_nil.
  - reflexivity.
  - exists t'. split; [exact Hl|]. exact Ham.
Defined.

(** X21. A session that names no task. When the session's project id or
    task id is missing or empty, or when no task of a project with that id
    has the task id, [handleSessionComplete] leaves the projects as they are;
    the session still enters the history and the timer is reset. *)
Theorem session_without_task_only_enters_history (st : AppState)
    (session : FocusSession) :
  truthyString (session_projectId session) = false ∨
  truthyOptString (session_subtaskId session) = false ∨
  Absent (app_projects st) (session_projectId session)
    (default "" (session_subtaskId session)) →
  let st' := handleSessionComplete st session in
  app_projects st' = app_projects st ∧
  app_history st' = session :: app_history st ∧
  timer_isActive (app_timer st') = false ∧ timer_startTime (app_timer st') = None.
Proof.
  intros Hcase st'. split; [|done].
  unfold st', handleSessionComplete. cbn [app_projects].
  destruct (truthyString (session_projectId session)) eqn:Ep; [|done].
  destruct (truthyOptString (session_subtaskId session)) eqn:Es; [|done].
  cbn [andb]. destruct Hcase as [?|[?|Habs]]; [done|done|].
  apply (updateIn_id (app_projects st) (session_projectId session)
           (default "" (session_subtaskId session)) (recordSession session)).
  intros p t Hpin Hpid Ht Htid. by destruct (Habs p t Hpin Hpid Ht).
Qed.

Lemma session_without_task_only_enters_history_witness :
  app_projects
    (handleSessionComplete (appAt busyMorning)
       (mkSession "s2" "general" None 1000 (Some 61000) 25 1 None false))
  = busyMorning.
Proof.
  apply (session_without_task_only_enters_history (appAt busyMorning)
           (mkSession "s2" "general" None 1000 (Some 61000) 25 1 None false)).
  right. left. reflexivity.
Defined.

(** * The focus timer *)

(** X22. The minutes of a finished session. The session handed over by
    [handleFinish] names the project and task of the timer state; its
    planned minutes are the estimate of the task the user looks at, or 25
    when there is none or the estimate is not positive; its actual minutes
    are the planned minutes when the session is completed, whatever time has
    passed, and otherwise the whole minutes between the start and the second
    clock reading, but never less than 1. *)
Theorem finished_session_minutes (timerState : TimerState)
    (activeContextSubtask : option SubTask) (now1 now2 : Z) (newId : string)
    (completed : bool) (reason : option string) :
  let s := handleFinish timerState activeContextSubtask now1 now2 newId
             completed reason in
  session_durationMinutes s
  = match activeContextSubtask with
    | Some t => if 0 <? estimatedMinutes t then estimatedMinutes t else 25
    | None => 25
    end ∧
  1 ≤ session_durationMinutes s ∧ 1 ≤ session_actualDurationMinutes s ∧
  session_actualDurationMinutes s
  = (if completed then session_durationMinutes s
     else Z.max 1 ((now2 - session_startTime s) / 60000)) ∧
  session_projectId s = timer_projectId timerState ∧
  session_subtaskId s = timer_subtaskId timerState.
Proof.
  cbv zeta. unfold handleFinish. cbv zeta.
  cbn [session_durationMinutes session_actualDurationMinutes session_startTime
       session_projectId session_subtaskId].
  set (est := match activeContextSubtask with
              | Some t => if 0 <? estimatedMinutes t then estimatedMinutes t else 25
              | None => 25
              end).
  assert (Hest : 1 ≤ est).
  { unfold est. destruct activeContextSubtask as [t|]; [|lia].
    destruct (Z.ltb_spec 0 (estimatedMinutes t)); lia. }
  split; [done|]. split; [exact Hest|]. split; [lia|]. split; [|done].
  destruct completed.
  - rewrite Z.div_mul by lia. lia.
  - rewrite Z.div_div by lia. reflexivity.
Qed.

Lemma ceilDiv1000_shift (a b : Z) : ceilDiv1000 (b * 1000 - a) = b - a / 1000.
Proof.
  unfold ceilDiv1000.
  replace (- (b * 1000 - a)) with (a + (- b) * 1000) by lia.
  rewrite Z.div_add by lia. lia.
Qed.

(** X23. The countdown. After a press on start at the instant [now] with
    [timeLeft] seconds on the display, the remaining time computed at the
    instant [now + elapsed] is [timeLeft] minus the whole seconds of
    [elapsed], and 0 once that is negative; the end instant must not be the
    instant 0, which JavaScript takes for no end instant. *)
Theorem countdown_in_whole_seconds (timerState : TimerState)
    (timeLeft now elapsed : Z) (activeContextProject : Project)
    (activeContextSubtask : option SubTask) :
  timer_isActive timerState = false → now + timeLeft * 1000 ≠ 0 →
  calculateInitialTimeLeft
    (toggleTimer timerState timeLeft now activeContextProject activeContextSubtask)
    (now + elapsed)
  = Z.max 0 (timeLeft - elapsed / 1000).
Proof.
  intros Hidle Hend. unfold toggleTimer, calculateInitialTimeLeft. rewrite Hidle.
  cbn [negb timer_isActive timer_endTime truthyZ andb from_option id].
  destruct (Z.eqb_spec (now + timeLeft * 1000) 0) as [|_]; [done|]. cbn [negb].
  replace (now + timeLeft * 1000 - (now + elapsed))
    with (timeLeft * 1000 - elapsed) by lia.
  by rewrite ceilDiv1000_shift.
Qed.

(** Twenty-five minutes on the display, looked at 61.5 seconds later. *)
Lemma countdown_in_whole_seconds_witness :
  calculateInitialTimeLeft
    (toggleTimer freshTimer 1500 1000000 (project entryA) None) (1000000 + 61500)
  = 1439.
Proof.
  rewrite (countdown_in_whole_seconds freshTimer 1500 1000000 61500
             (project entryA) None eq_refl); [reflexivity|discriminate].
Defined.

(** X24. A pause counts as focus time. Start a timer that has no start
    instant at [now0], pause it with [left] seconds on the display, and
    resume it at [now1]: the paused timer shows [left] seconds, the resumed
    one runs until [left] seconds after [now1] and keeps [now0] as its
    start. A session given up at [now2] therefore gets the whole minutes
    from [now0] to [now2] as actual minutes, the pause included. *)
Theorem pause_counts_as_focus_time (timerState : TimerState)
    (timeLeft left now0 nowPause now1 now2 nowFinish : Z)
    (activeContextProject : Project) (activeContextSubtask : option SubTask)
    (newId : string) (reason : option string) :
  timer_isActive timerState = false →
  truthyZ (timer_startTime timerState) = false → now0 ≠ 0 →
  let running := toggleTimer timerState timeLeft now0
                   activeContextProject activeContextSubtask in
  let paused := toggleTimer running left nowPause
                  activeContextProject activeContextSubtask in
  let resumed := toggleTimer paused left now1
                   activeContextProject activeContextSubtask in
  calculateInitialTimeLeft paused nowPause = left ∧
  timer_startTime resumed = Some now0 ∧
  timer_endTime resumed = Some (now1 + left * 1000) ∧
  session_actualDurationMinutes
    (handleFinish resumed activeContextSubtask nowFinish now2 newId false reason)
  = Z.max 1 ((now2 - now0) / 60000).
Proof.
  intros Hidle Hnostart Hnow running paused resumed.
  assert (Hstart : timer_startTime resumed = Some now0).
  { unfold resumed, paused, running, toggleTimer. rewrite Hidle, Hnostart.
    cbn [negb timer_isActive timer_startTime truthyZ from_option id].
    destruct (Z.eqb_spec now0 0) as [|_]; [done|]. reflexivity. }
  split.
  { unfold paused, running, toggleTimer, calculateInitialTimeLeft. rewrite Hidle.
    reflexivity. }
  split; [exact Hstart|]. split.
  { unfold resumed, paused, running, toggleTimer. rewrite Hidle. reflexivity. }
  unfold handleFinish. cbv zeta. cbn [session_actualDurationMinutes].
  rewrite Hstart. cbn [truthyZ from_option id].
  destruct (Z.eqb_spec now0 0) as [|_]; [done|]. cbn [negb].
  rewrite Z.div_div by lia. reflexivity.
Qed.

(** Start at second 1000, pause, come back an hour later, give up at once:
    sixty minutes are recorded. *)
Lemma pause_counts_as_focus_time_witness :
  session_actualDurationMinutes
    (handleFinish
       (toggleTimer
          (toggleTimer (toggleTimer freshTimer 1500 1000000 (project entryA) None)
             1440 1060000 (project entryA) None)
          1440 4600000 (project entryA) None)
       None 4600000 4600000 "s" false None)
  = 60.
Proof.
  destruct (pause_counts_as_focus_time freshTimer 1500 1440 1000000 1060000
              4600000 4600000 4600000 (project entryA) None "s" None
              eq_refl eq_refl) as (_ & _ & _ & H).
  - discriminate.
  - rewrite H. reflexivity.
Defined.

(** X25. Two ways of choosing a task. On a timer that is not running,
    [handleStartFocus] and [switchContext] set the same project and task;
    they set the same duration exactly when no task is chosen or the task's
    estimate is positive: for an estimate of 0 the first sets 0 seconds, the
    second 25 minutes. On a running timer both leave the timer as it is. *)
Theorem start_focus_and_switch_context (timerState : TimerState)
    (project : Project) (subtask : option SubTask) :
  let started := handleStartFocus timerState project subtask in
  let switched := switchContext timerState project subtask in
  if timer_isActive timerState
  then started = timerState ∧ switched = timerState
  else
    timer_projectId started = timer_projectId switched ∧
    timer_subtaskId started = timer_subtaskId switched ∧
    (timer_duration started = timer_duration switched ↔
     match subtask with
     | Some t => 0 < estimatedMinutes t
     | None => True
     end).
Proof.
  cbv zeta. unfold handleStartFocus, switchContext.
  destruct (timer_isActive timerState); cbn [negb]; [done|].
  cbn [timer_projectId timer_subtaskId timer_duration].
  split; [done|]. split; [done|].
  destruct subtask as [t|]; [|done].
  destruct (Z.ltb_spec 0 (estimatedMinutes t)); lia.
Qed.

(** * Traversals and the project wizard *)

Lemma pushTasks_eq (acc : list SubTask) (t : SubTask) :
  pushTasks acc t = fold_left pushTasks (subtasks t) (acc ++ [t]).
Proof. by destruct t. Qed.

Lemma pushTasks_fold (l : list SubTask) :
  Forall (fun t => ∀ acc, pushTasks acc t = acc ++ preorderNode t) l →
  ∀ acc, fold_left pushTasks l acc = acc ++ preorder l.
Proof.
  induction l as [|c r IH]; intros Hall acc.
  - by rewrite app_nil_r.
  - apply Forall_cons in Hall as [Hc Hr]. cbn [fold_left].
    rewrite Hc, (IH Hr). unfold preorder. cbn [flat_map]. by rewrite app_assoc.
Qed.

Lemma pushTasks_spec (t : SubTask) (acc : list SubTask) :
  pushTasks acc t = acc ++ preorderNode t.
Proof.
  revert acc. induction t as [t IH] using SubTask_nested_ind. intros acc.
  rewrite pushTasks_eq, (pushTasks_fold (subtasks t) IH), preorderNode_eq.
  by rewrite <- app_assoc.
Qed.

(** X26. The three flattenings agree. [getAllSessionsFromProject] of the
    application root, [flattenTasks] of the calendar and the [flatten] of
    the list view list the tasks of a tree in the same order: every task
    followed by the tasks below it, children from first to last. *)
Theorem flattenings_agree (p : Project) :
  getAllSessionsFromProject p = preorder (proj_subtasks p) ∧
  flattenTasks (proj_subtasks p) = preorder (proj_subtasks p) ∧
  flat_map flattenItem (proj_subtasks p) = preorder (proj_subtasks p) ∧
  ∀ t, preorderNode t = t :: preorder (subtasks t).
Proof.
  split; [|split; [apply flattenTasks_preorder|split;
                     [apply flattenItem_preorder|apply preorderNode_eq]]].
  unfold getAllSessionsFromProject.
  rewrite (pushTasks_fold (proj_subtasks p)); [done|].
  apply Forall_forall. intros t _ acc. apply pushTasks_spec.
Qed.

Lemma deleteTaskInTree_eq (tasks : list SubTask) (tid : string) :
  deleteTaskInTree tasks tid = deleteRecursive tid tasks.
Proof. reflexivity. Qed.

Lemma addTaskNode_eq (pid : string) (n t : SubTask) :
  addTaskNode pid n t
  = if String.eqb (task_id t) pid
    then withSubtasks t (subtasks t ++ [n])
    else withSubtasks t (map (addTaskNode pid n) (subtasks t)).
Proof. by destruct t. Qed.

Lemma deleteRecursive_app (tid : string) (l k : list SubTask) :
  deleteRecursive tid (l ++ k) = deleteRecursive tid l ++ deleteRecursive tid k.
Proof. unfold deleteRecursive. by rewrite List.filter_app, map_app. Qed.

Lemma delete_after_add (pid : string) (n : SubTask) (tasks : list SubTask) :
  (∀ x, x ∈ preorder tasks → task_id x ≠ task_id n) →
  deleteRecursive (task_id n) (addTaskToTree tasks pid n) = tasks.
Proof.
  assert (Hlist : ∀ l,
    Forall (fun t => (∀ x, x ∈ preorderNode t → task_id x ≠ task_id n) →
                     deleteBelow (task_id n) (addTaskNode pid n t) = t) l →
    (∀ x, x ∈ preorder l → task_id x ≠ task_id n) →
    deleteRecursive (task_id n) (map (addTaskNode pid n) l) = l).
  { induction l as [|c r IH]; intros Hall Hfresh; [done|].
    apply Forall_cons in Hall as [Hc Hr]. cbn [map].
    rewrite deleteRecursive_cons.
    assert (Hcx : ∀ x, x ∈ preorderNode c → task_id x ≠ task_id n).
    { intros x Hx. apply Hfresh. unfold preorder. cbn [flat_map].
      apply elem_of_app. by left. }
    replace (task_id (addTaskNode pid n c)) with (task_id c)
      by (rewrite addTaskNode_eq; destruct (String.eqb (task_id c) pid); by destruct c).
    destruct (String.eqb_spec (task_id c) (task_id n)) as [Heq|_]; cbn [negb].
    - exfalso. apply (Hcx c); [|done]. rewrite preorderNode_eq. by left.
    - rewrite (Hc Hcx). f_equal. apply IH; [done|].
      intros x Hx. apply Hfresh. unfold preorder. cbn [flat_map].
      apply elem_of_app. by right. }
  intros Hfresh. apply Hlist; [|done].
  apply Forall_forall. intros t _. clear Hfresh.
  induction t as [t IH] using SubTask_nested_ind. intros Hfresh.
  assert (Hsub : ∀ x, x ∈ preorder (subtasks t) → task_id x ≠ task_id n).
  { intros x Hx. apply Hfresh. rewrite preorderNode_eq. by right. }
  rewrite addTaskNode_eq, deleteBelow_eq.
  destruct (String.eqb (task_id t) pid).
  - replace (subtasks (withSubtasks t (subtasks t ++ [n])))
      with (subtasks t ++ [n]) by (by destruct t).
    rewrite deleteRecursive_app, (deleteRecursive_absent _ _ Hsub).
    rewrite deleteRecursive_cons, String.eqb_refl. cbn [negb].
    change (deleteRecursive (task_id n) []) with (@nil SubTask).
    rewrite app_nil_r. by destruct t.
  - replace (subtasks (withSubtasks t (map (addTaskNode pid n) (subtasks t))))
      with (map (addTaskNode pid n) (subtasks t)) by (by destruct t).
    rewrite (Hlist (subtasks t) IH Hsub). by destruct t.
Qed.

(** X27. Adding a subtask and deleting it again, in the project wizard.
    When the id of the new task is that of no task of the draft, deleting
    the task that [addTaskToTree] has put in gives back the task list of
    before, wherever the parent was and also when there was none. *)
Theorem wizard_delete_undoes_add (tasks : list SubTask) (parentId : string)
    (newTask : SubTask) :
  (∀ x, x ∈ preorder tasks → task_id x ≠ task_id newTask) →
  deleteTaskInTree (addTaskToTree tasks parentId newTask) (task_id newTask) = tasks.
Proof. intros Hfresh. rewrite deleteTaskInTree_eq. by apply delete_after_add. Qed.

Lemma wizard_delete_undoes_add_witness :
  deleteTaskInTree
    (addTaskToTree (proj_subtasks (project entryA)) "E"
       (sampleTask "N" TODO 15 None []))
    "N"
  = proj_subtasks (project entryA).
Proof.
  apply (wizard_delete_undoes_add (proj_subtasks (project entryA)) "E"
           (sampleTask "N" TODO 15 None [])).
  intros x Hx. vm_compute in Hx.
  apply elem_of_cons in Hx as [->|Hx]; [discriminate|].
  apply list_elem_of_singleton in Hx as ->. discriminate.
Defined.

(** * The capacity of a day *)

Lemma filter_all {A : Type} (f : A → bool) (l : list A) :
  (∀ x, x ∈ l → f x = true) → List.filter f l = l.
Proof.
  induction l as [|x l IH]; intros H; [done|]. cbn [List.filter].
  rewrite (H x) by (by left). f_equal. apply IH. intros y Hy. apply H. by right.
Qed.

Lemma filter_none {A : Type} (f : A → bool) (l : list A) :
  (∀ x, x ∈ l → f x = false) → List.filter f l = [].
Proof.
  induction l as [|x l IH]; intros H; [done|]. cbn [List.filter].
  rewrite (H x) by (by left). apply IH. intros y Hy. apply H. by right.
Qed.

Lemma filter_same {A : Type} (f g : A → bool) (l : list A) :
  (∀ x, x ∈ l → f x = g x) → List.filter f l = List.filter g l.
Proof.
  intros H. apply List.filter_ext_in. intros x Hx. apply H. by apply list_elem_of_In.
Qed.

Lemma busyMinutes_range (s : Grid) : 0 ≤ busyMinutes s ≤ 480.
Proof.
  unfold busyMinutes.
  pose proof (filter_length_le (jsGet s) (seqZ 540 480)) as H.
  rewrite length_seqZ in H. lia.
Qed.

Lemma busyMinutes_mark (s : Grid) (m d : Z) :
  540 ≤ m → m + d ≤ 1020 → 0 ≤ d → length s = 1440%nat → FreeAt s m d →
  busyMinutes (markOccupied s m d) = busyMinutes s + d.
Proof.
  intros Hlo Hhi Hd Hlen Hfree. unfold busyMinutes.
  destruct (markOccupied_spec s m d) as [_ Hget]; [lia|lia|].
  replace 480 with ((m - 540) + (d + (1020 - (m + d)))) by lia.
  rewrite (seqZ_app 540) by lia. rewrite (seqZ_app (540 + (m - 540))) by lia.
  replace (540 + (m - 540)) with m by lia.
  rewrite !List.filter_app, !length_app.
  rewrite (filter_same (jsGet (markOccupied s m d)) (jsGet s) (seqZ 540 (m - 540))).
  2:{ intros x Hx%elem_of_seqZ. rewrite Hget.
      rewrite bool_decide_eq_false_2 by lia. apply orb_false_r. }
  rewrite (filter_same (jsGet (markOccupied s m d)) (jsGet s)
             (seqZ (m + d) (1020 - (m + d)))).
  2:{ intros x Hx%elem_of_seqZ. rewrite Hget.
      rewrite bool_decide_eq_false_2 by lia. apply orb_false_r. }
  rewrite (filter_all (jsGet (markOccupied s m d)) (seqZ m d)).
  2:{ intros x Hx%elem_of_seqZ. rewrite Hget.
      rewrite bool_decide_eq_true_2 by lia. apply orb_true_r. }
  rewrite (filter_none (jsGet s) (seqZ m d)).
  2:{ intros x Hx%elem_of_seqZ. apply Hfree. lia. }
  rewrite length_seqZ. cbn [length]. lia.
Qed.

Lemma sumZ_perm (l k : list Z) : l ≡ₚ k → sumZ l = sumZ k.
Proof.
  unfold sumZ. induction 1 as [|x l k _ IH|x y l|l k j _ IH1 _ IH2]; cbn [foldr];
    [done|by rewrite IH|lia|congruence].
Qed.

Section Capacity.

Variable tz : Z.
Variable projects : list Project.
Variable days : list Z.
Variable k : Z.

Lemma placedOn_queue (i : nat) :
  PlacedOn tz projects days k i → is_Some (unscheduledTasks projects !! i).
Proof. intros (e & u & [Hq _] & _). by exists e. Qed.

(** What trying the task at position [i] does to the busy minutes of the
    day [k]. *)
Lemma step_busy (i : nat) (e : QueueEntry) :
  unscheduledTasks projects !! i = Some e →
  ∃ occ upd occ' upd',
    stateBefore tz projects days i = Returned (occ, upd) ∧
    stateBefore tz projects days (S i) = Returned (occ', upd') ∧
    ∀ s', occ' !! k = Some s' →
      ∃ s, occ !! k = Some s ∧
           ((PlacedOn tz projects days k i ∧
             busyMinutes s' = busyMinutes s + durationOf (task e))
            ∨ (¬ PlacedOn tz projects days k i ∧ s' = s)).
Proof.
  intros Hi.
  destruct (step_cases tz projects days i e Hi)
    as (occ & upd & Hst & Hcov & Hfull & Hcase).
  destruct Hcase as [[_ Hnext]|(j & day & s0 & m & Hj & Hs0 & Hff & Hnext)].
  - exists occ, upd, occ, upd. split; [done|]. split; [done|].
    intros s' Hs'. exists s'. split; [done|]. right. split; [|done].
    intros (e' & u' & (_ & o & up & o' & Ho & Ho') & _).
    rewrite Hst in Ho. injection Ho as <- <-.
    rewrite Hnext in Ho'. injection Ho' as _ Hup.
    apply (f_equal length) in Hup. rewrite length_app in Hup. cbn in Hup. lia.
  - eexists occ, upd, _, _. split; [done|]. split; [exact Hnext|].
    pose proof (durationOf_min (task e)) as Hd.
    destruct Hff as (day' & s1 & Hj' & Hs1 & (Hcand & Hfree & _) & _).
    assert (day' = day) as -> by congruence.
    assert (s1 = s0) as -> by congruence.
    destruct (placed_date tz day m _ Hcand ltac:(lia)) as [Hday _].
    intros s' Hs'.
    destruct (decide (dayKey tz day = k)) as [Hk|Hk].
    + rewrite Hk, lookup_insert_eq in Hs'. injection Hs' as <-.
      exists s0. split; [by rewrite <- Hk|]. left. split.
      * exists e, (mkUpdate (proj_id (project e)) (task_id (task e))
                    (setHours tz day 0 m 0 0)).
        split; [|by rewrite <- Hk].
        split; [done|]. by eexists occ, upd, _.
      * destruct Hcand as [Hr _].
        apply busyMinutes_mark; [lia|lia|lia| |done]. by eapply Hfull.
    + rewrite lookup_insert_ne in Hs' by done.
      exists s'. split; [done|]. right. split; [|done].
      intros (e' & u' & (_ & o & up & o' & Ho & Ho') & Hku).
      rewrite Hst in Ho. injection Ho as <- <-.
      rewrite Hnext in Ho'. injection Ho' as _ Hup.
      apply app_inj_tail in Hup as [_ Hu]. subst u'. cbn [date] in Hku.
      congruence.
Qed.

Lemma capacity_upto (s0 : Grid) (i : nat) :
  fillOccupied tz (scheduledTasks projects) (initOccupied tz days) !! k = Some s0 →
  ∀ occ upd s,
    stateBefore tz projects days i = Returned (occ, upd) → occ !! k = Some s →
    ∀ positions,
      NoDup positions →
      Forall (fun p => (p < i)%nat ∧ PlacedOn tz projects days k p) positions →
      sumZ (queueDuration projects <$> positions) + busyMinutes s0 ≤ busyMinutes s.
Proof.
  intros Hs0. induction i as [|i IH]; intros occ upd s Hst Hs positions Hnd Hall.
  - rewrite stateBefore_O in Hst. injection Hst as <- _.
    destruct positions as [|p l].
    + cbn. assert (s = s0) as -> by congruence. lia.
    + apply Forall_cons in Hall as [[Hp _] _]. lia.
  - destruct (unscheduledTasks projects !! i) as [e|] eqn:Hi.
    + destruct (step_busy i e Hi) as (o & up & o' & up' & Ho & Ho' & Hstep).
      rewrite Hst in Ho'. injection Ho' as <- <-.
      destruct (Hstep s Hs) as (sPrev & HsPrev & Hcase).
      assert (Hrest : ∀ l, NoDup l → i ∉ l →
                Forall (fun p => (p < S i)%nat ∧ PlacedOn tz projects days k p) l →
                sumZ (queueDuration projects <$> l) + busyMinutes s0
                ≤ busyMinutes sPrev).
      { intros l Hndl Hil Hl. apply (IH o up sPrev Ho HsPrev l Hndl).
        apply Forall_forall. intros p Hp.
        destruct (proj1 (Forall_forall _ _) Hl p Hp) as [Hlt Hon].
        split; [|done]. assert (p ≠ i) by (by intros ->). lia. }
      pose proof (durationOf_min (task e)) as Hd.
      destruct Hcase as [[_ Hbusy]|[Hnot ->]].
      * destruct (decide (i ∈ positions)) as [Hin|Hin].
        -- apply elem_of_Permutation in Hin as (l & Hperm).
           rewrite Hperm in Hnd, Hall. apply NoDup_cons in Hnd as [Hil Hndl].
           apply Forall_cons in Hall as [_ Hl].
           rewrite (sumZ_perm _ (queueDuration projects <$> i :: l))
             by (by rewrite Hperm).
           rewrite fmap_cons. unfold sumZ at 1. cbn [foldr].
           fold (sumZ (queueDuration projects <$> l)).
           unfold queueDuration at 1. rewrite Hi. cbn [from_option].
           specialize (Hrest l Hndl Hil Hl). lia.
        -- specialize (Hrest positions Hnd Hin Hall). lia.
      * apply Hrest; [done| |done].
        intros Hin. apply Hnot.
        by destruct (proj1 (Forall_forall _ _) Hall i Hin).
    + apply lookup_ge_None in Hi.
      rewrite stateBefore_end in Hst by lia.
      rewrite <- (stateBefore_end tz projects days i) in Hst by lia.
      apply (IH occ upd s Hst Hs positions Hnd).
      apply Forall_forall. intros p Hp.
      destruct (proj1 (Forall_forall _ _) Hall p Hp) as [_ Hon].
      split; [|done].
      destruct (placedOn_queue p Hon) as [e He]. apply lookup_lt_Some in He. lia.
Qed.

End Capacity.

(** X28. The capacity of a day. For any set of queue positions whose tasks
    a run places on one day, the effective durations [max(15, estimate)] of
    these tasks sum to at most 480 minutes; together with the minutes
    between 09:00 and 17:00 that were busy on that day before the first
    placement they still sum to at most 480. *)
Theorem day_capacity (tz : Z) (projects : list Project) (days : list Z) (k : Z)
    (positions : list nat) :
  NoDup positions → Forall (PlacedOn tz projects days k) positions →
  sumZ (queueDuration projects <$> positions) ≤ 480 ∧
  ∀ s0,
    fillOccupied tz (scheduledTasks projects) (initOccupied tz days) !! k = Some s0 →
    sumZ (queueDuration projects <$> positions) + busyMinutes s0 ≤ 480.
Proof.
  intros Hnd Hall.
  assert (Hwith : ∀ s0,
    fillOccupied tz (scheduledTasks projects) (initOccupied tz days) !! k = Some s0 →
    sumZ (queueDuration projects <$> positions) + busyMinutes s0 ≤ 480).
  { intros s0 Hs0.
    destruct (stateBefore_ok tz projects days (length (unscheduledTasks projects)))
      as (occ & upd & Hst & _ & _).
    destruct (stateBefore_grows tz projects days 0
                (length (unscheduledTasks projects)) _ occ _ upd
                ltac:(lia) (stateBefore_O tz projects days) Hst) as [Hg _].
    destruct (Hg k s0 Hs0) as (s & Hs & _).
    pose proof (capacity_upto tz projects days k s0
                  (length (unscheduledTasks projects)) Hs0 occ upd s Hst Hs
                  positions Hnd) as Hcap.
    pose proof (busyMinutes_range s).
    etransitivity; [apply Hcap|lia].
    apply Forall_forall. intros p Hp.
    pose proof (proj1 (Forall_forall _ _) Hall p Hp) as Hon.
    split; [|done].
    destruct (placedOn_queue tz projects days k p Hon) as [e He].
    by apply lookup_lt_Some in He. }
  split; [|exact Hwith].
  destruct positions as [|p l]; [cbn; lia|].
  apply Forall_cons in Hall as [(e & u & Hp & Hk) _].
  destruct (placed_free tz projects days p e u Hp)
    as (_ & _ & _ & day & _ & Hday & Hkd & _).
  destruct (start_ok tz projects days) as [Hcov _].
  destruct (Hcov day Hday) as [s0 Hs0].
  rewrite <- Hkd, Hk in Hs0.
  pose proof (busyMinutes_range s0). specialize (Hwith s0 Hs0). lia.
Qed.

(** The two tasks of the sample backlog, both placed on day 10. *)
Lemma day_capacity_witness :
  NoDup [0%nat; 1%nat] ∧
  Forall (PlacedOn 0 stageInBacklog [noonOfDay10] 10) [0%nat; 1%nat] ∧
  sumZ (queueDuration stageInBacklog <$> [0%nat; 1%nat]) ≤ 480.
Proof.
  assert (Hnd : NoDup [0%nat; 1%nat]).
  { apply NoDup_cons. split; [|apply NoDup_singleton].
    intros Hin. apply list_elem_of_singleton in Hin. discriminate. }
  assert (Hall : Forall (PlacedOn 0 stageInBacklog [noonOfDay10] 10) [0%nat; 1%nat]).
  { apply List.Forall_cons; [|apply List.Forall_cons; [|apply List.Forall_nil]].
    - exists (mkEntry (sampleProject "p"
                [sampleTask "S" TODO 0 None [sampleTask "T" TODO 15 None []]])
              (sampleTask "S" TODO 0 None [sampleTask "T" TODO 15 None []])),
        (mkUpdate "p" "S" (minuteAt 10 540)).
      split; [|reflexivity]. split; [reflexivity|].
      eexists _, [], _. split; vm_compute; reflexivity.
    - exists (mkEntry (sampleProject "p"
                [sampleTask "S" TODO 0 None [sampleTask "T" TODO 15 None []]])
              (sampleTask "T" TODO 15 None [])),
        (mkUpdate "p" "T" (minuteAt 10 555)).
      split; [|reflexivity]. split; [reflexivity|].
      eexists _, [mkUpdate "p" "S" (minuteAt 10 540)], _.
      split; vm_compute; reflexivity. }
  split; [exact Hnd|]. split; [exact Hall|].
  apply (day_capacity 0 stageInBacklog [noonOfDay10] 10 [0%nat; 1%nat] Hnd Hall).
Defined.

(** * Looking tasks up *)

Lemma find_app {A : Type} (f : A → bool) (l k : list A) :
  List.find f (l ++ k)
  = match List.find f l with
    | Some x => Some x
    | None => List.find f k
    end.
Proof.
  induction l as [|x l IH]; [done|]. cbn [app List.find].
  by destruct (f x).
Qed.

Lemma findTaskById_find (tasks : list SubTask) (tid : string) :
  findTaskById tasks tid
  = List.find (fun t => String.eqb (task_id t) tid) (preorder tasks).
Proof.
  assert (Hlist : ∀ l,
    Forall (fun t => findTaskNode tid t
                     = List.find (fun t => String.eqb (task_id t) tid)
                         (preorderNode t)) l →
    findTaskById l tid
    = List.find (fun t => String.eqb (task_id t) tid) (preorder l)).
  { induction l as [|c r IH]; intros Hall; [done|].
    apply Forall_cons in Hall as [Hc Hr]. cbn [findTaskById].
    unfold preorder. cbn [flat_map]. rewrite find_app, <- Hc.
    destruct (findTaskNode tid c); [done|]. by apply IH. }
  apply Hlist, Forall_forall. intros t _.
  induction t as [t IH] using SubTask_nested_ind.
  rewrite findTaskNode_eq, preorderNode_eq. cbn [List.find].
  destruct (String.eqb (task_id t) tid); [done|]. by apply Hlist.
Qed.

(** X29. [findTaskById] returns the first match in pre-order. The task
    found is the first task with the given id in the pre-order of the tree;
    it is a task of the tree with that id; and nothing is found exactly when
    no task of the tree has the id. *)
Theorem findTaskById_is_first_in_preorder (tasks : list SubTask) (tid : string) :
  findTaskById tasks tid
  = List.find (fun t => String.eqb (task_id t) tid) (preorder tasks) ∧
  (∀ t, findTaskById tasks tid = Some t → t ∈ preorder tasks ∧ task_id t = tid) ∧
  (findTaskById tasks tid = None ↔ ∀ t, t ∈ preorder tasks → task_id t ≠ tid).
Proof.
  split; [apply findTaskById_find|]. rewrite findTaskById_find. split.
  - intros t Hf. apply find_some in Hf as [Hin Heq].
    split; [by apply list_elem_of_In|]. by apply String.eqb_eq.
  - split.
    + intros Hnone t Hin Hid. apply list_elem_of_In in Hin.
      pose proof (find_none _ _ Hnone t Hin) as Hf. cbn in Hf.
      rewrite Hid, String.eqb_refl in Hf. done.
    + intros Hno.
      destruct (List.find _ _) as [t|] eqn:Hf; [|done].
      apply find_some in Hf as [Hin Heq]. apply String.eqb_eq in Heq.
      by destruct (Hno t (proj2 (list_elem_of_In _ _) Hin)).
Qed.

Lemma find_unique {A : Type} (key : A → string) (l : list A) (x : A) :
  NoDup (key <$> l) → x ∈ l →
  List.find (fun y => String.eqb (key y) (key x)) l = Some x.
Proof.
  induction l as [|y l IH]; intros Hnd Hin; [by apply elem_of_nil in Hin|].
  rewrite fmap_cons in Hnd. apply NoDup_cons in Hnd as [Hy Hnd].
  cbn [List.find].
  apply elem_of_cons in Hin as [->|Hin]; [by rewrite String.eqb_refl|].
  destruct (String.eqb_spec (key y) (key x)) as [Heq|_]; [|by apply IH].
  exfalso. apply Hy. rewrite Heq. by apply list_elem_of_fmap_2.
Qed.

Lemma lookupTask_unique (ps : list Project) (p : Project) (t : SubTask) :
  UniqueIds ps → p ∈ ps → t ∈ preorder (proj_subtasks p) →
  lookupTask ps (proj_id p) (task_id t) = Some t.
Proof.
  intros [Hps Hts] Hp Ht. unfold lookupTask.
  rewrite (find_unique proj_id ps p Hps Hp), findTaskById_find.
  apply (find_unique task_id); [by apply Hts|done].
Qed.

Lemma Frame_ids (keys : list (string * string)) (ps ps' : list Project) :
  Frame keys ps ps' → UniqueIds ps → UniqueIds ps'.
Proof.
  intros Hf.
  assert (Hids : proj_id <$> ps' = proj_id <$> ps).
  { induction Hf as [|p p' l l' [Hid _] _ IH]; [done|].
    rewrite !fmap_cons. by rewrite Hid, IH. }
  intros [Hps Hts]. split; [by rewrite Hids|].
  intros p' Hp'. apply list_elem_of_lookup in Hp' as [a Ha].
  destruct (Forall2_lookup_r _ _ _ _ _ Hf Ha) as (p & Hp & _ & Hnodes).
  assert (Htids : task_id <$> preorder (proj_subtasks p')
                  = task_id <$> preorder (proj_subtasks p)).
  { induction Hnodes as [|t t' l l' [Hid _] _ IH]; [done|].
    rewrite !fmap_cons. by rewrite Hid, IH. }
  rewrite Htids. apply Hts. by eapply list_elem_of_lookup_2.
Qed.

Lemma queue_keys_NoDup (ps : list Project) :
  UniqueIds ps → NoDup (entryKey <$> unscheduledTasks ps).
Proof.
  intros [Hps Hts]. rewrite unscheduledTasks_eq.
  induction ps as [|p ps IH]; [apply NoDup_nil_2|].
  rewrite fmap_cons in Hps. apply NoDup_cons in Hps as [Hp Hps].
  cbn [flat_map]. rewrite fmap_app. apply NoDup_app. split; [|split].
  - rewrite <- list_fmap_compose.
    assert (Hsub : NoDup (task_id <$> List.filter isUnscheduled
                                        (preorder (proj_subtasks p)))).
    { assert (Hall : NoDup (task_id <$> preorder (proj_subtasks p)))
        by (apply Hts; by left).
      revert Hall. generalize (preorder (proj_subtasks p)). intros l.
      induction l as [|t l IHl]; intros Hall; [apply NoDup_nil_2|].
      rewrite fmap_cons in Hall. apply NoDup_cons in Hall as [Ht Hall].
      cbn [List.filter]. destruct (isUnscheduled t); [|by apply IHl].
      rewrite fmap_cons. apply NoDup_cons. split; [|by apply IHl].
      intros Hin. apply Ht. apply list_elem_of_fmap in Hin as (x & -> & Hx).
      apply elem_of_List_filter in Hx as [Hx _]. by apply list_elem_of_fmap_2. }
    replace (entryKey ∘ mkEntry p
             <$> List.filter isUnscheduled (preorder (proj_subtasks p)))
      with (pair (proj_id p)
            <$> (task_id <$> List.filter isUnscheduled (preorder (proj_subtasks p))))
      by (by rewrite <- list_fmap_compose).
    assert (Hinj : Inj (=) (=) (pair (B:=string) (proj_id p)))
      by (intros x y Hxy; congruence).
    by apply (NoDup_fmap_2 _).
  - intros key Hk1 Hk2.
    apply list_elem_of_fmap in Hk1 as (e1 & -> & He1).
    apply list_elem_of_fmap in He1 as (t1 & -> & _).
    apply list_elem_of_fmap in Hk2 as (e2 & Hkey & He2).
    apply list_elem_of_In, in_flat_map in He2 as (q & Hq & He2).
    apply list_elem_of_In in Hq, He2.
    apply list_elem_of_fmap in He2 as (t2 & -> & _).
    unfold entryKey in Hkey. cbn in Hkey. injection Hkey as Hpid _.
    apply Hp. rewrite Hpid. by apply list_elem_of_fmap_2.
  - apply IH; [done|]. intros q Hq. apply Hts. by right.
Qed.

Lemma bulkApply_fold (ps : list Project) (updates : list Update) :
  bulkApply ps updates = fold_left applyUpdate updates ps.
Proof. unfold bulkApply. by destruct updates. Qed.

(** X30. A second run does not move what the first run placed. In a store
    with unique ids, let a run record the update [u], at an instant other
    than 0, and let a second run, over any days, follow on the updated
    store. The second run records no update for the task of [u], and after
    it the task is the task of before the first run with the instant of
    [u] as its scheduled instant. *)
Theorem second_run_keeps_placements (tz : Z) (projects : list Project)
    (days days' : list Z) (occupied occupied' : gmap Z Grid)
    (updates updates' : list Update) (u : Update) :
  UniqueIds projects →
  autoSchedule tz projects days = Returned (occupied, updates) →
  u ∈ updates → date u ≠ 0 →
  autoSchedule tz (bulkApply projects updates) days' = Returned (occupied', updates') →
  (updateKey u ∉ updateKey <$> updates') ∧
  ∃ t, lookupTask projects (projectId u) (taskId u) = Some t ∧
       (ownFields <$> lookupTask (bulkApply (bulkApply projects updates) updates')
                        (projectId u) (taskId u))
       = Some (withScheduledDate (ownFields t) (Some (date u))).
Proof.
  intros Hids Hrun Hu Hdate Hrun'.
  pose proof (Frame_ids _ _ _ (bulkApply_frame projects updates) Hids) as Hids1.
  pose proof (run_keys_sublist tz projects days occupied updates Hrun) as Hsub.
  assert (Hnd : NoDup (updateKey <$> updates))
    by (eapply sublist_NoDup; [exact (queue_keys_NoDup projects Hids) | exact Hsub]).
  assert (Hkey : updateKey u ∈ entryKey <$> unscheduledTasks projects).
  { eapply elem_of_sublist; [|exact Hsub]. by apply list_elem_of_fmap_2. }
  apply list_elem_of_fmap in Hkey as (e & Hke & He).
  apply elem_of_unscheduledTasks in He as (Hp & Ht & _).
  assert (Hlook : lookupTask projects (projectId u) (taskId u) = Some (task e)).
  { unfold updateKey, entryKey in Hke. injection Hke as -> ->.
    by apply lookupTask_unique. }
  assert (Hlook1 : ownFields <$> lookupTask (bulkApply projects updates)
                                   (projectId u) (taskId u)
                   = Some (withScheduledDate (ownFields (task e)) (Some (date u)))).
  { rewrite bulkApply_fold, (lookupTask_fold_same updates projects u Hnd Hu).
    by rewrite Hlook. }
  assert (Hnot : updateKey u ∉ updateKey <$> updates').
  { intros Hin.
    pose proof (run_keys_sublist tz _ days' occupied' updates' Hrun') as Hsub'.
    assert (Hq : updateKey u
                 ∈ entryKey <$> unscheduledTasks (bulkApply projects updates))
      by (eapply elem_of_sublist; [exact Hin | exact Hsub']).
    apply list_elem_of_fmap in Hq as (e1 & Hk1 & He1).
    apply elem_of_unscheduledTasks in He1 as (Hp1 & Ht1 & Hun).
    pose proof (lookupTask_unique _ _ _ Hids1 Hp1 Ht1) as Hl1.
    unfold updateKey, entryKey in Hk1. injection Hk1 as Hpid Htid.
    rewrite Hpid, Htid, Hl1 in Hlook1. cbn in Hlook1.
    apply (inj Some) in Hlook1.
    assert (Hsd : scheduledDate (task e1) = Some (date u)).
    { transitivity (scheduledDate (ownFields (task e1))); [by destruct (task e1)|].
      rewrite Hlook1. by destruct (task e). }
    unfold isUnscheduled in Hun. rewrite Hsd in Hun. cbn [truthyZ] in Hun.
    destruct (Z.eqb_spec (date u) 0) as [|_]; [done|].
    cbn in Hun. by rewrite andb_false_r in Hun. }
  split; [exact Hnot|]. exists (task e). split; [exact Hlook|].
  rewrite (bulkApply_fold (bulkApply projects updates) updates').
  rewrite lookupTask_fold_other by exact Hnot. exact Hlook1.
Qed.

Lemma second_run_keeps_placements_witness :
  ∃ occupied updates occupied' updates',
    autoSchedule 0 stageInBacklog [noonOfDay10] = Returned (occupied, updates) ∧
    autoSchedule 0 (bulkApply stageInBacklog updates) [noonOfDay10]
    = Returned (occupied', updates') ∧
    ("p", "S") ∉ updateKey <$> updates'.
Proof.
  assert (Hrun : ∃ occupied,
    autoSchedule 0 stageInBacklog [noonOfDay10]
    = Returned (occupied, [mkUpdate "p" "S" (minuteAt 10 540);
                           mkUpdate "p" "T" (minuteAt 10 555)])).
  { eexists. vm_compute. reflexivity. }
  destruct Hrun as (occ & Hrun).
  assert (Hrun' : ∃ occupied',
    autoSchedule 0
      (bulkApply stageInBacklog [mkUpdate "p" "S" (minuteAt 10 540);
                                 mkUpdate "p" "T" (minuteAt 10 555)])
      [noonOfDay10]
    = Returned (occupied', [])).
  { eexists. vm_compute. reflexivity. }
  destruct Hrun' as (occ' & Hrun').
  assert (Hids : UniqueIds stageInBacklog).
  { split.
    - vm_compute. apply NoDup_singleton.
    - intros p Hp. apply list_elem_of_singleton in Hp as ->. vm_compute.
      apply NoDup_cons. split; [|apply NoDup_singleton].
      intros Hin. apply list_elem_of_singleton in Hin. discriminate. }
  exists occ, [mkUpdate "p" "S" (minuteAt 10 540); mkUpdate "p" "T" (minuteAt 10 555)],
    occ', []. split; [exact Hrun|]. split; [exact Hrun'|].
  destruct (second_run_keeps_placements 0 stageInBacklog [noonOfDay10] [noonOfDay10]
              occ occ' _ [] (mkUpdate "p" "S" (minuteAt 10 540)) Hids Hrun)
    as [Hnot _]; [by left|discriminate|exact Hrun'|exact Hnot].
Defined.
